(** * Hoyo-Hdiff-Patcher: a shallow embedding of [patch.py]

    The development follows the source file top-down: Python string
    primitives, the regular expressions of the archive classifier, the
    version parser and migration decision, a store for the working
    directory, and the patch pipeline over that store.

    Modelling conventions.
    - A Python [str] is a [string] whose characters are the code points
      below 256, for which [\d], [str.lower], [str.strip] and
      [str.splitlines] are the functions defined below.
    - [int] on a run of decimal digits is its value in [N], without
      CPython's cap on the number of digits.
    - The external programs are functions of the store that every
      statement quantifies over; an exception is a result of a run.
    - Of the permissions of an entry the store records the read-only
      attribute, which is what [chmod] sets or clears on Windows, the
      host of the two tools.  On a POSIX host the mode that
      [make_writable_recursive] passes to [chmod] also takes the search
      permission from a directory, which the store does not record: the
      statements that depend on what [chmod] does to a directory are
      stated for Windows. *)

From Stdlib Require Import Bool Arith NArith List Ascii String Lia Sorted.
Import ListNotations.
Open Scope list_scope.
Open Scope string_scope.

(** ** Python string primitives *)

Module PyStr.

Definition is_digit (c : ascii) : bool :=
  ((48 <=? nat_of_ascii c) && (nat_of_ascii c <=? 57))%nat.

Fixpoint all_digits (s : string) : bool :=
  match s with
  | EmptyString => true
  | String c s' => is_digit c && all_digits s'
  end.

(** A non-empty run of decimal digits. *)
Definition numeric (s : string) : bool :=
  negb (String.eqb s "") && all_digits s.

Fixpoint mem_char (c : ascii) (s : string) : bool :=
  match s with
  | EmptyString => false
  | String a s' => Ascii.eqb a c || mem_char c s'
  end.

(** [s.split(sep)] for a one-character separator. *)
Fixpoint split_on (sep : ascii) (s : string) : list string :=
  match s with
  | EmptyString => [EmptyString]
  | String c s' =>
      if Ascii.eqb c sep then EmptyString :: split_on sep s'
      else match split_on sep s' with
           | [] => [String c EmptyString]
           | p :: ps => String c p :: ps
           end
  end.

(** [int(s)]: defined on non-empty digit runs, a [ValueError] otherwise. *)
Definition digit_val (c : ascii) : N := N.of_nat (nat_of_ascii c - 48).

Fixpoint int_acc (acc : N) (s : string) : N :=
  match s with
  | EmptyString => acc
  | String c s' => int_acc (10 * acc + digit_val c) s'
  end.

Definition py_int (s : string) : option N :=
  if numeric s then Some (int_acc 0 s) else None.

End PyStr.
Import PyStr.

(** ** Regular expressions

    The fragment of Python's [re] that the source uses: character
    classes, concatenation, ordered alternation, greedy repetition of a
    class, a greedy optional, capture groups and the anchors.  The
    matcher is a backtracking one in continuation-passing style, which
    tries the alternatives in the order of [re]: the left branch first,
    the longest repetition first. *)

Module Re.

Inductive cclass :=
| CChr (c : ascii)   (* a literal character *)
| CDigit             (* \d *)
| CDot.              (* .  : anything but a newline *)

Definition cc_ok (cc : cclass) (c : ascii) : bool :=
  match cc with
  | CChr a => Ascii.eqb c a
  | CDigit => is_digit c
  | CDot => negb (Ascii.eqb c "010")
  end.

Inductive regex :=
| REps
| RC (cc : cclass)
| RSeq (r1 r2 : regex)
| RAlt (r1 r2 : regex)
| RStar (cc : cclass)
| RPlus (cc : cclass)
| ROpt (r : regex)
| RGrp (n : nat) (r : regex)
| RBol               (* ^ *)
| REol.              (* $ : at the end, or before a final newline *)

(** Group number |-> (start, end) offsets in the subject. *)
Definition groups := list (nat * (nat * nat)).
Definition kont := nat -> string -> groups -> option groups.

Fixpoint star_cc (cc : cclass) (pos : nat) (s : string) (g : groups)
    (k : kont) : option groups :=
  match s with
  | String c s' =>
      if cc_ok cc c then
        match star_cc cc (S pos) s' g k with
        | Some m => Some m
        | None => k pos s g
        end
      else k pos s g
  | EmptyString => k pos s g
  end.

Definition at_eol (s : string) : bool :=
  match s with
  | EmptyString => true
  | String c EmptyString => Ascii.eqb c "010"
  | _ => false
  end.

Fixpoint rmatch (r : regex) (pos : nat) (s : string) (g : groups)
    (k : kont) : option groups :=
  match r with
  | REps => k pos s g
  | RC cc =>
      match s with
      | String c s' => if cc_ok cc c then k (S pos) s' g else None
      | EmptyString => None
      end
  | RSeq r1 r2 =>
      rmatch r1 pos s g (fun pos' s' g' => rmatch r2 pos' s' g' k)
  | RAlt r1 r2 =>
      match rmatch r1 pos s g k with
      | Some m => Some m
      | None => rmatch r2 pos s g k
      end
  | RStar cc => star_cc cc pos s g k
  | RPlus cc =>
      match s with
      | String c s' => if cc_ok cc c then star_cc cc (S pos) s' g k else None
      | EmptyString => None
      end
  | ROpt r1 =>
      match rmatch r1 pos s g k with
      | Some m => Some m
      | None => k pos s g
      end
  | RGrp n r1 =>
      rmatch r1 pos s g (fun pos' s' g' => k pos' s' ((n, (pos, pos')) :: g'))
  | RBol => if Nat.eqb pos 0 then k pos s g else None
  | REol => if at_eol s then k pos s g else None
  end.

Definition accept : kont := fun _ _ g => Some g.

(** [re.search]: the first offset at which the pattern matches. *)
Fixpoint search_from (r : regex) (pos : nat) (s : string) : option groups :=
  match rmatch r pos s [] accept with
  | Some m => Some m
  | None =>
      match s with
      | EmptyString => None
      | String _ s' => search_from r (S pos) s'
      end
  end.

Definition search (r : regex) (subject : string) : option groups :=
  search_from r 0 subject.

Fixpoint assoc (n : nat) (g : groups) : option (nat * nat) :=
  match g with
  | [] => None
  | (m, span) :: g' => if Nat.eqb m n then Some span else assoc n g'
  end.

(** [m.group(n)] *)
Definition group (subject : string) (m : groups) (n : nat) : option string :=
  match assoc n m with
  | Some (a, b) => Some (substring a (b - a) subject)
  | None => None
  end.

Definition matches (r : regex) (subject : string) : bool :=
  match search r subject with Some _ => true | None => false end.

(** A literal word. *)
Fixpoint lit (w : string) : regex :=
  match w with
  | EmptyString => REps
  | String c w' => RSeq (RC (CChr c)) (lit w')
  end.

End Re.
Import Re.

Infix "@@" := RSeq (at level 60, right associativity).

(** ** [normalize_version] *)

Definition normalize_version (v : string) : string :=
  match split_on "." v with
  | [p0; p1] => p0 ++ "." ++ p1 ++ ".0"
  | _ => v
  end.

(** ** Version pairs in archive names *)

(** [\d+\.\d+(?:\.\d+)?] *)
Definition re_version : regex :=
  RPlus CDigit @@ RC (CChr ".") @@ RPlus CDigit @@
  ROpt (RC (CChr ".") @@ RPlus CDigit).

(** [_(\d+\.\d+(?:\.\d+)?)_(\d+\.\d+(?:\.\d+)?)] *)
Definition re_from_to : regex :=
  RC (CChr "_") @@ RGrp 1 re_version @@ RC (CChr "_") @@ RGrp 2 re_version.

(** [(None, None)] of the source is [None] here. *)
Definition parse_from_to_versions_from_name (name : string)
  : option (string * string) :=
  match search re_from_to name with
  | Some m =>
      match group name m 1, group name m 2 with
      | Some a, Some b => Some (normalize_version a, normalize_version b)
      | _, _ => None
      end
  | None => None
  end.

(** [x, y = map(int, v.split(".")[:2])]; [None] stands for the
    [ValueError] of [int] or of the unpacking. *)
Definition major_minor (v : string) : option (N * N) :=
  match firstn 2 (split_on "." v) with
  | [a; b] =>
      match py_int a, py_int b with
      | Some x, Some y => Some (x, y)
      | _, _ => None
      end
  | _ => None
  end.

(** Python's ordering of pairs. *)
Definition pair_ltb (p q : N * N) : bool :=
  (fst p <? fst q)%N || ((fst p =? fst q)%N && (snd p <? snd q)%N).

Definition pair_geb (p q : N * N) : bool := negb (pair_ltb p q).

Definition truthy (s : string) : bool := negb (String.eqb s "").

(** The value of [needs_migration] when [process_logical_archive]
    reaches its branch. *)
Definition needs_migration (archive_name : string) : bool :=
  match parse_from_to_versions_from_name archive_name with
  | Some (from_v, to_v) =>
      if truthy from_v && truthy to_v then
        match major_minor from_v, major_minor to_v with
        | Some f, Some t => pair_ltb f (3, 6)%N && pair_geb t (3, 6)%N
        | _, _ => false
        end
      else false
  | None => false
  end.

(** ** Vocabulary for archive names *)

(** The optional patch component [(?:\.\d+)?]: nothing, or a dot and a
    digit run. *)
Definition patch_suffix (P : string) : bool :=
  match P with
  | EmptyString => true
  | String c P' => Ascii.eqb c "." && numeric P'
  end.






(** ** More string primitives

    Characters are the code points below 256. *)

Module PyText.

(** [str.lower] *)
Definition lower_char (c : ascii) : ascii :=
  let n := nat_of_ascii c in
  if ((65 <=? n) && (n <=? 90)
      || (192 <=? n) && (n <=? 222) && negb (n =? 215))%nat
  then ascii_of_nat (n + 32) else c.

Fixpoint lower (s : string) : string :=
  match s with
  | EmptyString => EmptyString
  | String c s' => String (lower_char c) (lower s')
  end.

(** [str.isspace] on one character *)
Definition is_space (c : ascii) : bool :=
  let n := nat_of_ascii c in
  ((9 <=? n) && (n <=? 13) || (28 <=? n) && (n <=? 32)
   || (n =? 133) || (n =? 160))%nat.

Fixpoint lstrip (s : string) : string :=
  match s with
  | EmptyString => EmptyString
  | String c s' => if is_space c then lstrip s' else s
  end.

Fixpoint rstrip (s : string) : string :=
  match s with
  | EmptyString => EmptyString
  | String c s' =>
      let r := rstrip s' in
      if is_space c && String.eqb r "" then EmptyString else String c r
  end.

(** [str.strip()] *)
Definition strip (s : string) : string := rstrip (lstrip s).

(** The line boundaries of [str.splitlines]. *)
Definition is_linebreak (c : ascii) : bool :=
  let n := nat_of_ascii c in
  ((10 <=? n) && (n <=? 13) || (28 <=? n) && (n <=? 30) || (n =? 133))%nat.

(** [str.splitlines()]: no line for a final boundary, and a carriage
    return followed by a line feed is one boundary. *)
Fixpoint splitlines (s : string) : list string :=
  match s with
  | EmptyString => []
  | String c s' =>
      if is_linebreak c then
        match s' with
        | String d s'' =>
            if Ascii.eqb c "013" && Ascii.eqb d "010"
            then EmptyString :: splitlines s''
            else EmptyString :: splitlines s'
        | EmptyString => [EmptyString]
        end
      else
        match splitlines s' with
        | [] => [String c EmptyString]
        | l :: ls => String c l :: ls
        end
  end.

(** Text-mode reading with universal newlines. *)
Fixpoint universal_newlines (s : string) : string :=
  match s with
  | EmptyString => EmptyString
  | String c s' =>
      if Ascii.eqb c "013" then
        match s' with
        | String d s'' =>
            if Ascii.eqb d "010" then String "010" (universal_newlines s'')
            else String "010" (universal_newlines s')
        | EmptyString => String "010" EmptyString
        end
      else String c (universal_newlines s')
  end.

(** [s.replace(old, new)] for a non-empty [old]: the occurrences are
    taken from the left and do not overlap; [skip] counts the
    characters of the occurrence being replaced that are still to be
    dropped. *)
Fixpoint replace_from (old new : string) (skip : nat) (s : string) : string :=
  match s with
  | EmptyString => EmptyString
  | String c s' =>
      match skip with
      | S k => replace_from old new k s'
      | O =>
          if prefix old s
          then new ++ replace_from old new (String.length old - 1) s'
          else String c (replace_from old new 0 s')
      end
  end.

Definition replace (old new s : string) : string := replace_from old new 0 s.

(** [s.endswith(suf)] *)
Fixpoint endswith (suf s : string) : bool :=
  String.eqb s suf
  || match s with
     | EmptyString => false
     | String _ s' => endswith suf s'
     end.

(** [s[:-n]] for [n > 0] *)
Definition drop_last (n : nat) (s : string) : string :=
  substring 0 (String.length s - n) s.

(** [sorted] on strings: insertion keeps equal keys in their order. *)
Fixpoint insert_sorted (x : string) (l : list string) : list string :=
  match l with
  | [] => [x]
  | y :: l' => if String.ltb x y then x :: l else y :: insert_sorted x l'
  end.

Fixpoint sorted (l : list string) : list string :=
  match l with
  | [] => []
  | x :: l' => insert_sorted x (sorted l')
  end.

End PyText.
Import PyText.

(** ** Host platform

    What the Python runtime takes from the host: the path separators,
    case folding of names, and whether the read-only attribute of a file
    blocks its removal. *)

Inductive platform := Windows | Posix.

(** [os.sep] *)
Definition os_sep (h : platform) : ascii :=
  match h with Windows => "\" | Posix => "/" end%char.

(** [os.path.normcase] on a name without separators. *)
Definition normcase (h : platform) (s : string) : string :=
  match h with Windows => lower s | Posix => s end.

(** ** [fnmatch] patterns *)

Module Glob.

Inductive gtok :=
| GStar                                (* *  *)
| GAny                                 (* ?  *)
| GLit (c : ascii)
| GClass (neg : bool) (body : string). (* [body] or [!body] *)

(** The text of a class up to its closing bracket, and what follows the
    bracket; a bracket right after the opening counts as a member. *)
Fixpoint class_rest (s : string) : option (string * string) :=
  match s with
  | EmptyString => None
  | String c s' =>
      if Ascii.eqb c "]" then Some (EmptyString, s')
      else match class_rest s' with
           | Some (b, r) => Some (String c b, r)
           | None => None
           end
  end.

Definition class_end (s : string) : option (string * string) :=
  match s with
  | String c s' =>
      if Ascii.eqb c "]" then
        match class_rest s' with
        | Some (b, r) => Some (String c b, r)
        | None => None
        end
      else class_rest s
  | EmptyString => None
  end.

Definition parse_class (s : string) : option (bool * string * string) :=
  match s with
  | String c s' =>
      if Ascii.eqb c "!" then
        match class_end s' with
        | Some (b, r) => Some (true, b, r)
        | None => None
        end
      else match class_end s with
           | Some (b, r) => Some (false, b, r)
           | None => None
           end
  | EmptyString => None
  end.

(** An opening bracket without a closing one is a literal. *)
Fixpoint tokens (fuel : nat) (pat : string) : list gtok :=
  match fuel with
  | O => []
  | S fuel' =>
      match pat with
      | EmptyString => []
      | String c pat' =>
          if Ascii.eqb c "*" then GStar :: tokens fuel' pat'
          else if Ascii.eqb c "?" then GAny :: tokens fuel' pat'
          else if Ascii.eqb c "[" then
            match parse_class pat' with
            | Some (neg, body, rest) => GClass neg body :: tokens fuel' rest
            | None => GLit c :: tokens fuel' pat'
            end
          else GLit c :: tokens fuel' pat'
      end
  end.

(** Members and ranges of a class. *)
Fixpoint class_mem (body : string) (c : ascii) : bool :=
  match body with
  | EmptyString => false
  | String a body' =>
      match body' with
      | String d (String b body'') =>
          if Ascii.eqb d "-"
          then ((nat_of_ascii a <=? nat_of_ascii c)
                && (nat_of_ascii c <=? nat_of_ascii b))%nat
               || class_mem body'' c
          else Ascii.eqb a c || class_mem body' c
      | _ => Ascii.eqb a c || class_mem body' c
      end
  end.

Fixpoint gmatch (ts : list gtok) (name : string) : bool :=
  match ts with
  | [] => String.eqb name ""
  | GStar :: ts' =>
      (fix star (n : string) : bool :=
         gmatch ts' n
         || match n with
            | EmptyString => false
            | String _ n' => star n'
            end) name
  | GAny :: ts' =>
      match name with
      | String _ n' => gmatch ts' n'
      | EmptyString => false
      end
  | GLit c :: ts' =>
      match name with
      | String d n' => Ascii.eqb d c && gmatch ts' n'
      | EmptyString => false
      end
  | GClass neg body :: ts' =>
      match name with
      | String d n' => xorb neg (class_mem body d) && gmatch ts' n'
      | EmptyString => false
      end
  end.

(** [fnmatch.fnmatchcase] *)
Definition fnmatchcase (name pat : string) : bool :=
  gmatch (tokens (String.length pat) pat) name.

(** [fnmatch.fnmatch] *)
Definition fnmatch (h : platform) (name pat : string) : bool :=
  fnmatchcase (normcase h name) (normcase h pat).

End Glob.
Import Glob.

(** ** Archive-name patterns *)

Definition re_ext : regex :=
  RAlt (lit "7z") (RAlt (lit "zip") (lit "rar")).

(** [\.(7z|zip|rar)\.0*1$] *)
Definition re_first_part : regex :=
  RC (CChr ".") @@ RGrp 1 re_ext @@ RC (CChr ".") @@ RStar (CChr "0") @@
  RC (CChr "1") @@ REol.

(** [^(.*\.(?:7z|zip|rar))\.0*1$] *)
Definition re_first_prefix : regex :=
  RBol @@ RGrp 1 (RStar CDot @@ RC (CChr ".") @@ re_ext) @@ RC (CChr ".") @@
  RStar (CChr "0") @@ RC (CChr "1") @@ REol.

(** [\.(7z|zip|rar)\.0*\d+$] *)
Definition re_numbered_part : regex :=
  RC (CChr ".") @@ RGrp 1 re_ext @@ RC (CChr ".") @@ RStar (CChr "0") @@
  RPlus CDigit @@ REol.

(** [\.part\d+\.rar$] *)
Definition re_rar_part : regex :=
  lit ".part" @@ RPlus CDigit @@ lit ".rar" @@ REol.

(** The argument is [p.name]. *)
Definition is_multipart_first (name : string) : bool :=
  let name := lower name in
  if matches re_first_part name then true
  else if endswith ".part1.rar" name then true
  else false.

Definition is_part_file_name (name : string) : bool :=
  let ln := lower name in
  if matches re_first_part ln then true
  else if endswith ".part1.rar" ln then true
  else if matches re_numbered_part ln then true
  else if matches re_rar_part ln then true
  else false.

Definition logical_name_from_first (name : string) : string :=
  let lower := lower name in
  match search re_first_prefix lower with
  | Some m =>
      match group lower m 1 with
      | Some g1 => g1
      | None => name
      end
  | None => if endswith ".part1.rar" lower then name else name
  end.

(** ** The working directory

    A store lists the entries below the working directory, each under its
    path relative to it; the working directory itself is the empty path
    and always exists.  The store holds nothing outside that tree: a
    text that names a path through a drive, a leading separator or [..]
    is read component by component like any other, and the statements
    about the targets of a manifest are for the texts that stay inside
    (see [confined]).  [e_readonly] is the attribute that [chmod]
    clears; [e_sealed] says that the system refuses [chmod] on the
    entry; [e_locked] stands for every other reason for which the
    system refuses to remove an entry. *)

Definition path := list string.

Inductive kind := KFile (content : string) | KDir.

Record entry := mkEntry {
  e_path : path;
  e_kind : kind;
  e_readonly : bool;
  e_locked : bool;
  e_sealed : bool
}.

Definition store := list entry.

Section Store.

Variable h : platform.

Definition is_sep (c : ascii) : bool :=
  match h with
  | Windows => Ascii.eqb c "\" || Ascii.eqb c "/"
  | Posix => Ascii.eqb c "/"
  end.

Fixpoint split_path (s : string) : list string :=
  match s with
  | EmptyString => [EmptyString]
  | String c s' =>
      if is_sep c then EmptyString :: split_path s'
      else match split_path s' with
           | [] => [String c EmptyString]
           | p :: ps => String c p :: ps
           end
  end.

(** [Path(s)]: empty and [.] components vanish, so the path of the
    empty text is the working directory. *)
Definition Path_of (s : string) : path :=
  filter (fun c => negb (String.eqb c "") && negb (String.eqb c "."))
         (split_path s).

(** [p.name] *)
Definition path_name (p : path) : string := last p EmptyString.

Definition name_eqb (a b : string) : bool :=
  String.eqb (normcase h a) (normcase h b).

Fixpoint path_eqb (p q : path) : bool :=
  match p, q with
  | [], [] => true
  | a :: p', b :: q' => name_eqb a b && path_eqb p' q'
  | _, _ => false
  end.

(** [p] is [q] or an ancestor of [q]. *)
Fixpoint is_prefix (p q : path) : bool :=
  match p, q with
  | [], _ => true
  | a :: p', b :: q' => name_eqb a b && is_prefix p' q'
  | _ :: _, [] => false
  end.

Definition strictly_under (p q : path) : bool :=
  is_prefix p q && negb (path_eqb p q).

Definition lookup (p : path) (st : store) : option entry :=
  find (fun e => path_eqb (e_path e) p) st.

Definition node_kind (p : path) (st : store) : option kind :=
  match p with
  | [] => Some KDir
  | _ => option_map e_kind (lookup p st)
  end.

Definition exists_ (p : path) (st : store) : bool :=
  match node_kind p st with Some _ => true | None => false end.

Definition is_file (p : path) (st : store) : bool :=
  match node_kind p st with Some (KFile _) => true | _ => false end.

Definition is_dir (p : path) (st : store) : bool :=
  match node_kind p st with Some KDir => true | _ => false end.

(** Removal is refused for a locked entry and, on Windows, for a
    read-only one. *)
Definition undeletable (e : entry) : bool :=
  e_locked e || match h with Windows => e_readonly e | Posix => false end.

Definition remove_path (p : path) (st : store) : store :=
  filter (fun e => negb (path_eqb (e_path e) p)) st.

(** [p.unlink()]; [None] is the [OSError]. *)
Definition unlink (p : path) (st : store) : option store :=
  match p with
  | [] => None
  | _ =>
      match lookup p st with
      | Some e =>
          match e_kind e with
          | KFile _ => if undeletable e then None else Some (remove_path p st)
          | KDir => None
          end
      | None => None
      end
  end.

Definition has_children (p : path) (st : store) : bool :=
  existsb (fun e => strictly_under p (e_path e)) st.

(** [p.rmdir()] *)
Definition rmdir (p : path) (st : store) : option store :=
  match p with
  | [] => None
  | _ =>
      match lookup p st with
      | Some e =>
          match e_kind e with
          | KDir =>
              if undeletable e || has_children p st then None
              else Some (remove_path p st)
          | KFile _ => None
          end
      | None => None
      end
  end.

(** Something at or below [q] cannot be removed. *)
Definition blocked (st : store) (q : path) : bool :=
  existsb (fun d => is_prefix q (e_path d) && undeletable d) st.

(** [shutil.rmtree(p, ignore_errors=True)]: bottom-up, what cannot be
    removed stays, with its ancestors. *)
Definition rmtree_ignore (p : path) (st : store) : store :=
  if is_dir p st then
    filter (fun e => negb (is_prefix p (e_path e)) || blocked st (e_path e)) st
  else st.

Definition set_writable (e : entry) : entry :=
  mkEntry (e_path e) (e_kind e) false (e_locked e) (e_sealed e).

(** What a [chmod] with [stat.S_IWRITE] in its mode makes of an entry:
    the read-only attribute is cleared, unless the entry is sealed, for
    which the call raises and changes nothing. *)
Definition try_writable (e : entry) : entry :=
  if e_sealed e then e else set_writable e.

(** [try: p.chmod(mode) except: pass], for such a mode.  Every [chmod]
    of the source stands in this block. *)
Definition chmod_quietly (p : path) (st : store) : store :=
  map (fun e => if path_eqb (e_path e) p then try_writable e else e) st.

Definition ensure_writable (p : path) (st : store) : store :=
  if exists_ p st then
    match lookup p st with
    | Some e => if e_readonly e then chmod_quietly p st else st
    | None => st
    end
  else st.

(** [p.rglob("*")]: every entry strictly below [p], in store order. *)
Definition rglob_all (p : path) (st : store) : list path :=
  if is_dir p st
  then map e_path (filter (fun e => strictly_under p (e_path e)) st)
  else [].

(** Every [chmod] of the source is tried and its failure passed over.
    The mode is [stat.S_IWRITE | stat.S_IREAD]: on Windows the call
    clears the read-only attribute and does nothing else, which is what
    [chmod_quietly] does.  On a POSIX host the same mode also takes the
    search permission from a directory, for which the store has no
    attribute: there the function is exact on a file only, and the
    statements that run it on a directory are stated for Windows. *)
Definition make_writable_recursive (p : path) (st : store) : store :=
  if negb (exists_ p st) then st
  else if is_file p st then chmod_quietly p st
  else chmod_quietly p
         (fold_left (fun st' q => chmod_quietly q st') (rglob_all p st) st).

(** [p.rglob(pat)] for a one-component pattern. *)
Definition rglob_pat (p : path) (pat : string) (st : store) : list path :=
  if is_dir p st
  then map e_path
         (filter (fun e => strictly_under p (e_path e)
                           && fnmatch h (path_name (e_path e)) pat) st)
  else [].

(** The names in the working directory, as [os.listdir] gives them. *)
Definition cwd_names (st : store) : list string :=
  flat_map (fun e => match e_path e with [n] => [n] | _ => [] end) st.

Definition is_hidden (name : string) : bool := prefix "." name.

(** [glob.glob(pat)] in the working directory. *)
Definition glob_cwd (pat : string) (st : store) : list string :=
  filter (fun n => (is_hidden pat || negb (is_hidden n)) && fnmatch h n pat)
         (cwd_names st).

(** Two stars in a row somewhere in the pattern. *)
Fixpoint has_double_star (pat : string) : bool :=
  match pat with
  | String c pat' =>
      match pat' with
      | String d _ =>
          (Ascii.eqb c "*" && Ascii.eqb d "*") || has_double_star pat'
      | EmptyString => false
      end
  | EmptyString => false
  end.

(** [Path.cwd().glob(pat)] for a one-component pattern with more in it
    than stars: names.  [None] is the [ValueError] that [pathlib] raises
    for a component that holds [**] and something else. *)
Definition path_glob_cwd (pat : string) (st : store) : option (list string) :=
  if has_double_star pat then None
  else Some (filter (fun n => fnmatch h n pat) (cwd_names st)).

(** [p.read_text()]; [None] is the [OSError]. *)
Definition read_text (p : path) (st : store) : option string :=
  match lookup p st with
  | Some e =>
      match e_kind e with
      | KFile c => Some (universal_newlines c)
      | KDir => None
      end
  | None => None
  end.

(** [p.write_text(text, newline="\n")] *)
Definition write_text (p : path) (text : string) (st : store) : option store :=
  match lookup p st with
  | Some e =>
      match e_kind e with
      | KFile _ =>
          if e_readonly e then None
          else Some (map (fun e' =>
                 if path_eqb (e_path e') p
                 then mkEntry (e_path e') (KFile text) (e_readonly e') (e_locked e') (e_sealed e')
                 else e') st)
      | KDir => None
      end
  | None => Some (st ++ [mkEntry p (KFile text) false false false])%list
  end.

End Store.

(** ** Runs of the program

    A run threads the store and a trace (most recent event first)
    through the calls; an exception is a result. *)

Inductive level := INFO | WARNING | ERROR.

Inductive message :=
| Detected_game_folder (folder : string)
| No_supported_game_folder
| Tool_missing (tool : string)
| Deleted_file (target : path)
| Deleted_directory_tree (target : path)
| Failed_to_delete (target : path)
| Hpatchz_failed (target : string)
| Patched (target : string)
| Processing_multipart_archive (name : string)
| Failed_to_extract_multipart (name : string)
| Error_processing_multipart (name : string)
| Processing_archive (name : string)
| Failed_to_extract (name : string)
| Migration_did_not_complete
| Audio_migration_completed
| Game_version_not_detected
| Deleted_directory_tree_flex (found : path)
| Patching_finished.

Inductive event :=
| Log (l : level) (m : message)
| Exec7z (archive : string)        (* 7z.exe x archive -o. -y *)
| ExecHpatchz (target : string).   (* hpatchz.exe -f target target.hdiff target *)

Record state := mkState { fs : store; trace : list event }.

Inductive exn := CalledProcessError | OSError | ValueError | SystemExit.

Inductive outcome (A : Type) :=
| Ret (a : A)
| Raise (e : exn).
Arguments Ret {A} a.
Arguments Raise {A} e.

(** How a child process ends: exit status zero, a non-zero one, or it
    could not be started. *)
Inductive proc := Exit0 | ExitNonZero | SpawnFailed.

Definition M (A : Type) : Type := state -> state * outcome A.

Definition ret {A} (a : A) : M A := fun s => (s, Ret a).

Definition raise {A} (e : exn) : M A := fun s => (s, Raise e).

Definition bind {A B} (m : M A) (k : A -> M B) : M B :=
  fun s =>
    match m s with
    | (s', Ret a) => k a s'
    | (s', Raise e) => (s', Raise e)
    end.

Notation "x <- m ;; k" := (bind m (fun x => k))
  (at level 61, m at next level, right associativity).
Notation "m ;;; k" := (bind m (fun _ => k))
  (at level 61, right associativity).

Definition emit (e : event) : M unit :=
  fun s => (mkState (fs s) (e :: trace s), Ret tt).

Definition log (l : level) (m : message) : M unit := emit (Log l m).

Definition get_fs : M store := fun s => (s, Ret (fs s)).

Definition put_fs (st : store) : M unit :=
  fun s => (mkState st (trace s), Ret tt).

(** [except Exception] lets [SystemExit] through; a bare [except] does
    not. *)
Definition is_Exception (e : exn) : bool :=
  match e with SystemExit => false | _ => true end.

Definition any_exn (e : exn) : bool := true.

Definition try_except {A} (body : M A) (caught : exn -> bool)
    (handler : M A) : M A :=
  fun s =>
    match body s with
    | (s', Ret a) => (s', Ret a)
    | (s', Raise e) => if caught e then handler s' else (s', Raise e)
    end.

(** A [for] loop that carries the local variables in [acc]. *)
Fixpoint for_fold {A X} (body : X -> A -> M A) (l : list X) (acc : A) : M A :=
  match l with
  | [] => ret acc
  | x :: l' => acc' <- body x acc ;; for_fold body l' acc'
  end.

Definition for_each {X} (body : X -> M unit) (l : list X) : M unit :=
  for_fold (fun x _ => body x) l tt.

(** A store operation that raises [OSError] when it fails. *)
Definition os_call (f : store -> option store) : M unit :=
  fun s =>
    match f (fs s) with
    | Some st' => (mkState st' (trace s), Ret tt)
    | None => (s, Raise OSError)
    end.

(** ** Constants *)

Definition GAME_FOLDERS : list string :=
  ["GenshinImpact_Data"; "StarRail_Data"; "ZenlessZoneZero_Data"; "Client"].

Definition TOOLS : list string := ["7z.exe"; "hpatchz.exe"].

Definition dquote : ascii := "034"%char.

(** The opening of the wrapper: a brace, the quoted key [remoteName],
    a colon, a space and the quote that opens the value. *)
Definition wrapper_open : string :=
  "{" ++ String dquote ("remoteName" ++ String dquote (": " ++ String dquote "")).

(** The closing of the wrapper: the quote that closes the value and a
    brace. *)
Definition wrapper_close : string := String dquote "}".

(** The text that [replace_text_in_file] writes back. *)
Definition rewrite_manifest_text (text : string) : string :=
  replace "/" "\" (replace wrapper_close "" (replace wrapper_open "" text)).

(** ** The pipeline *)

Section Pipeline.

Variable h : platform.

(** The external programs, and the two functions of the source that no
    property below depends on, each as a function of the store: the
    archiver on an archive, the patch tool on a target, the relocation
    loop of [migrate_audio_if_needed] on the game folder, and
    [detect_game_version_after_patch], which only reads. *)
Variable run_7z : string -> store -> store * proc.
Variable run_hpatchz : string -> store -> store * proc.
Variable relocate_audio : path -> store -> store * option exn.
Variable installed_version : path -> store -> option string.

Definition detect_game_folder : M path :=
  st <- get_fs ;;
  match find (fun folder => is_dir h (Path_of h folder) st) GAME_FOLDERS with
  | Some folder =>
      log INFO (Detected_game_folder folder) ;;; ret (Path_of h folder)
  | None => log ERROR No_supported_game_folder ;;; raise SystemExit
  end.

Definition detect_game_version_after_patch (game_folder : path)
  : M (option string) :=
  st <- get_fs ;;
  match installed_version game_folder st with
  | Some v => ret (Some v)
  | None => log WARNING Game_version_not_detected ;;; ret None
  end.

Definition check_tools : M unit :=
  for_each (fun tool =>
      st <- get_fs ;;
      if negb (exists_ h (Path_of h tool) st)
      then log ERROR (Tool_missing tool) ;;; raise SystemExit
      else ret tt)
    TOOLS.

Definition replace_text_in_file (filepath : path) : M unit :=
  st <- get_fs ;;
  if negb (exists_ h filepath st) then ret tt
  else
    match read_text h filepath st with
    | None => raise OSError
    | Some text => os_call (write_text h filepath (rewrite_manifest_text text))
    end.

(** [try: p.unlink() except: pass] *)
Definition unlink_quietly (p : path) : M unit :=
  try_except (os_call (unlink h p)) any_exn (ret tt).

(** One turn of the loop of [delete_files]. *)
Definition delete_entry (line : string) : M unit :=
  let target := Path_of h (strip line) in
  st <- get_fs ;;
  if negb (exists_ h target st) then ret tt
  else
    put_fs (make_writable_recursive h target st) ;;;
    try_except
      (st <- get_fs ;;
       if is_file h target st then
         os_call (unlink h target) ;;; log INFO (Deleted_file target)
       else if is_dir h target st then
         put_fs (rmtree_ignore h target st) ;;;
         log INFO (Deleted_directory_tree target)
       else ret tt)
      is_Exception
      (log WARNING (Failed_to_delete target)).

Definition delete_txt : path := ["deletefiles.txt"].

Definition delete_files : M unit :=
  st <- get_fs ;;
  if negb (exists_ h delete_txt st) then ret tt
  else
    replace_text_in_file delete_txt ;;;
    st <- get_fs ;;
    match read_text h delete_txt st with
    | None => raise OSError
    | Some text =>
        for_each delete_entry (splitlines text) ;;;
        unlink_quietly delete_txt
    end.

(** One turn of the loop of [apply_hdiff]; [patched] is the local
    variable of that name. *)
Definition hdiff_entry (line : string) (patched : bool) : M bool :=
  let target := strip line in
  if String.eqb target "" then ret patched
  else
    let original_file := Path_of h target in
    let hdiff := Path_of h (target ++ ".hdiff") in
    st <- get_fs ;;
    if negb (exists_ h hdiff st) then ret patched
    else
      put_fs (ensure_writable h original_file st) ;;;
      st <- get_fs ;;
      emit (ExecHpatchz target) ;;;
      match run_hpatchz target st with
      | (st', Exit0) =>
          put_fs st' ;;;
          unlink_quietly hdiff ;;;
          log INFO (Patched target) ;;;
          ret true
      | (st', ExitNonZero) =>
          put_fs st' ;;;
          log ERROR (Hpatchz_failed target) ;;;
          raise CalledProcessError
      | (st', SpawnFailed) => put_fs st' ;;; raise OSError
      end.

Definition hdifffiles_txt : path := ["hdifffiles.txt"].

Definition apply_hdiff : M bool :=
  st <- get_fs ;;
  if negb (exists_ h hdifffiles_txt st) then ret false
  else
    replace_text_in_file hdifffiles_txt ;;;
    st <- get_fs ;;
    match read_text h hdifffiles_txt st with
    | None => raise OSError
    | Some text =>
        patched <- for_fold hdiff_entry (splitlines text) false ;;
        unlink_quietly hdifffiles_txt ;;;
        ret patched
    end.

Definition extract_with_7z (archive : string) : M unit :=
  st <- get_fs ;;
  emit (Exec7z archive) ;;;
  match run_7z archive st with
  | (st', Exit0) => put_fs st'
  | (st', ExitNonZero) => put_fs st' ;;; raise CalledProcessError
  | (st', SpawnFailed) => put_fs st' ;;; raise OSError
  end.

(** The names of the regular files of the working directory. *)
Definition cwd_file_names (st : store) : list string :=
  filter (fun n => is_file h [n] st) (cwd_names st).

Definition get_multipart_first_parts (st : store) : list string :=
  sorted (filter is_multipart_first (cwd_file_names st)).

(** [None] is the [ValueError] of the glob. *)
Definition collect_parts_for_first (first : string) (st : store)
  : option (list string) :=
  let name := first in
  let lower := lower name in
  match search re_first_prefix lower with
  | Some m =>
      match group lower m 1 with
      | Some prefix => option_map sorted (path_glob_cwd h (prefix ++ ".*") st)
      | None => Some [first]
      end
  | None =>
      if endswith ".part1.rar" lower then
        let prefix := drop_last (String.length ".part1.rar") name in
        option_map sorted (path_glob_cwd h (prefix ++ ".part*.rar") st)
      else Some [first]
  end.

Definition migrate_audio_if_needed (game_folder : path)
    (version_from version_to : option string) : M bool :=
  match version_to with
  | None => ret false
  | Some v =>
      match map py_int (split_on "." v) with
      | [Some major; Some minor; Some _] =>
          if pair_ltb (major, minor) (3, 6)%N then ret false
          else
            let old := (game_folder ++ ["StreamingAssets"; "Audio";
                                        "GeneratedSoundBanks"; "Windows"])%list in
            st <- get_fs ;;
            if negb (exists_ h old st) then ret false
            else
              match relocate_audio game_folder st with
              | (st', None) =>
                  put_fs st' ;;; log INFO Audio_migration_completed ;;; ret true
              | (st', Some e) => put_fs st' ;;; raise e
              end
      | _ => ret false
      end
  end.

Definition process_logical_archive (archive_name : string)
    (game_folder : path) : M bool :=
  let versions := parse_from_to_versions_from_name archive_name in
  (if needs_migration archive_name then
     migrated <- migrate_audio_if_needed game_folder
                   (option_map fst versions) (option_map snd versions) ;;
     if negb migrated then log WARNING Migration_did_not_complete else ret tt
   else delete_files) ;;;
  applied <- apply_hdiff ;;
  ret (if applied then true else false).

(** [extract_multipart_and_process] up to the call that ends it. *)
Definition extract_multipart_and_unlink (first : string) : M unit :=
  try_except
    (log INFO (Processing_multipart_archive first) ;;; extract_with_7z first)
    is_Exception
    (log WARNING (Failed_to_extract_multipart first)) ;;;
  st <- get_fs ;;
  match collect_parts_for_first first st with
  | Some parts => for_each (fun p => unlink_quietly [p]) parts
  | None => raise ValueError
  end.

Definition extract_multipart_and_process (first : string)
    (game_folder : path) : M bool :=
  let logical := logical_name_from_first first in
  extract_multipart_and_unlink first ;;;
  process_logical_archive logical game_folder.

Definition extract_all_multipart_and_process (game_folder : path) : M bool :=
  st <- get_fs ;;
  for_fold (fun first patched_any =>
      try_except
        (b <- extract_multipart_and_process first game_folder ;;
         ret (if b then true else patched_any))
        is_Exception
        (log WARNING (Error_processing_multipart first) ;;; ret patched_any))
    (get_multipart_first_parts st) false.

Definition extract_single_archive (archive : string) : M unit :=
  try_except
    (log INFO (Processing_archive archive) ;;; extract_with_7z archive)
    is_Exception
    (log WARNING (Failed_to_extract archive)) ;;;
  unlink_quietly (Path_of h archive).

Definition path_ltb (p q : path) : bool :=
  (fix lt (p q : path) : bool :=
     match p, q with
     | _, [] => false
     | [], _ :: _ => true
     | a :: p', b :: q' =>
         String.ltb (normcase h a) (normcase h b)
         || (name_eqb h a b && lt p' q')
     end) p q.

Fixpoint insert_path (x : path) (l : list path) : list path :=
  match l with
  | [] => [x]
  | y :: l' => if path_ltb x y then x :: l else y :: insert_path x l'
  end.

Definition sorted_paths (l : list path) : list path :=
  fold_right insert_path [] l.

(** One pass of the loop of [cleanup_empty_dirs]: the new store and the
    flag [removed]. *)
Definition rmdir_pass (game_folder : path) (st : store) : store * bool :=
  fold_left (fun acc p =>
      if is_dir h p (fst acc) then
        match rmdir h p (fst acc) with
        | Some st' => (st', true)
        | None => acc
        end
      else acc)
    (rev (sorted_paths (rglob_all h game_folder st))) (st, false).

(** [while True]: the passes repeat until one removes nothing; [fuel]
    bounds their number. *)
Fixpoint cleanup_loop (fuel : nat) (game_folder : path) (st : store) : store :=
  match fuel with
  | O => st
  | S fuel' =>
      let (st', removed) := rmdir_pass game_folder st in
      if removed then cleanup_loop fuel' game_folder st' else st'
  end.

(** Every pass but the last removes an entry, so one pass more than
    there are entries is enough (see [cleanup_loop_settles]). *)
Definition cleanup_empty_dirs (game_folder : path) : M unit :=
  st <- get_fs ;;
  put_fs (cleanup_loop (S (List.length st)) game_folder st).

Definition config_ini (game_version : string) : string :=
  concat (String "010" "")
    ["[General]"; "channel=1"; "cps=hoyoverse";
     "game_version=" ++ game_version; "sub_channel=0"; ""].

(** [GAME_VERSION] is the argument. *)
Definition write_config_ini (game_version : option string) : M unit :=
  match game_version with
  | None => ret tt
  | Some v => os_call (write_text h ["config.ini"] (config_ini v))
  end.

Definition aux_patterns : list string :=
  ["*.py"; "*.bat"; "*.zip"; "*.zip.*"; "*.zip.001"; "*.zip.002";
   "*.rar"; "*.rar.*"; "*.rar.001"; "*.rar.002";
   "*.part1.rar"; "*.part2.rar"; "*.part*.rar";
   "*.7z"; "*.7z.*"; "*.7z.001"; "*.7z.002";
   "hpatchz.exe"; "hdiffz.exe"; "7z.exe";
   "version.dll"; "*.dmp"; "*.bak"; "*.txt"; "*.log"].

Definition aux_targets : list string :=
  ["SDKCaches"; "webCaches"; "kr_game_cache"; "launcherDownload";
   ".quality"; "quality"; "CrashSightLog"; "pipe_client";
   "TQM64"; "wesight"].

Definition cleanup_aux_files (game_folder : path) : M unit :=
  for_each (fun pat =>
      st <- get_fs ;;
      for_each unlink_quietly (rglob_pat h [] pat st))
    aux_patterns ;;;
  for_each (fun target =>
      st <- get_fs ;;
      for_each (fun found =>
          st' <- get_fs ;;
          if is_dir h found st' then
            put_fs (rmtree_ignore h found st') ;;;
            log INFO (Deleted_directory_tree_flex found)
          else ret tt)
        (rglob_pat h game_folder target st))
    aux_targets.

(** The single-part archives that [main] enumerates. *)
Definition single_archives (st : store) : list string :=
  filter (fun name => negb (is_part_file_name name))
    (sorted (glob_cwd h "*.zip" st ++ glob_cwd h "*.7z" st
             ++ glob_cwd h "*.rar" st)%list).

Definition main : M unit :=
  game_folder <- detect_game_folder ;;
  check_tools ;;;
  multi <- extract_all_multipart_and_process game_folder ;;
  st <- get_fs ;;
  patch_done <- for_fold (fun archive_name patch_done =>
      extract_single_archive archive_name ;;;
      b <- process_logical_archive archive_name game_folder ;;
      ret (if b then true else patch_done))
    (single_archives st) (if multi then true else false) ;;
  (if patch_done then
     game_version <- detect_game_version_after_patch game_folder ;;
     (match game_version with
      | Some v => if truthy v then write_config_ini game_version else ret tt
      | None => ret tt
      end) ;;;
     cleanup_aux_files game_folder
   else ret tt) ;;;
  cleanup_empty_dirs game_folder ;;;
  log INFO Patching_finished.

End Pipeline.

(** ** Vocabulary for manifests *)

(** Every slash replaced by a backslash. *)
Fixpoint to_backslashes (s : string) : string :=
  match s with
  | EmptyString => EmptyString
  | String c s' =>
      String (if Ascii.eqb c "/" then "\"%char else c) (to_backslashes s')
  end.

(** A manifest line for the path [P], in the JSON wrapper or bare. *)
Definition manifest_line (l : bool * string) : string :=
  if fst l then wrapper_open ++ snd l ++ wrapper_close else snd l.

(** A path without a quote and without an opening brace. *)
Definition plain_path (P : string) : bool :=
  negb (mem_char dquote P) && negb (mem_char "{" P).

Definition newline : string := String "010" EmptyString.

(** Modelled from the spec: the normalization as section 4.4 words it,
    the wrapper stripped and every forward slash rewritten to the path
    separator of the host. *)
Definition spec_rewrite_manifest_text (h : platform) (text : string) : string :=
  replace "/" (String (os_sep h) EmptyString)
    (replace wrapper_close "" (replace wrapper_open "" text)).

(** A manifest line after the opening of the wrapper is gone. *)
Definition half_stripped (l : bool * string) : string :=
  if fst l then snd l ++ wrapper_close else snd l.

(** ** Vocabulary for stores *)

(** [st'] holds only entries of [st], with the same path, kind, lock and
    seal, possibly made writable. *)
Definition shrinks (st st' : store) : Prop :=
  forall e', In e' st' -> exists e, In e st /\ (e' = e \/ e' = set_writable e).

(** The removal of [e] is refused even after [chmod] was tried on it:
    the entry is locked or, on Windows, read-only and sealed. *)
Definition resists (h : platform) (e : entry) : bool :=
  undeletable h (try_writable e).

Definition none_resists (h : platform) (st : store) : bool :=
  forallb (fun d => negb (resists h d)) st.

(** The lines that the manifest loops run over, from the content of the
    manifest file. *)
Definition manifest_lines (c : string) : list string :=
  splitlines (universal_newlines (rewrite_manifest_text (universal_newlines c))).

(** The entry [e'] after a text is written to [p]. *)
Definition with_text (h : platform) (p : path) (text : string) (e' : entry) : entry :=
  if path_eqb h (e_path e') p
  then mkEntry (e_path e') (KFile text) (e_readonly e') (e_locked e') (e_sealed e')
  else e'.

(** An entry that resists lies at or below [q]. *)
Definition resists_below (h : platform) (st : store) (q : path) : bool :=
  existsb (fun d => is_prefix h q (e_path d) && resists h d) st.

(** A name that the system takes as it is written: not [..] and, on
    Windows, without a colon and without a dot or a space at its end. *)
Definition plain_name (h : platform) (c : string) : bool :=
  negb (String.eqb c "..")
  && match h with
     | Windows =>
         negb (mem_char ":" c) && negb (endswith "." c)
         && negb (endswith " " c)
     | Posix => true
     end.

(** The text of a path that stays inside the tree of the working
    directory: it starts with no separator, and every component is a
    plain name. *)
Definition confined (h : platform) (s : string) : bool :=
  match s with
  | String c _ => negb (is_sep h c)
  | EmptyString => true
  end
  && forallb (plain_name h) (Path_of h s).

(** ** What a match is

    [Match r pos s1 s2 g g']: the pattern [r] matches the text [s1] that
    starts at offset [pos] of the subject and is followed by [s2], and
    the groups recorded go from [g] to [g']. *)

Fixpoint all_cc (cc : cclass) (s : string) : bool :=
  match s with
  | EmptyString => true
  | String c s' => cc_ok cc c && all_cc cc s'
  end.

Fixpoint Match (r : regex) (pos : nat) (s1 s2 : string) (g g' : groups)
  : Prop :=
  match r with
  | REps => s1 = EmptyString /\ g' = g
  | RC cc => (exists c, s1 = String c EmptyString /\ cc_ok cc c = true) /\ g' = g
  | RSeq r1 r2 =>
      exists a b g1, s1 = a ++ b /\ Match r1 pos a (b ++ s2) g g1
                     /\ Match r2 (pos + String.length a) b s2 g1 g'
  | RAlt r1 r2 => Match r1 pos s1 s2 g g' \/ Match r2 pos s1 s2 g g'
  | RStar cc => all_cc cc s1 = true /\ g' = g
  | RPlus cc => (s1 <> EmptyString /\ all_cc cc s1 = true) /\ g' = g
  | ROpt r1 => (s1 = EmptyString /\ g' = g) \/ Match r1 pos s1 s2 g g'
  | RGrp n r1 =>
      exists g1, Match r1 pos s1 s2 g g1
                 /\ g' = (n, (pos, pos + String.length s1)) :: g1
  | RBol => (s1 = EmptyString /\ pos = 0) /\ g' = g
  | REol => (s1 = EmptyString /\ at_eol s2 = true) /\ g' = g
  end.

(** A continuation that accepts whatever the groups are. *)
Definition succeeds (k : kont) (pos : nat) (s : string) : Prop :=
  forall g, k pos s g <> None.

(** The last character of a text. *)
Fixpoint last_char (s : string) : option ascii :=
  match s with
  | EmptyString => None
  | String c EmptyString => Some c
  | String _ s' => last_char s'
  end.

(** ** Vocabulary for part names *)

Definition is_ext (ext : string) : bool :=
  String.eqb ext "7z" || String.eqb ext "zip" || String.eqb ext "rar".

Definition all_zeros (s : string) : bool := all_cc (CChr "0") s.

(** Lexicographic order on names, as [sorted] leaves them. *)
Definition name_le (a b : string) : Prop := String.ltb b a = false.

(** No wildcard of [fnmatch] occurs in [s]. *)
Definition is_meta (c : ascii) : bool :=
  Ascii.eqb c "*" || Ascii.eqb c "?" || Ascii.eqb c "[".

Fixpoint no_meta (s : string) : bool :=
  match s with
  | EmptyString => true
  | String c s' => negb (is_meta c) && no_meta s'
  end.

(** The tokens of a literal word. *)
Fixpoint lits (w : string) : list gtok :=
  match w with
  | EmptyString => []
  | String c w' => GLit c :: lits w'
  end.

(** The state after [try: p.unlink() except: pass] on the name [p] of
    the working directory. *)
Definition unlink_step (h : platform) (s : state) (p : string) : state :=
  fst (unlink_quietly h [p] s).

(** ** Vocabulary for traces *)

(** The names of the patterns for parts: [*.{7z,zip,rar}.0*N] and
    [*.partN.rar], whatever the case of the letters. *)
Definition numbered_part_name (n : string) : Prop :=
  exists u ext zs ds,
    lower n = u ++ "." ++ ext ++ "." ++ zs ++ ds
    /\ is_ext ext = true /\ all_zeros zs = true /\ numeric ds = true.

Definition rar_part_name (n : string) : Prop :=
  exists u ds, lower n = u ++ ".part" ++ ds ++ ".rar" /\ numeric ds = true.

(** The archiver runs only on first parts and on names that are no part
    names, and only the latter are processed as standalone archives. *)
Definition event_ok (e : event) : bool :=
  match e with
  | Exec7z a => negb (is_part_file_name a) || is_multipart_first a
  | Log _ (Processing_archive a) => negb (is_part_file_name a)
  | _ => true
  end.

Definition trace_ok (tr : list event) : Prop :=
  Forall (fun e => event_ok e = true) tr.

(** A computation that adds only such events to the trace. *)
Definition keeps {A} (m : M A) : Prop :=
  forall s, trace_ok (trace s) -> trace_ok (trace (fst (m s))).

(** ** Vocabulary for reruns *)

(** A name that the drivers would take up: a first part, or a name that
    one of the three globs of [main] matches. *)
Definition archive_like (h : platform) (n : string) : bool :=
  is_multipart_first n || fnmatch h n "*.zip" || fnmatch h n "*.7z"
  || fnmatch h n "*.rar".

Definition no_archives (h : platform) (st : store) : bool :=
  forallb (fun n => negb (archive_like h n)) (cwd_names st).

(** One turn of a pass of [cleanup_empty_dirs], on the store and the
    flag [removed]. *)
Definition pass_step (h : platform) (acc : store * bool) (p : path)
  : store * bool :=
  if is_dir h p (fst acc) then
    match rmdir h p (fst acc) with
    | Some st' => (st', true)
    | None => acc
    end
  else acc.

(** How a pass relates what it finds to what it leaves: nothing new, and
    either no change or the flag set and fewer entries. *)
Definition pass_rel (acc r : store * bool) : Prop :=
  incl (fst r) (fst acc)
  /\ (r = acc \/ (snd r = true /\ List.length (fst r) < List.length (fst acc))).

(** ** The installed version

    [detect_game_version_after_patch] reads up to three files of the
    game folder, in a fixed order; the first in which a version is found
    gives the result.  This is the reader that the pipeline above takes
    as [installed_version]; the JSON reader is a function of the text. *)

Section InstalledVersion.

Variable h : platform.

(** [json.loads(text).get("variance", "")]; [None] when evaluating it,
    or searching its value, raises. *)
Variable variance : string -> option string.

(** [(\d+\.\d+(?:\.\d+)?)] *)
Definition re_version_group : regex := RGrp 1 re_version.

(** [re.search] of that pattern in [data] and, on a match,
    [normalize_version(match.group(1))]. *)
Definition version_in (data : string) : option string :=
  match search re_version_group data with
  | Some m =>
      match group data m 1 with
      | Some v => Some (normalize_version v)
      | None => None
      end
  | None => None
  end.

Definition settings_json (game_folder : path) : path :=
  (game_folder ++ ["StreamingAssets"; "asb_settings.json"])%list.

Definition bin_ver (game_folder : path) : path :=
  (game_folder ++ ["StreamingAssets"; "BinaryVersion.bytes"])%list.

Definition version_info (game_folder : path) : path :=
  (game_folder ++ ["version_info"])%list.

(** [if p.exists(): try: ... except: pass], for the text [p] holds. *)
Definition probe (p : path) (extract : string -> option string) (st : store)
  : option string :=
  if exists_ h p st then
    match read_text h p st with
    | Some data => extract data
    | None => None
    end
  else None.

(** The version that [detect_game_version_after_patch] returns, [None]
    when it returns [None]. *)
Definition installed_version_after_patch (game_folder : path) (st : store)
  : option string :=
  match probe (settings_json game_folder)
          (fun text => match variance text with
                       | Some v => version_in v
                       | None => None
                       end) st with
  | Some v => Some v
  | None =>
      match probe (bin_ver game_folder) version_in st with
      | Some v => Some v
      | None => probe (version_info game_folder) version_in st
      end
  end.

End InstalledVersion.

(** ** Vocabulary for versions *)

(** Three digit runs joined by dots. *)
Definition three_numeric (v : string) : Prop :=
  exists a b c, v = a ++ "." ++ b ++ "." ++ c
                /\ numeric a = true /\ numeric b = true /\ numeric c = true.

(** ** Vocabulary for what a step leaves alone *)

(** [q] lies at or below none of the [targets]. *)
Definition outside (h : platform) (targets : list path) (q : path) : bool :=
  forallb (fun t => negb (is_prefix h t q)) targets.

(** The entries that [make_writable_recursive] on [p] makes writable:
    those at or below a directory, or the file itself. *)
Definition reached (h : platform) (p : path) (st : store) (e : entry) : bool :=
  if is_dir h p st then is_prefix h p (e_path e)
  else exists_ h p st && path_eqb h (e_path e) p.

(** The paths that the delete manifest of content [c] names. *)
Definition delete_targets (h : platform) (c : string) : list path :=
  map (fun line => Path_of h (strip line)) (manifest_lines c).

(** ** Vocabulary for what a run adds and raises *)

(** A computation that only adds events to the trace, each in [P]. *)
Definition appends (P : event -> bool) {A} (m : M A) : Prop :=
  forall s, exists new,
    trace (fst (m s)) = (new ++ trace s)%list /\ forallb P new = true.

(** A computation that raises only exceptions in [Q]. *)
Definition raises_only (Q : exn -> bool) {A} (m : M A) : Prop :=
  forall s s' e, m s = (s', Raise e) -> Q e = true.

(** Every event but the finished message. *)
Definition before_finish (e : event) : bool :=
  match e with
  | Log _ Patching_finished => false
  | _ => true
  end.

(** A computation that logs the finished message last, and only when it
    returns. *)
Definition finishes {A} (m : M A) : Prop :=
  forall s, exists new,
    trace (fst (m s)) = (new ++ trace s)%list
    /\ match snd (m s) with
       | Ret _ => exists rest, new = Log INFO Patching_finished :: rest
                               /\ forallb before_finish rest = true
       | Raise _ => forallb before_finish new = true
       end.

(** One turn of the loop of [extract_all_multipart_and_process], on the
    state and the flag [patched_any]: an [Exception] that the archive
    raises becomes a warning that names it, in the state in which it was
    raised, and the flag stays as it was.  What [except Exception] does
    not catch leaves the loop; no turn follows it, and it is given the
    state in which it was raised. *)
Definition multipart_turn (h : platform)
    (run_7z run_hpatchz : string -> store -> store * proc)
    (relocate_audio : path -> store -> store * option exn)
    (game_folder : path) (acc : state * bool) (first : string)
  : state * bool :=
  match extract_multipart_and_process h run_7z run_hpatchz relocate_audio
          first game_folder (fst acc) with
  | (s1, Ret b) => (s1, if b then true else snd acc)
  | (s1, Raise e) =>
      if is_Exception e then
        (mkState (fs s1)
           (Log WARNING (Error_processing_multipart first) :: trace s1),
         snd acc)
      else (s1, snd acc)
  end.

(** ** Vocabulary for the cleanup *)

(** The name of [q] matches none of the patterns that [cleanup_aux_files]
    unlinks, and no directory at or above [q] and strictly below the
    game folder bears one of the names whose trees it removes. *)
Definition kept_by_cleanup (h : platform) (game_folder q : path) : Prop :=
  (forall pat, In pat aux_patterns -> fnmatch h (path_name q) pat = false)
  /\ (forall found target,
        In target aux_targets -> is_prefix h found q = true ->
        strictly_under h game_folder found = true ->
        fnmatch h (path_name found) target = false).

(** ** Vocabulary for strings *)

(** The number of occurrences of [c] in [s]. *)
Fixpoint count_char (c : ascii) (s : string) : nat :=
  match s with
  | EmptyString => 0
  | String a s' => (if Ascii.eqb a c then 1 else 0) + count_char c s'
  end.

(** * Properties *)

(** ** Facts on the string primitives *)

Lemma all_digits_no_dot s : all_digits s = true -> mem_char "." s = false.
Proof.
  induction s as [|c s IH]; simpl; [reflexivity|].
  intros H. apply andb_true_iff in H as [Hc Hs].
  rewrite (IH Hs), orb_false_r.
  destruct (Ascii.eqb c ".") eqn:E; [|reflexivity].
  apply Ascii.eqb_eq in E. subst c. discriminate Hc.
Qed.

Lemma numeric_no_dot s : numeric s = true -> mem_char "." s = false.
Proof.
  unfold numeric. intros H. apply andb_true_iff in H as [_ H].
  now apply all_digits_no_dot.
Qed.

Lemma split_on_nonempty sep s : split_on sep s <> [].
Proof.
  destruct s as [|c s]; simpl; [discriminate|].
  destruct (Ascii.eqb c sep); [discriminate|].
  destruct (split_on sep s); discriminate.
Qed.

Lemma split_on_no_sep sep s :
  mem_char sep s = false -> split_on sep s = [s].
Proof.
  induction s as [|c s IH]; simpl; [reflexivity|].
  intros H. apply orb_false_iff in H as [Hc Hs].
  rewrite Hc, (IH Hs). reflexivity.
Qed.

Lemma split_on_app sep a b :
  mem_char sep a = false ->
  split_on sep (a ++ String sep b) = a :: split_on sep b.
Proof.
  induction a as [|c a IH]; simpl.
  - intros _. now rewrite Ascii.eqb_refl.
  - intros H. apply orb_false_iff in H as [Hc Ha].
    rewrite Hc, (IH Ha). reflexivity.
Qed.

(** ** C8 *)

(** C8: for a two-component version string "X.Y" with X and Y numeric,
    [normalize_version] returns "X.Y.0"; for a three-component version
    string "X.Y.Z" it returns its argument unchanged. *)
Theorem normalize_version_components X Y Z :
  numeric X = true -> numeric Y = true -> numeric Z = true ->
  normalize_version (X ++ "." ++ Y) = X ++ "." ++ Y ++ ".0" /\
  normalize_version (X ++ "." ++ Y ++ "." ++ Z) = X ++ "." ++ Y ++ "." ++ Z.
Proof.
  intros HX HY HZ. unfold normalize_version. simpl. split.
  - rewrite (split_on_app _ _ _ (numeric_no_dot _ HX)).
    rewrite (split_on_no_sep _ _ (numeric_no_dot _ HY)). reflexivity.
  - rewrite (split_on_app _ _ _ (numeric_no_dot _ HX)).
    rewrite (split_on_app _ _ _ (numeric_no_dot _ HY)).
    rewrite (split_on_no_sep _ _ (numeric_no_dot _ HZ)). reflexivity.
Qed.

Lemma normalize_version_components_witness :
  normalize_version "3.6" = "3.6.0" /\
  normalize_version "3.6.12" = "3.6.12".
Proof.
  apply (normalize_version_components "3" "6" "12"); reflexivity.
Defined.


Example parse_ex1 :
  parse_from_to_versions_from_name "Game_3.5.0_3.6.0.zip" = Some ("3.5.0", "3.6.0").
Proof. reflexivity. Qed.

Example parse_ex2 :
  parse_from_to_versions_from_name "game_3.5_3.6.7z" = Some ("3.5.0", "3.6.7").
Proof. reflexivity. Qed.

Example parse_ex3 :
  parse_from_to_versions_from_name "audio_en-us_2.8.0_3.6.0_hdiff.zip"
  = Some ("2.8.0", "3.6.0").
Proof. reflexivity. Qed.

Example needs_ex1 : needs_migration "Game_3.5.0_3.6.0.zip" = true.
Proof. reflexivity. Qed.

Example needs_ex2 : needs_migration "x_1.0_2.0_3.5_3.6.zip" = false.
Proof. reflexivity. Qed.

(** ** The matcher on runs of a class *)





Lemma numeric_inv A :
  numeric A = true ->
  exists c A', A = String c A' /\ is_digit c = true /\ all_digits A' = true.
Proof.
  destruct A as [|c A']; [discriminate|].
  unfold numeric. simpl. intros H. apply andb_true_iff in H as [Hc HA].
  now exists c, A'.
Qed.







Lemma length_append a b : String.length (a ++ b) = String.length a + String.length b.
Proof. induction a; simpl; [reflexivity|now rewrite IHa]. Qed.






Lemma substring_prefix a b : substring 0 (String.length a) (a ++ b) = a.
Proof.
  induction a as [|c a IH]; simpl.
  - now destruct b.
  - now rewrite IH.
Qed.

Lemma substring_skip a n m b :
  substring (String.length a + n) m (a ++ b) = substring n m b.
Proof. induction a as [|c a IH]; simpl; [reflexivity|apply IH]. Qed.

Lemma py_int_numeric A : numeric A = true -> py_int A = Some (int_acc 0 A).
Proof. unfold py_int. now intros ->. Qed.

Lemma append_empty_r s : s ++ "" = s.
Proof. induction s; simpl; [reflexivity|now rewrite IHs]. Qed.

Lemma split_three A B Z :
  numeric A = true -> numeric B = true -> numeric Z = true ->
  split_on "." (A ++ "." ++ B ++ "." ++ Z) = [A; B; Z].
Proof.
  intros HA HB HZ. cbn [append].
  rewrite (split_on_app _ _ _ (numeric_no_dot _ HA)).
  rewrite (split_on_app _ _ _ (numeric_no_dot _ HB)).
  now rewrite (split_on_no_sep _ _ (numeric_no_dot _ HZ)).
Qed.

Lemma split_two A B :
  numeric A = true -> numeric B = true ->
  split_on "." (A ++ "." ++ B) = [A; B].
Proof.
  intros HA HB. cbn [append].
  rewrite (split_on_app _ _ _ (numeric_no_dot _ HA)).
  now rewrite (split_on_no_sep _ _ (numeric_no_dot _ HB)).
Qed.


Lemma search_from_hit r pos s m :
  rmatch r pos s [] accept = Some m -> search_from r pos s = Some m.
Proof. intros H. destruct s; simpl; now rewrite H. Qed.

Lemma append_assoc a b c : (a ++ b) ++ c = a ++ b ++ c.
Proof. induction a; simpl; [reflexivity|now rewrite IHa]. Qed.

Lemma substring_at a v b :
  substring (String.length a) (String.length v) (a ++ v ++ b) = v.
Proof.
  rewrite <- (Nat.add_0_r (String.length a)), substring_skip.
  apply substring_prefix.
Qed.



(** ** C6: manifest normalization *)

Lemma prefix_app a t : prefix a (a ++ t) = true.
Proof.
  induction a as [|c a IH]; simpl; [now destruct t|].
  destruct (ascii_dec c c); [assumption|congruence].
Qed.

Lemma prefix_head_neq c d old s :
  c <> d -> prefix (String d old) (String c s) = false.
Proof. intros H. simpl. destruct (ascii_dec d c); [congruence|reflexivity]. Qed.

Lemma replace_from_skip old new u t :
  replace_from old new (String.length u) (u ++ t) = replace_from old new 0 t.
Proof.
  induction u as [|c u IH]; simpl.
  - now destruct t.
  - apply IH.
Qed.

Lemma replace_occurrence d old new t :
  replace (String d old) new (String d old ++ t) = new ++ replace (String d old) new t.
Proof.
  unfold replace. cbn [append replace_from].
  change (String d (old ++ t)) with (String d old ++ t).
  rewrite prefix_app.
  replace (String.length (String d old) - 1) with (String.length old)
    by (simpl; lia).
  now rewrite replace_from_skip.
Qed.

Lemma replace_no_head d old new P t :
  mem_char d P = false ->
  replace (String d old) new (P ++ t) = P ++ replace (String d old) new t.
Proof.
  unfold replace. induction P as [|c P IH]; intros H; [reflexivity|].
  simpl in H. apply orb_false_iff in H as [Hc HP].
  apply Ascii.eqb_neq in Hc.
  cbn [append replace_from]. rewrite prefix_head_neq by assumption.
  now rewrite IH.
Qed.

Lemma replace_empty old new : replace old new "" = "".
Proof. reflexivity. Qed.

Lemma prefix_single d c s :
  prefix (String d "") (String c s) = Ascii.eqb c d.
Proof.
  cbn [prefix]. destruct (ascii_dec d c) as [->|Hn].
  - rewrite Ascii.eqb_refl. now destruct s.
  - symmetry. apply Ascii.eqb_neq. congruence.
Qed.

Lemma replace_slash s : replace "/" "\" s = to_backslashes s.
Proof.
  unfold replace. induction s as [|c s IH]; [reflexivity|].
  cbn [replace_from to_backslashes]. rewrite prefix_single.
  destruct (Ascii.eqb c "/"); cbn [String.length Nat.sub append]; now rewrite IH.
Qed.

Lemma to_backslashes_app a b :
  to_backslashes (a ++ b) = to_backslashes a ++ to_backslashes b.
Proof. induction a as [|c a IH]; simpl; [reflexivity|now rewrite IH]. Qed.

Lemma to_backslashes_no_slash s : mem_char "/" (to_backslashes s) = false.
Proof.
  induction s as [|c s IH]; [reflexivity|]. cbn [to_backslashes mem_char].
  rewrite IH, orb_false_r. destruct (Ascii.eqb_spec c "/"); [reflexivity|].
  now apply Ascii.eqb_neq.
Qed.

(** A function that rewrites each line and keeps the line feeds rewrites
    a joined text line by line. *)
Lemma concat_lines_hom {X} (F : string -> string) (G G' : X -> string) ls :
  F "" = "" ->
  (forall t, F (newline ++ t) = newline ++ F t) ->
  Forall (fun x => forall t, F (G x ++ t) = G' x ++ F t) ls ->
  F (concat newline (map G ls)) = concat newline (map G' ls).
Proof.
  intros He Hn Hl. induction Hl as [|x ls Hx Hls IH]; [exact He|].
  destruct ls as [|y ls].
  - cbn [map concat]. rewrite <- (append_empty_r (G x)), Hx, He.
    now rewrite !append_empty_r.
  - change (concat newline (map G (x :: y :: ls)))
      with (G x ++ newline ++ concat newline (map G (y :: ls))).
    change (concat newline (map G' (x :: y :: ls)))
      with (G' x ++ newline ++ concat newline (map G' (y :: ls))).
    now rewrite Hx, Hn, IH.
Qed.

Lemma rewrite_manifest_lines ls :
  Forall (fun l => plain_path (snd l) = true) ls ->
  rewrite_manifest_text (concat newline (map manifest_line ls))
  = concat newline (map (fun l => to_backslashes (snd l)) ls).
Proof.
  intros Hls. unfold rewrite_manifest_text. rewrite replace_slash.
  rewrite (concat_lines_hom (replace wrapper_open "") manifest_line half_stripped).
  - rewrite (concat_lines_hom (replace wrapper_close "") half_stripped snd).
    + apply (concat_lines_hom to_backslashes snd
               (fun l => to_backslashes (snd l))); try reflexivity.
      apply Forall_forall. intros x _ t. apply to_backslashes_app.
    + reflexivity.
    + intros t. now apply (replace_no_head dquote "}" "" newline).
    + eapply Forall_impl; [|exact Hls]. intros [w P] HP t. simpl in HP.
      apply andb_true_iff in HP as [Hq _]. apply negb_true_iff in Hq.
      unfold half_stripped. cbn [fst snd]. destruct w.
      * rewrite append_assoc. unfold wrapper_close.
        rewrite replace_no_head by assumption.
        now rewrite replace_occurrence.
      * now apply (replace_no_head dquote).
  - reflexivity.
  - intros t. now apply (replace_no_head "{" _ "" newline).
  - eapply Forall_impl; [|exact Hls]. intros [w P] HP t. simpl in HP.
    apply andb_true_iff in HP as [_ Hb]. apply negb_true_iff in Hb.
    unfold manifest_line, half_stripped. cbn [fst snd]. destruct w.
    + rewrite !append_assoc.
      set (tl := String dquote ("remoteName" ++ String dquote (": " ++ String dquote ""))).
      change wrapper_open with (String "{" tl).
      rewrite (replace_occurrence "{"). cbn [append].
      rewrite (replace_no_head "{") by assumption.
      now rewrite (replace_no_head "{" _ "" wrapper_close).
    + now apply (replace_no_head "{").
Qed.

Section StoreFacts.

Variable h : platform.

Lemma lookup_map_update p (upd : entry -> entry) st :
  (forall e, e_path (upd e) = e_path e) ->
  lookup h p (map upd st) = option_map upd (lookup h p st).
Proof.
  intros Hupd. unfold lookup. induction st as [|e st IH]; [reflexivity|].
  cbn [map find]. rewrite Hupd.
  destruct (path_eqb h (e_path e) p); [reflexivity|exact IH].
Qed.

Lemma lookup_exists p st e : lookup h p st = Some e -> exists_ h p st = true.
Proof.
  intros H. unfold exists_, node_kind. destruct p; [reflexivity|].
  now rewrite H.
Qed.

Lemma lookup_path p st e :
  lookup h p st = Some e -> path_eqb h (e_path e) p = true.
Proof. intros H. now apply find_some in H. Qed.

Lemma read_after_write p st e c text :
  lookup h p st = Some e -> e_kind e = KFile c -> e_readonly e = false ->
  exists st', write_text h p text st = Some st' /\
              read_text h p st' = Some (universal_newlines text).
Proof.
  intros He Hk Hro. unfold write_text. rewrite He, Hk, Hro.
  eexists. split; [reflexivity|]. unfold read_text.
  rewrite lookup_map_update.
  - rewrite He. cbn [option_map]. now rewrite (lookup_path _ _ _ He).
  - intros e'. now destruct (path_eqb h (e_path e') p).
Qed.

Lemma replace_text_in_file_writes p s e c :
  lookup h p (fs s) = Some e -> e_kind e = KFile c -> e_readonly e = false ->
  exists st',
    replace_text_in_file h p s = (mkState st' (trace s), Ret tt) /\
    read_text h p st'
    = Some (universal_newlines (rewrite_manifest_text (universal_newlines c))).
Proof.
  intros He Hk Hro.
  destruct (read_after_write p (fs s) e c
              (rewrite_manifest_text (universal_newlines c)) He Hk Hro)
    as (st' & Hw & Hr).
  exists st'. split; [|exact Hr].
  unfold replace_text_in_file, bind, get_fs, os_call.
  rewrite (lookup_exists _ _ _ He). cbn [negb].
  unfold read_text. rewrite He, Hk. now rewrite Hw.
Qed.

End StoreFacts.

(** C6 (as the code has it): normalization removes the wrapper of every
    line of a manifest whose paths hold no quote and no opening brace and
    rewrites every forward slash to a backslash, on every host;
    [replace_text_in_file] stores that text in a writable manifest, and
    this is the text read back for the entries. *)
Theorem manifest_normalization h ls p s e c :
  Forall (fun l => plain_path (snd l) = true) ls ->
  lookup h p (fs s) = Some e -> e_kind e = KFile c -> e_readonly e = false ->
  rewrite_manifest_text (concat newline (map manifest_line ls))
  = concat newline (map (fun l => to_backslashes (snd l)) ls)
  /\ (forall text, mem_char "/" (rewrite_manifest_text text) = false)
  /\ exists st',
       replace_text_in_file h p s = (mkState st' (trace s), Ret tt) /\
       read_text h p st'
       = Some (universal_newlines (rewrite_manifest_text (universal_newlines c))).
Proof.
  intros Hls He Hk Hro. split; [now apply rewrite_manifest_lines|]. split.
  - intros text. unfold rewrite_manifest_text. rewrite replace_slash.
    apply to_backslashes_no_slash.
  - now apply (replace_text_in_file_writes h p s e c).
Qed.

Lemma manifest_normalization_witness :
  rewrite_manifest_text
    (concat newline
       [wrapper_open ++ "Data/a.bin" ++ wrapper_close; "Data/sub/b.bin"])
  = concat newline ["Data\a.bin"; "Data\sub\b.bin"].
Proof.
  refine (proj1 (manifest_normalization Posix
           [(true, "Data/a.bin"); (false, "Data/sub/b.bin")]
           ["deletefiles.txt"]
           (mkState [mkEntry ["deletefiles.txt"] (KFile "x/y") false false false] [])
           (mkEntry ["deletefiles.txt"] (KFile "x/y") false false false) "x/y"
           _ eq_refl eq_refl eq_refl)).
  repeat constructor.
Defined.

(** C6 as stated fails on a host whose separator is the slash: the
    manifest text is rewritten to backslashes there too. *)
Lemma manifest_separator_not_host :
  rewrite_manifest_text "Data/a.bin"
  <> spec_rewrite_manifest_text Posix "Data/a.bin"
  /\ Path_of Posix (rewrite_manifest_text "Data/a.bin") = ["Data\a.bin"].
Proof. split; [discriminate|reflexivity]. Qed.

(** ** The delete manifest *)

Ltac run_unfold :=
  unfold unlink_quietly, any_exn, try_except, os_call, log, emit, put_fs,
         get_fs, raise, ret, bind.

Section DeleteFacts.
Variable h : platform.

Lemma lower_char_idem c : lower_char (lower_char c) = lower_char c.
Proof.
  destruct c as [[] [] [] [] [] [] [] []]; reflexivity.
Qed.

Lemma name_eqb_refl a : name_eqb h a a = true.
Proof. unfold name_eqb. apply String.eqb_refl. Qed.

Lemma path_eqb_refl p : path_eqb h p p = true.
Proof. induction p; simpl; [reflexivity|]. now rewrite name_eqb_refl. Qed.

Lemma name_eqb_sym a b : name_eqb h a b = name_eqb h b a.
Proof. unfold name_eqb. apply String.eqb_sym. Qed.

Lemma name_eqb_trans a b c :
  name_eqb h a b = true -> name_eqb h b c = true -> name_eqb h a c = true.
Proof.
  unfold name_eqb. rewrite !String.eqb_eq. congruence.
Qed.

Lemma path_eqb_sym p q : path_eqb h p q = path_eqb h q p.
Proof.
  revert q. induction p as [|a p IH]; intros [|b q]; simpl; try reflexivity.
  now rewrite name_eqb_sym, IH.
Qed.

Lemma path_eqb_trans p q r :
  path_eqb h p q = true -> path_eqb h q r = true -> path_eqb h p r = true.
Proof.
  revert q r. induction p as [|a p IH]; intros [|b q] [|c r]; simpl;
    try discriminate; try reflexivity.
  rewrite !andb_true_iff. intros [H1 H2] [H3 H4]. split.
  - eapply name_eqb_trans; eassumption.
  - eapply IH; eassumption.
Qed.

Lemma lookup_remove p st : lookup h p (remove_path h p st) = None.
Proof.
  unfold lookup, remove_path. induction st as [|e st IH]; [reflexivity|].
  cbn [filter]. destruct (path_eqb h (e_path e) p) eqn:E; cbn [negb].
  - exact IH.
  - cbn [find]. now rewrite E.
Qed.

Lemma exists_after_remove p st : p <> [] -> exists_ h p (remove_path h p st) = false.
Proof.
  intros Hp. unfold exists_, node_kind. destruct p; [congruence|].
  now rewrite lookup_remove.
Qed.

Lemma try_writable_path e : e_path (try_writable e) = e_path e.
Proof. unfold try_writable. now destruct (e_sealed e). Qed.

Lemma try_writable_kind e : e_kind (try_writable e) = e_kind e.
Proof. unfold try_writable. now destruct (e_sealed e). Qed.

Lemma lookup_chmod_quietly p q st :
  lookup h p (chmod_quietly h q st)
  = option_map (fun e => if path_eqb h (e_path e) q then try_writable e else e)
      (lookup h p st).
Proof.
  unfold chmod_quietly. apply lookup_map_update.
  intros e. destruct (path_eqb h (e_path e) q); [apply try_writable_path|easy].
Qed.

Lemma is_file_lookup p st :
  is_file h p st = true ->
  p <> [] /\ exists e c, lookup h p st = Some e /\ e_kind e = KFile c.
Proof.
  unfold is_file, node_kind. destruct p as [|a p]; [discriminate|].
  destruct (lookup h (a :: p) st) as [e|]; [|discriminate].
  cbn [option_map]. destruct (e_kind e) as [c|] eqn:E; [|discriminate].
  intros _. split; [discriminate|]. now exists e, c.
Qed.

Lemma is_file_exists p st : is_file h p st = true -> exists_ h p st = true.
Proof.
  unfold is_file, exists_. now destruct (node_kind h p st) as [[]|].
Qed.

Lemma is_dir_exists p st : is_dir h p st = true -> exists_ h p st = true.
Proof.
  unfold is_dir, exists_. now destruct (node_kind h p st) as [[]|].
Qed.

Lemma is_file_not_dir p st : is_file h p st = true -> is_dir h p st = false.
Proof.
  unfold is_file, is_dir. now destruct (node_kind h p st) as [[]|].
Qed.

Lemma node_kind_chmod_quietly p q st :
  node_kind h p (chmod_quietly h q st) = node_kind h p st.
Proof.
  unfold node_kind. destruct p; [reflexivity|].
  rewrite lookup_chmod_quietly. destruct (lookup h (s :: p) st) as [e|]; [|reflexivity].
  cbn [option_map].
  destruct (path_eqb h (e_path e) q); [now rewrite try_writable_kind|easy].
Qed.

Lemma undeletable_set_writable e :
  undeletable h (set_writable e) = e_locked e.
Proof. unfold undeletable. cbn. destruct h; now rewrite orb_false_r. Qed.

Lemma unlink_after_chmod p st e c :
  p <> [] -> lookup h p st = Some e -> e_kind e = KFile c ->
  unlink h p (chmod_quietly h p st)
  = if resists h e then None else Some (remove_path h p (chmod_quietly h p st)).
Proof.
  intros Hp He Hk. unfold unlink. destruct p as [|a p]; [congruence|].
  rewrite lookup_chmod_quietly, He. cbn [option_map].
  rewrite (lookup_path _ _ _ _ He), try_writable_kind, Hk. reflexivity.
Qed.

Lemma delete_entry_skip line s :
  exists_ h (Path_of h (strip line)) (fs s) = false ->
  delete_entry h line s = (s, Ret tt).
Proof.
  intros H. unfold delete_entry. run_unfold. now rewrite H.
Qed.

Lemma delete_entry_file line s e :
  is_file h (Path_of h (strip line)) (fs s) = true ->
  lookup h (Path_of h (strip line)) (fs s) = Some e ->
  delete_entry h line s
  = let target := Path_of h (strip line) in
    if resists h e
    then (mkState (chmod_quietly h target (fs s))
            (Log WARNING (Failed_to_delete target) :: trace s), Ret tt)
    else (mkState (remove_path h target (chmod_quietly h target (fs s)))
            (Log INFO (Deleted_file target) :: trace s), Ret tt).
Proof.
  intros Hf He. set (target := Path_of h (strip line)) in *.
  destruct (is_file_lookup _ _ Hf) as (Hp & e' & c & He' & Hk).
  rewrite He in He'. injection He' as <-.
  unfold delete_entry. fold target. run_unfold.
  rewrite (is_file_exists _ _ Hf). cbn [negb fs trace].
  unfold make_writable_recursive.
  rewrite (is_file_exists _ _ Hf), Hf. cbn [negb].
  unfold is_file at 1. rewrite node_kind_chmod_quietly. fold (is_file h target (fs s)).
  rewrite Hf. cbn [fs trace]. rewrite (unlink_after_chmod _ _ _ _ Hp He Hk).
  now destruct (resists h e).
Qed.

(** *** Prefixes *)

Lemma is_prefix_refl p : is_prefix h p p = true.
Proof. induction p; simpl; [reflexivity|]. now rewrite name_eqb_refl. Qed.

Lemma path_eqb_is_prefix p q : path_eqb h p q = true -> is_prefix h p q = true.
Proof.
  revert q. induction p as [|a p IH]; intros [|b q]; simpl; try easy.
  rewrite !andb_true_iff. intros [H1 H2]. split; [assumption|now apply IH].
Qed.

Lemma is_prefix_trans p q r :
  is_prefix h p q = true -> is_prefix h q r = true -> is_prefix h p r = true.
Proof.
  revert q r. induction p as [|a p IH]; intros [|b q] [|c r]; simpl;
    try discriminate; try reflexivity.
  rewrite !andb_true_iff. intros [H1 H2] [H3 H4]. split.
  - eapply name_eqb_trans; eassumption.
  - eapply IH; eassumption.
Qed.

(** *** What the store operations keep *)

Lemma shrinks_refl st : shrinks st st.
Proof. intros e He. exists e. auto. Qed.

Lemma set_writable_idem e : set_writable (set_writable e) = set_writable e.
Proof. reflexivity. Qed.

Lemma shrinks_trans a b c : shrinks a b -> shrinks b c -> shrinks a c.
Proof.
  intros Hab Hbc e'' H. destruct (Hbc _ H) as (e' & He' & Hc).
  destruct (Hab _ He') as (e & He & Hb). exists e. split; [assumption|].
  destruct Hc as [->| ->], Hb as [->| ->]; auto.
Qed.

Lemma shrinks_filter f st : shrinks st (filter f st).
Proof. intros e H. apply filter_In in H as [H _]. exists e. auto. Qed.

Lemma shrinks_chmod_quietly q st : shrinks st (chmod_quietly h q st).
Proof.
  intros e' H. unfold chmod_quietly in H. apply in_map_iff in H as (e & <- & He).
  exists e. split; [assumption|]. unfold try_writable.
  destruct (path_eqb h (e_path e) q); [destruct (e_sealed e)|]; auto.
Qed.

Lemma shrinks_fold_chmod qs st :
  shrinks st (fold_left (fun st' q => chmod_quietly h q st') qs st).
Proof.
  revert st. induction qs as [|q qs IH]; intros st; [apply shrinks_refl|].
  cbn [fold_left]. eapply shrinks_trans; [apply shrinks_chmod_quietly|apply IH].
Qed.

Lemma shrinks_make_writable p st : shrinks st (make_writable_recursive h p st).
Proof.
  unfold make_writable_recursive.
  destruct (negb (exists_ h p st)); [apply shrinks_refl|].
  destruct (is_file h p st); [apply shrinks_chmod_quietly|].
  eapply shrinks_trans; [apply shrinks_fold_chmod|apply shrinks_chmod_quietly].
Qed.

Lemma shrinks_rmtree p st : shrinks st (rmtree_ignore h p st).
Proof.
  unfold rmtree_ignore. destruct (is_dir h p st);
    [apply shrinks_filter|apply shrinks_refl].
Qed.

Lemma shrinks_remove p st : shrinks st (remove_path h p st).
Proof. apply shrinks_filter. Qed.

Lemma shrinks_nil st' : shrinks [] st' -> st' = [].
Proof.
  intros H. destruct st' as [|e st']; [reflexivity|].
  destruct (H e (or_introl eq_refl)) as (? & [] & _).
Qed.

Lemma resists_set_writable e : resists h (set_writable e) = e_locked e.
Proof.
  unfold resists, try_writable.
  change (e_sealed (set_writable e)) with (e_sealed e).
  change (set_writable (set_writable e)) with (set_writable e).
  destruct (e_sealed e); apply undeletable_set_writable.
Qed.

Lemma resists_locked e : resists h e = false -> e_locked e = false.
Proof.
  unfold resists, try_writable.
  destruct (e_sealed e); [|now rewrite undeletable_set_writable].
  unfold undeletable. now intros H%orb_false_iff.
Qed.

Lemma shrinks_none_resists st st' :
  shrinks st st' -> none_resists h st = true -> none_resists h st' = true.
Proof.
  unfold none_resists. rewrite !forallb_forall. intros Hs H e' He'.
  destruct (Hs _ He') as (e & He & [->| ->]); [now apply H|].
  rewrite resists_set_writable. specialize (H e He).
  apply negb_true_iff in H. now rewrite (resists_locked e H).
Qed.

Lemma node_kind_fold_chmod p qs st :
  node_kind h p (fold_left (fun st' q => chmod_quietly h q st') qs st)
  = node_kind h p st.
Proof.
  revert st. induction qs as [|q qs IH]; intros st; [reflexivity|].
  cbn [fold_left]. now rewrite IH, node_kind_chmod_quietly.
Qed.

Lemma node_kind_make_writable p q st :
  node_kind h p (make_writable_recursive h q st) = node_kind h p st.
Proof.
  unfold make_writable_recursive.
  destruct (negb (exists_ h q st)); [reflexivity|].
  destruct (is_file h q st); [apply node_kind_chmod_quietly|].
  now rewrite node_kind_chmod_quietly, node_kind_fold_chmod.
Qed.

Lemma delete_entry_dir line s :
  is_dir h (Path_of h (strip line)) (fs s) = true ->
  delete_entry h line s
  = let target := Path_of h (strip line) in
    (mkState (rmtree_ignore h target (make_writable_recursive h target (fs s)))
       (Log INFO (Deleted_directory_tree target) :: trace s), Ret tt).
Proof.
  intros Hd. set (target := Path_of h (strip line)) in *.
  unfold delete_entry. fold target. run_unfold.
  rewrite (is_dir_exists _ _ Hd). cbn [negb fs trace].
  unfold is_file, is_dir. rewrite node_kind_make_writable.
  unfold is_dir in Hd. now destruct (node_kind h target (fs s)) as [[]|].
Qed.

Lemma exists_file_or_dir p st :
  exists_ h p st = true -> is_file h p st = true \/ is_dir h p st = true.
Proof.
  unfold exists_, is_file, is_dir. destruct (node_kind h p st) as [[]|]; auto.
Qed.

Lemma is_prefix_eqb_r p q q' :
  path_eqb h q q' = true -> is_prefix h p q = is_prefix h p q'.
Proof.
  intros E. apply eq_true_iff_eq. split; intros H.
  - eapply is_prefix_trans; [exact H|]. now apply path_eqb_is_prefix.
  - eapply is_prefix_trans; [exact H|]. apply path_eqb_is_prefix.
    now rewrite path_eqb_sym.
Qed.

Lemma path_eqb_eqb_r p q q' :
  path_eqb h q q' = true -> path_eqb h p q = path_eqb h p q'.
Proof.
  intros E. apply eq_true_iff_eq. split; intros H.
  - eapply path_eqb_trans; eassumption.
  - eapply path_eqb_trans; [exact H|]. now rewrite path_eqb_sym.
Qed.

Lemma rglob_all_under p st q :
  In q (rglob_all h p st) -> strictly_under h p q = true.
Proof.
  unfold rglob_all. destruct (is_dir h p st); [|easy].
  rewrite in_map_iff. intros (e & <- & He). now apply filter_In in He.
Qed.

Lemma is_dir_not_file p st : is_dir h p st = true -> is_file h p st = false.
Proof.
  unfold is_file, is_dir. now destruct (node_kind h p st) as [[]|].
Qed.

Lemma reached_below p st e :
  reached h p st e = true -> is_prefix h p (e_path e) = true.
Proof.
  unfold reached. destruct (is_dir h p st); [easy|].
  intros H. apply andb_true_iff in H as [_ H].
  rewrite path_eqb_sym in H. now apply path_eqb_is_prefix.
Qed.

(** An entry of the manifest never raises, and leaves a store that
    [shrinks] the one it found. *)
Lemma delete_entry_total line s :
  exists s', delete_entry h line s = (s', Ret tt) /\ shrinks (fs s) (fs s').
Proof.
  destruct (exists_ h (Path_of h (strip line)) (fs s)) eqn:Hex.
  - destruct (exists_file_or_dir _ _ Hex) as [Hf|Hd].
    + destruct (is_file_lookup _ _ Hf) as (_ & e & c & He & _).
      rewrite (delete_entry_file line s e Hf He). cbv zeta.
      destruct (resists h e); eexists; (split; [reflexivity|]); cbn [fs].
      * apply shrinks_chmod_quietly.
      * eapply shrinks_trans; [apply shrinks_chmod_quietly|apply shrinks_remove].
    + rewrite (delete_entry_dir line s Hd). cbv zeta.
      eexists; split; [reflexivity|]. cbn [fs].
      eapply shrinks_trans; [apply shrinks_make_writable|apply shrinks_rmtree].
  - rewrite (delete_entry_skip line s Hex). eexists; split; [reflexivity|].
    apply shrinks_refl.
Qed.

Lemma blocked_mono st p q :
  is_prefix h p q = true -> blocked h st q = true -> blocked h st p = true.
Proof.
  unfold blocked. rewrite !existsb_exists. intros Hpq (d & Hd & H).
  apply andb_true_iff in H as [H1 H2]. exists d. split; [assumption|].
  rewrite H2, andb_true_r. eapply is_prefix_trans; eassumption.
Qed.

Lemma lookup_filter_unblocked q st0 l :
  blocked h st0 q = false ->
  lookup h q (filter (fun e => negb (is_prefix h q (e_path e))
                               || blocked h st0 (e_path e)) l) = None.
Proof.
  intros Hb. unfold lookup. induction l as [|e l IH]; [reflexivity|].
  cbn [filter]. destruct (path_eqb h (e_path e) q) eqn:E.
  - assert (Hpre : is_prefix h q (e_path e) = true).
    { apply path_eqb_is_prefix. now rewrite path_eqb_sym. }
    rewrite Hpre. cbn [negb orb].
    destruct (blocked h st0 (e_path e)) eqn:B; [|exact IH].
    rewrite (blocked_mono _ _ _ Hpre B) in Hb. discriminate.
  - destruct (negb (is_prefix h q (e_path e)) || blocked h st0 (e_path e));
      [|exact IH]. cbn [find]. now rewrite E.
Qed.

Lemma rmtree_gone p st :
  p <> [] -> is_dir h p st = true -> blocked h st p = false ->
  exists_ h p (rmtree_ignore h p st) = false.
Proof.
  intros Hp Hd Hb. unfold rmtree_ignore. rewrite Hd.
  unfold exists_, node_kind. destruct p as [|a p]; [congruence|].
  now rewrite lookup_filter_unblocked.
Qed.

Lemma for_each_never_raises {X} (body : X -> M unit) l s :
  (forall x s', snd (body x s') = Ret tt) ->
  for_each body l s = (fold_left (fun s' x => fst (body x s')) l s, Ret tt).
Proof.
  intros Hb. unfold for_each. revert s.
  induction l as [|x l IH]; intros s; [reflexivity|].
  cbn [for_fold fold_left]. unfold bind at 1.
  specialize (Hb x s). destruct (body x s) as [s' [[]|e]]; [|discriminate].
  apply IH.
Qed.

Lemma unlink_quietly_run p s :
  unlink_quietly h p s
  = (match unlink h p (fs s) with
     | Some st' => mkState st' (trace s)
     | None => s
     end, Ret tt).
Proof. run_unfold. destruct (unlink h p (fs s)); reflexivity. Qed.

Lemma unlink_gone p st st' : unlink h p st = Some st' -> exists_ h p st' = false.
Proof.
  unfold unlink. destruct p as [|a p]; [discriminate|].
  destruct (lookup h (a :: p) st) as [e|]; [|discriminate].
  destruct (e_kind e); [|discriminate].
  destruct (undeletable h e); [discriminate|]. intros [= <-].
  now apply exists_after_remove.
Qed.

Lemma delete_entry_ret line s : snd (delete_entry h line s) = Ret tt.
Proof. destruct (delete_entry_total line s) as (s' & -> & _). reflexivity. Qed.

Lemma write_text_existing p st e c text :
  lookup h p st = Some e -> e_kind e = KFile c -> e_readonly e = false ->
  write_text h p text st = Some (map (with_text h p text) st).
Proof. intros He Hk Hro. unfold write_text. now rewrite He, Hk, Hro. Qed.

Lemma none_resists_with_text p text st :
  none_resists h (map (with_text h p text) st) = none_resists h st.
Proof.
  unfold none_resists. induction st as [|e st IH]; [reflexivity|].
  cbn [map forallb]. rewrite IH. f_equal. unfold with_text.
  destruct (path_eqb h (e_path e) p); [|reflexivity].
  unfold resists, try_writable, undeletable. cbn. now destruct (e_sealed e).
Qed.

Lemma delete_files_run s e c :
  lookup h delete_txt (fs s) = Some e -> e_kind e = KFile c ->
  e_readonly e = false ->
  let s1 := mkState (map (with_text h delete_txt
                            (rewrite_manifest_text (universal_newlines c)))
                       (fs s)) (trace s) in
  replace_text_in_file h delete_txt s = (s1, Ret tt) /\
  delete_files h s
  = unlink_quietly h delete_txt
      (fold_left (fun s' line => fst (delete_entry h line s'))
         (manifest_lines c) s1).
Proof.
  intros He Hk Hro s1.
  destruct (replace_text_in_file_writes h delete_txt s e c He Hk Hro)
    as (st' & Hrep & Hread).
  assert (Hst' : st' = fs s1).
  { unfold replace_text_in_file in Hrep. revert Hrep. run_unfold.
    rewrite (lookup_exists _ _ _ _ He). cbn [negb].
    unfold read_text. rewrite He, Hk.
    rewrite (write_text_existing _ _ _ _ _ He Hk Hro). now intros [= <-]. }
  subst st'. change (mkState (fs s1) (trace s)) with s1 in Hrep.
  split; [exact Hrep|].
  unfold delete_files. unfold bind at 1, get_fs at 1.
  rewrite (lookup_exists _ _ _ _ He). cbn [negb].
  unfold bind at 1. rewrite Hrep. cbv beta iota.
  unfold bind at 1, get_fs at 1. cbv beta iota.
  rewrite Hread. unfold bind at 1.
  rewrite (for_each_never_raises (delete_entry h)) by apply delete_entry_ret.
  reflexivity.
Qed.

End DeleteFacts.

Section DeleteManifest.
Variable h : platform.

Lemma fold_delete_shrinks lines s :
  shrinks (fs s)
    (fs (fold_left (fun s' line => fst (delete_entry h line s')) lines s)).
Proof.
  revert s. induction lines as [|l lines IH]; intros s; [apply shrinks_refl|].
  cbn [fold_left]. destruct (delete_entry_total h l s) as (s' & E & Hs).
  rewrite E. cbn [fst]. eapply shrinks_trans; [exact Hs|apply IH].
Qed.

Lemma try_writable_idem e : try_writable (try_writable e) = try_writable e.
Proof. unfold try_writable. now destruct (e_sealed e) eqn:E; cbn; rewrite ?E. Qed.

Lemma fold_chmod_as_map qs st :
  fold_left (fun st' q => chmod_quietly h q st') qs st
  = map (fun e => if existsb (fun q => path_eqb h (e_path e) q) qs
                  then try_writable e else e) st.
Proof.
  revert st. induction qs as [|q qs IH]; intros st.
  - cbn [fold_left existsb]. now rewrite map_id.
  - cbn [fold_left existsb]. rewrite IH. unfold chmod_quietly. rewrite map_map.
    apply map_ext. intros e.
    destruct (path_eqb h (e_path e) q) eqn:E; cbn [orb].
    + rewrite try_writable_path, try_writable_idem.
      now destruct (existsb _ qs).
    + reflexivity.
Qed.

Lemma make_writable_root st :
  make_writable_recursive h [] st = map try_writable st.
Proof.
  unfold make_writable_recursive. cbn [exists_ node_kind negb is_file].
  rewrite fold_chmod_as_map. unfold chmod_quietly. rewrite map_map.
  apply map_ext_in. intros e He.
  destruct (e_path e) as [|a p] eqn:Ep.
  - destruct (existsb _ _); rewrite ?try_writable_path, Ep; cbn [path_eqb];
      now rewrite ?try_writable_idem.
  - assert (Hin : existsb (fun q => path_eqb h (a :: p) q) (rglob_all h [] st) = true).
    { apply existsb_exists. exists (a :: p). split; [|apply path_eqb_refl].
      unfold rglob_all. cbn [is_dir node_kind]. rewrite <- Ep.
      apply in_map. apply filter_In. split; [assumption|]. now rewrite Ep. }
    rewrite Hin, try_writable_path, Ep. reflexivity.
Qed.

Lemma make_writable_as_map p st :
  make_writable_recursive h p st
  = map (fun e => if reached h p st e then try_writable e else e) st.
Proof.
  unfold make_writable_recursive, reached.
  destruct (exists_ h p st) eqn:Hex; cbn [negb].
  2:{ assert (Hd : is_dir h p st = false).
      { destruct (is_dir h p st) eqn:Hd; [|reflexivity].
        now rewrite (is_dir_exists _ _ _ Hd) in Hex. }
      rewrite Hd. cbn [andb]. now rewrite map_id. }
  destruct (is_file h p st) eqn:Hf.
  - rewrite (is_file_not_dir _ _ _ Hf). reflexivity.
  - assert (Hd : is_dir h p st = true).
    { destruct (exists_file_or_dir _ _ _ Hex); congruence. }
    rewrite Hd, fold_chmod_as_map. unfold chmod_quietly. rewrite map_map.
    apply map_ext_in. intros e He.
    destruct (is_prefix h p (e_path e)) eqn:Hpre.
    + destruct (path_eqb h (e_path e) p) eqn:Heq.
      * destruct (existsb _ _); rewrite ?try_writable_path, Heq;
          now rewrite ?try_writable_idem.
      * assert (Hin : existsb (fun q => path_eqb h (e_path e) q)
                        (rglob_all h p st) = true).
        { apply existsb_exists. exists (e_path e).
          split; [|apply path_eqb_refl]. unfold rglob_all. rewrite Hd.
          apply in_map. apply filter_In. split; [assumption|].
          unfold strictly_under. now rewrite Hpre, path_eqb_sym, Heq. }
        rewrite Hin, try_writable_path. now rewrite Heq.
    + assert (Hin : existsb (fun q => path_eqb h (e_path e) q)
                      (rglob_all h p st) = false).
      { apply not_true_iff_false. rewrite existsb_exists.
        intros (q & Hq & Hqe). apply rglob_all_under in Hq.
        unfold strictly_under in Hq. apply andb_true_iff in Hq as [Hq _].
        rewrite (is_prefix_eqb_r h p _ _ Hqe) in Hpre. congruence. }
      rewrite Hin. destruct (path_eqb h (e_path e) p) eqn:Heq; [|reflexivity].
      rewrite path_eqb_sym in Heq. apply path_eqb_is_prefix in Heq. congruence.
Qed.

(** After [make_writable_recursive] on a directory, what blocks its
    removal is what resists in the store it found. *)
Lemma blocked_make_writable p st :
  is_dir h p st = true ->
  blocked h (make_writable_recursive h p st) p = resists_below h st p.
Proof.
  intros Hd. rewrite make_writable_as_map. unfold blocked, resists_below, reached.
  rewrite Hd. induction st as [|e st IH] in |- *; [reflexivity|].
  cbn [map existsb]. rewrite IH.
  destruct (is_prefix h p (e_path e)) eqn:Hpre.
  - now rewrite try_writable_path, Hpre.
  - now rewrite Hpre.
Qed.

Lemma blocked_writable st q :
  blocked h (map try_writable st) q = resists_below h st q.
Proof.
  unfold blocked, resists_below. induction st as [|e st IH]; [reflexivity|].
  cbn [map existsb]. now rewrite IH, try_writable_path.
Qed.

Lemma Path_of_blank line : strip line = "" -> Path_of h (strip line) = [].
Proof. now intros ->. Qed.

Lemma delete_entry_blank line s :
  strip line = "" ->
  delete_entry h line s
  = (mkState (filter (fun e => resists_below h (fs s) (e_path e))
                (map try_writable (fs s)))
       (Log INFO (Deleted_directory_tree []) :: trace s), Ret tt).
Proof.
  intros Hl. rewrite delete_entry_dir by now rewrite Path_of_blank.
  rewrite Path_of_blank by assumption. cbv zeta.
  rewrite make_writable_root. unfold rmtree_ignore. cbn [is_dir node_kind].
  do 2 f_equal. apply filter_ext. intros e. cbn [is_prefix negb orb].
  apply blocked_writable.
Qed.

Lemma resists_below_none_resists st q :
  none_resists h st = true -> resists_below h st q = false.
Proof.
  unfold none_resists, resists_below. intros H.
  apply not_true_iff_false. rewrite existsb_exists. intros (d & Hd & Hq).
  rewrite forallb_forall in H. specialize (H d Hd).
  apply andb_true_iff in Hq as [_ Hq]. now rewrite Hq in H.
Qed.

Lemma filter_none {A} (f : A -> bool) l :
  (forall x, f x = false) -> filter f l = [].
Proof. intros H. induction l; simpl; [reflexivity|now rewrite H]. Qed.

End DeleteManifest.

(** C10 (as the code has it): on Windows, where [chmod] only sets or
    clears the read-only attribute, a manifest line that is empty, or blank, denotes the
    working directory, which exists: the entry is not skipped; [chmod]
    is tried on every entry of the tree, and every entry is then removed
    except those at or above an entry that resists, that is a locked
    one or a read-only one on which [chmod] was refused.  When no entry
    resists, the tree is empty after this one entry, and so it is when
    [delete_files] returns, whatever the other lines of the manifest
    are, as long as they name paths inside the tree. *)
Theorem blank_manifest_line_deletes_tree line s :
  let h := Windows in
  strip line = "" ->
  Path_of h (strip line) = []
  /\ exists_ h (Path_of h (strip line)) (fs s) = true
  /\ delete_entry h line s
     = (mkState (filter (fun e => resists_below h (fs s) (e_path e))
                   (map try_writable (fs s)))
          (Log INFO (Deleted_directory_tree []) :: trace s), Ret tt)
  /\ (none_resists h (fs s) = true -> fs (fst (delete_entry h line s)) = [])
  /\ (forall e c,
        lookup h delete_txt (fs s) = Some e -> e_kind e = KFile c ->
        e_readonly e = false -> In line (manifest_lines c) ->
        forallb (fun l => confined h (strip l)) (manifest_lines c) = true ->
        none_resists h (fs s) = true ->
        exists s', delete_files h s = (s', Ret tt) /\ fs s' = []).
Proof.
  intros h Hl. split; [now apply Path_of_blank|].
  split; [now rewrite Path_of_blank|].
  split; [now apply delete_entry_blank|].
  assert (Hwipe : forall s0, none_resists h (fs s0) = true ->
                    fs (fst (delete_entry h line s0)) = []).
  { intros s0 Hn. rewrite delete_entry_blank by assumption. cbn [fst fs].
    apply filter_none. intros e. now apply resists_below_none_resists. }
  split; [apply Hwipe|].
  intros e c He Hk Hro Hin _ Hn.
  destruct (delete_files_run h s e c He Hk Hro) as [_ Hrun].
  rewrite Hrun, unlink_quietly_run.
  apply in_split in Hin as (l1 & l2 & ->). rewrite fold_left_app.
  cbn [fold_left].
  set (s1 := mkState _ (trace s)).
  set (sA := fold_left _ l1 s1).
  assert (HnA : none_resists h (fs sA) = true).
  { eapply shrinks_none_resists; [apply fold_delete_shrinks|].
    unfold s1. cbn [fs]. now rewrite none_resists_with_text. }
  set (sB := fst (delete_entry h line sA)).
  assert (HB : fs sB = []) by now apply Hwipe.
  set (sC := fold_left _ l2 sB).
  assert (HC : fs sC = []).
  { apply shrinks_nil. rewrite <- HB. apply fold_delete_shrinks. }
  eexists. split; [reflexivity|].
  rewrite HC. cbn. exact HC.
Qed.

Lemma blank_manifest_line_deletes_tree_witness :
  fs (fst (delete_files Windows
             (mkState [mkEntry ["deletefiles.txt"]
                         (KFile ("old.bin" ++ newline ++ newline ++ "x.bin"))
                         false false false;
                       mkEntry ["GenshinImpact_Data"] KDir true false false;
                       mkEntry ["GenshinImpact_Data"; "globalgamemanagers"]
                         (KFile "data") true false false;
                       mkEntry ["7z.exe"] (KFile "") false false true] []))) = [].
Proof.
  pose proof (blank_manifest_line_deletes_tree ""
      (mkState [mkEntry ["deletefiles.txt"]
                  (KFile ("old.bin" ++ newline ++ newline ++ "x.bin"))
                  false false false;
                mkEntry ["GenshinImpact_Data"] KDir true false false;
                mkEntry ["GenshinImpact_Data"; "globalgamemanagers"]
                  (KFile "data") true false false;
                mkEntry ["7z.exe"] (KFile "") false false true] [])
      eq_refl) as (_ & _ & _ & _ & H).
  destruct (H _ _ eq_refl eq_refl eq_refl (or_intror (or_introl eq_refl))
              eq_refl eq_refl)
    as (s' & -> & Hs').
  exact Hs'.
Defined.

(** C10 as stated fails where it promises that the entire tree is made
    writable and deleted: the failures of [chmod] are passed over and
    [shutil.rmtree] ignores errors, so a file in use, or a read-only
    file on which [chmod] is refused, stays after the blank line, still
    read-only, with the directory above it. *)
Lemma blank_line_spares_what_resists :
  ~ (forall line s,
       strip line = "" -> fs (fst (delete_entry Windows line s)) = [])
  /\ fs (fst (delete_entry Windows ""
                (mkState [mkEntry ["Data"] KDir false false false;
                          mkEntry ["Data"; "kept.bin"] (KFile "k")
                            true false true;
                          mkEntry ["Data"; "gone.bin"] (KFile "g")
                            true false false;
                          mkEntry ["in_use.bin"] (KFile "f") false true false]
                   [])))
     = [mkEntry ["Data"] KDir false false false;
        mkEntry ["Data"; "kept.bin"] (KFile "k") true false true;
        mkEntry ["in_use.bin"] (KFile "f") false true false].
Proof.
  split; [|reflexivity]. intros H.
  specialize (H "" (mkState [mkEntry ["in_use.bin"] (KFile "f")
                               false true false] []) eq_refl).
  vm_compute in H. discriminate H.
Qed.

(** C4 (as the code has it), on Windows and for manifest lines that name
    paths inside the tree of the working directory: [delete_files] on a
    writable manifest never raises and runs every line of the manifest
    in order; a line whose target does not exist changes nothing; an
    existing file is removed and the removal logged, unless the file
    resists (it is locked, or read-only with [chmod] refused), in which
    case a warning is logged and the run goes on with the next line; an
    existing directory is removed with its tree when nothing at or below
    it resists; at the end the manifest is unlinked, and it is gone when
    that unlink succeeds, while a failure of the unlink is swallowed and
    leaves the store as it was. *)
Theorem delete_manifest_run s e c :
  let h := Windows in
  lookup h delete_txt (fs s) = Some e -> e_kind e = KFile c ->
  e_readonly e = false ->
  forallb (fun l => confined h (strip l)) (manifest_lines c) = true ->
  exists s1 s2 s3,
    replace_text_in_file h delete_txt s = (s1, Ret tt)
    /\ s2 = fold_left (fun s' line => fst (delete_entry h line s'))
              (manifest_lines c) s1
    /\ for_each (delete_entry h) (manifest_lines c) s1 = (s2, Ret tt)
    /\ delete_files h s = (s3, Ret tt)
    /\ trace s3 = trace s2
    /\ (forall st3, unlink h delete_txt (fs s2) = Some st3 ->
          fs s3 = st3 /\ exists_ h delete_txt (fs s3) = false)
    /\ (unlink h delete_txt (fs s2) = None -> fs s3 = fs s2)
    /\ forall line s',
         confined h (strip line) = true ->
         let target := Path_of h (strip line) in
         (exists_ h target (fs s') = false ->
            delete_entry h line s' = (s', Ret tt))
         /\ (forall e', is_file h target (fs s') = true ->
               lookup h target (fs s') = Some e' -> resists h e' = false ->
               exists s'', delete_entry h line s' = (s'', Ret tt)
                 /\ exists_ h target (fs s'') = false
                 /\ trace s'' = Log INFO (Deleted_file target) :: trace s')
         /\ (forall e', is_file h target (fs s') = true ->
               lookup h target (fs s') = Some e' -> resists h e' = true ->
               exists s'', delete_entry h line s' = (s'', Ret tt)
                 /\ exists_ h target (fs s'') = true
                 /\ trace s'' = Log WARNING (Failed_to_delete target) :: trace s')
         /\ (is_dir h target (fs s') = true -> target <> [] ->
               resists_below h (fs s') target = false ->
               exists s'', delete_entry h line s' = (s'', Ret tt)
                 /\ exists_ h target (fs s'') = false
                 /\ trace s'' = Log INFO (Deleted_directory_tree target) :: trace s').
Proof.
  intros h He Hk Hro _.
  destruct (delete_files_run h s e c He Hk Hro) as [Hrep Hrun].
  eexists. eexists. eexists.
  split; [exact Hrep|]. split; [reflexivity|].
  split; [apply for_each_never_raises, delete_entry_ret|].
  rewrite Hrun, unlink_quietly_run.
  split; [reflexivity|].
  set (s2 := fold_left _ _ _).
  split; [now destruct (unlink h delete_txt (fs s2))|].
  split.
  { intros st3 Hu. rewrite Hu. cbn [fs]. split; [reflexivity|].
    eapply unlink_gone; eassumption. }
  split.
  { now intros ->. }
  intros line s' _ target. repeat split.
  - apply delete_entry_skip.
  - intros e' Hf He' Hl. rewrite (delete_entry_file h line s' e' Hf He').
    fold target. cbv zeta. rewrite Hl. eexists. split; [reflexivity|].
    cbn [fs trace]. split; [|reflexivity].
    apply exists_after_remove. now destruct (is_file_lookup h _ _ Hf).
  - intros e' Hf He' Hl. rewrite (delete_entry_file h line s' e' Hf He').
    fold target. cbv zeta. rewrite Hl. eexists. split; [reflexivity|].
    cbn [fs trace]. split; [|reflexivity].
    unfold exists_. rewrite node_kind_chmod_quietly.
    now apply is_file_exists.
  - intros Hd Hp Hb. rewrite (delete_entry_dir h line s' Hd).
    fold target. cbv zeta. eexists. split; [reflexivity|].
    cbn [fs trace]. split; [|reflexivity].
    apply rmtree_gone; try assumption.
    + unfold is_dir. now rewrite node_kind_make_writable.
    + now rewrite blocked_make_writable.
Qed.

Lemma delete_manifest_run_witness :
  exists s3,
    delete_files Windows (mkState
     [mkEntry ["deletefiles.txt"]
        (KFile ("old.bin" ++ newline ++ "gone.bin")) false false false;
      mkEntry ["old.bin"] (KFile "") true false false] []) = (s3, Ret tt)
    /\ exists_ Windows ["old.bin"] (fs s3) = false
    /\ exists_ Windows delete_txt (fs s3) = false.
Proof.
  destruct (delete_manifest_run (mkState
     [mkEntry ["deletefiles.txt"]
        (KFile ("old.bin" ++ newline ++ "gone.bin")) false false false;
      mkEntry ["old.bin"] (KFile "") true false false] [])
              (mkEntry ["deletefiles.txt"]
                 (KFile ("old.bin" ++ newline ++ "gone.bin")) false false false)
              ("old.bin" ++ newline ++ "gone.bin") eq_refl eq_refl eq_refl
              eq_refl)
    as (s1 & s2 & s3 & H1 & H2 & H3 & H4 & H5 & H6 & H7 & H8).
  exists s3. split; [exact H4|].
  injection H1 as <-. subst s2.
  destruct (H6 _ eq_refl) as [Hfs Hex]. split; [|exact Hex].
  rewrite Hfs. reflexivity.
Defined.

(** C4 as stated fails where it promises that the manifest is gone: a
    manifest that the system refuses to remove is still there after the
    run, which ends normally. *)
Lemma delete_manifest_may_survive :
  ~ (forall h s, exists_ h delete_txt (fs s) = true ->
       exists_ h delete_txt (fs (fst (delete_files h s))) = false).
Proof.
  intros H.
  specialize (H Windows
    (mkState [mkEntry ["deletefiles.txt"] (KFile "old.bin") false true false;
              mkEntry ["old.bin"] (KFile "") false false false] []) eq_refl).
  vm_compute in H. discriminate H.
Qed.

(** ** The diff manifest *)



Section DiffManifest.
Variable h : platform.
Variable run_hpatchz : string -> store -> store * proc.

Lemma hdiff_entry_blank line patched s :
  strip line = "" -> hdiff_entry h run_hpatchz line patched s = (s, Ret patched).
Proof. intros H. unfold hdiff_entry. now rewrite H. Qed.

Lemma hdiff_entry_absent line patched s :
  exists_ h (Path_of h (strip line ++ ".hdiff")) (fs s) = false ->
  hdiff_entry h run_hpatchz line patched s = (s, Ret patched).
Proof.
  intros H. unfold hdiff_entry. destruct (String.eqb (strip line) "");
    [reflexivity|]. run_unfold. now rewrite H.
Qed.

Lemma hdiff_entry_tool line patched s :
  strip line <> "" -> exists_ h (Path_of h (strip line ++ ".hdiff")) (fs s) = true ->
  hdiff_entry h run_hpatchz line patched s
  = let st := ensure_writable h (Path_of h (strip line)) (fs s) in
    let tr := ExecHpatchz (strip line) :: trace s in
    match run_hpatchz (strip line) st with
    | (st', Exit0) =>
        (mkState (match unlink h (Path_of h (strip line ++ ".hdiff")) st' with
                  | Some st'' => st''
                  | None => st'
                  end) (Log INFO (Patched (strip line)) :: tr), Ret true)
    | (st', ExitNonZero) =>
        (mkState st' (Log ERROR (Hpatchz_failed (strip line)) :: tr),
         Raise CalledProcessError)
    | (st', SpawnFailed) => (mkState st' tr, Raise OSError)
    end.
Proof.
  intros Hne Hex. unfold hdiff_entry.
  apply String.eqb_neq in Hne. rewrite Hne.
  unfold bind at 1, get_fs at 1. rewrite Hex. cbn [negb].
  unfold bind at 1, put_fs at 1. unfold bind at 1, get_fs at 1.
  unfold bind at 1, emit at 1. cbn [fs trace].
  destruct (run_hpatchz (strip line) (ensure_writable h (Path_of h (strip line)) (fs s)))
    as [st' []]; run_unfold; cbn [fs trace]; try reflexivity.
  now destruct (unlink h (Path_of h (strip line ++ ".hdiff")) st').
Qed.



End DiffManifest.






(** ** Soundness and completeness of the matcher *)

Lemma star_cc_sound cc s pos g k m :
  star_cc cc pos s g k = Some m ->
  exists s1 s2, s = s1 ++ s2 /\ all_cc cc s1 = true
                /\ k (pos + String.length s1) s2 g = Some m.
Proof.
  revert pos. induction s as [|c s IH]; intros pos; simpl.
  - intros H. exists "", "". rewrite Nat.add_0_r. auto.
  - destruct (cc_ok cc c) eqn:Hc.
    + destruct (star_cc cc (S pos) s g k) as [m'|] eqn:E.
      * intros [= ->]. destruct (IH _ E) as (s1 & s2 & -> & Hall & Hk).
        exists (String c s1), s2. simpl. rewrite Hc, Hall.
        rewrite <- Nat.add_succ_comm. auto.
      * intros H. exists "", (String c s). rewrite Nat.add_0_r. auto.
    + intros H. exists "", (String c s). rewrite Nat.add_0_r. auto.
Qed.

Lemma rmatch_sound r : forall pos s g k m,
  rmatch r pos s g k = Some m ->
  exists s1 s2 g', s = s1 ++ s2 /\ Match r pos s1 s2 g g'
                   /\ k (pos + String.length s1) s2 g' = Some m.
Proof.
  induction r as [|cc|r1 IH1 r2 IH2|r1 IH1 r2 IH2|cc|cc|r1 IH1|n r1 IH1| |];
    intros pos s g k m; cbn [rmatch Match].
  - intros H. exists "", s, g. rewrite Nat.add_0_r. auto.
  - destruct s as [|c s]; [discriminate|].
    destruct (cc_ok cc c) eqn:Hc; [|discriminate]. intros H.
    exists (String c ""), s, g. simpl. rewrite Nat.add_1_r. eauto 6.
  - intros H. destruct (IH1 _ _ _ _ _ H) as (a & t & g1 & -> & Ha & H2).
    destruct (IH2 _ _ _ _ _ H2) as (b & s2 & g2 & -> & Hb & Hk).
    exists (a ++ b), s2, g2. rewrite append_assoc, length_append, Nat.add_assoc.
    split; [reflexivity|]. split; [|assumption]. now exists a, b, g1.
  - destruct (rmatch r1 pos s g k) as [m'|] eqn:E.
    + intros [= ->]. destruct (IH1 _ _ _ _ _ E) as (s1 & s2 & g' & ? & ? & ?).
      exists s1, s2, g'. auto.
    + intros H. destruct (IH2 _ _ _ _ _ H) as (s1 & s2 & g' & ? & ? & ?).
      exists s1, s2, g'. auto.
  - intros H. destruct (star_cc_sound _ _ _ _ _ _ H) as (s1 & s2 & ? & ? & ?).
    exists s1, s2, g. auto.
  - destruct s as [|c s]; [discriminate|].
    destruct (cc_ok cc c) eqn:Hc; [|discriminate]. intros H.
    destruct (star_cc_sound _ _ _ _ _ _ H) as (s1 & s2 & -> & Hall & Hk).
    exists (String c s1), s2, g. simpl. rewrite Hc, Hall.
    rewrite <- Nat.add_succ_comm. repeat split; auto. discriminate.
  - destruct (rmatch r1 pos s g k) as [m'|] eqn:E.
    + intros [= ->]. destruct (IH1 _ _ _ _ _ E) as (s1 & s2 & g' & ? & ? & ?).
      exists s1, s2, g'. auto.
    + intros H. exists "", s, g. rewrite Nat.add_0_r. auto.
  - intros H. destruct (IH1 _ _ _ _ _ H) as (s1 & s2 & g' & ? & ? & ?).
    exists s1, s2, ((n, (pos, pos + String.length s1)) :: g'). eauto.
  - destruct (Nat.eqb_spec pos 0); [|discriminate]. intros H.
    exists "", s, g. rewrite Nat.add_0_r. auto.
  - destruct (at_eol s) eqn:E; [|discriminate]. intros H.
    exists "", s, g. rewrite Nat.add_0_r. auto.
Qed.

Lemma star_cc_complete cc s1 s2 pos g k :
  all_cc cc s1 = true -> k (pos + String.length s1) s2 g <> None ->
  star_cc cc pos (s1 ++ s2) g k <> None.
Proof.
  revert pos. induction s1 as [|c s1 IH]; intros pos Hall Hk.
  - simpl in *. rewrite Nat.add_0_r in Hk.
    destruct s2 as [|d s2]; [exact Hk|]. simpl.
    destruct (cc_ok cc d); [|exact Hk].
    now destruct (star_cc cc (S pos) s2 g k).
  - simpl in Hall. apply andb_true_iff in Hall as [Hc Hall].
    cbn [append star_cc]. rewrite Hc.
    assert (H : star_cc cc (S pos) (s1 ++ s2) g k <> None).
    { apply IH; [assumption|]. simpl in Hk. now rewrite <- Nat.add_succ_comm in Hk. }
    now destruct (star_cc cc (S pos) (s1 ++ s2) g k).
Qed.

Lemma rmatch_complete r : forall pos s1 s2 g0 g0' g k,
  Match r pos s1 s2 g0 g0' ->
  succeeds k (pos + String.length s1) s2 ->
  rmatch r pos (s1 ++ s2) g k <> None.
Proof.
  induction r as [|cc|r1 IH1 r2 IH2|r1 IH1 r2 IH2|cc|cc|r1 IH1|n r1 IH1| |];
    intros pos s1 s2 g0 g0' g k; cbn [rmatch Match].
  - intros [-> _] Hk. simpl in *. rewrite Nat.add_0_r in Hk. apply Hk.
  - intros [(c & -> & Hc) _] Hk. simpl in *. rewrite Hc.
    rewrite Nat.add_1_r in Hk. apply Hk.
  - intros (a & b & g1 & -> & Ha & Hb) Hk. rewrite append_assoc.
    eapply IH1; [exact Ha|]. intros g'. eapply IH2; [exact Hb|].
    now rewrite length_append, Nat.add_assoc in Hk.
  - intros [H|H] Hk.
    + pose proof (IH1 _ _ _ _ _ g k H Hk).
      now destruct (rmatch r1 pos (s1 ++ s2) g k).
    + pose proof (IH2 _ _ _ _ _ g k H Hk).
      now destruct (rmatch r1 pos (s1 ++ s2) g k).
  - intros [Hall _] Hk. apply star_cc_complete; [assumption|apply Hk].
  - intros [[Hne Hall] _] Hk. destruct s1 as [|c s1]; [congruence|].
    simpl in Hall. apply andb_true_iff in Hall as [Hc Hall].
    cbn [append]. rewrite Hc. apply star_cc_complete; [assumption|].
    simpl in Hk. rewrite <- Nat.add_succ_comm in Hk. apply Hk.
  - intros [[-> _]|H] Hk.
    + simpl in *. rewrite Nat.add_0_r in Hk.
      destruct (rmatch r1 pos s2 g k); [discriminate|apply Hk].
    + pose proof (IH1 _ _ _ _ _ g k H Hk).
      now destruct (rmatch r1 pos (s1 ++ s2) g k).
  - intros (g1 & H & _) Hk. eapply IH1; [exact H|]. intros g'. apply Hk.
  - intros [[-> ->] _] Hk. simpl in *. apply Hk.
  - intros [[-> He] _] Hk. simpl in *. rewrite He.
    rewrite Nat.add_0_r in Hk. apply Hk.
Qed.

Lemma succeeds_accept pos s : succeeds accept pos s.
Proof. intros g. discriminate. Qed.

Lemma search_from_sound r s : forall pos m,
  search_from r pos s = Some m ->
  exists u s1 s2, s = u ++ s1 ++ s2
                  /\ Match r (pos + String.length u) s1 s2 [] m.
Proof.
  induction s as [|c s IH]; intros pos m; cbn [search_from].
  - destruct (rmatch r pos "" [] accept) eqn:E; [|discriminate]. intros [= ->].
    destruct (rmatch_sound _ _ _ _ _ _ E) as (s1 & s2 & g' & Hs & HM & [= ->]).
    exists "", s1, s2. rewrite Nat.add_0_r. auto.
  - destruct (rmatch r pos (String c s) [] accept) eqn:E.
    + intros [= ->].
      destruct (rmatch_sound _ _ _ _ _ _ E) as (s1 & s2 & g' & Hs & HM & [= ->]).
      exists "", s1, s2. rewrite Nat.add_0_r. auto.
    + intros H. destruct (IH _ _ H) as (u & s1 & s2 & -> & HM).
      exists (String c u), s1, s2. simpl. rewrite <- Nat.add_succ_comm. auto.
Qed.

Lemma search_from_complete r u s1 s2 pos g0 g0' :
  Match r (pos + String.length u) s1 s2 g0 g0' ->
  search_from r pos (u ++ s1 ++ s2) <> None.
Proof.
  revert pos. induction u as [|c u IH]; intros pos H.
  - simpl in *. rewrite Nat.add_0_r in H.
    pose proof (rmatch_complete r _ _ _ _ _ [] accept H (succeeds_accept _ _)) as Hm.
    destruct (rmatch r pos (s1 ++ s2) [] accept) as [m|] eqn:E; [|congruence].
    now rewrite (search_from_hit _ _ _ _ E).
  - cbn [append search_from].
    destruct (rmatch r pos (String c (u ++ s1 ++ s2)) [] accept); [discriminate|].
    apply IH. simpl in H. now rewrite <- Nat.add_succ_comm in H.
Qed.

(** [matches] is the existence of a match somewhere in the subject. *)
Lemma matches_iff r s :
  matches r s = true <->
  exists u s1 s2 m, s = u ++ s1 ++ s2 /\ Match r (String.length u) s1 s2 [] m.
Proof.
  unfold matches, search. split.
  - destruct (search_from r 0 s) as [m|] eqn:E; [|discriminate]. intros _.
    destruct (search_from_sound _ _ _ _ E) as (u & s1 & s2 & Hs & HM).
    now exists u, s1, s2, m.
  - intros (u & s1 & s2 & m & -> & HM).
    pose proof (search_from_complete r u s1 s2 0 [] m HM) as H.
    now destruct (search_from r 0 (u ++ s1 ++ s2)).
Qed.

(** ** The archive-name patterns *)

Lemma Match_seq r1 r2 pos a b s2 g g1 g' :
  Match r1 pos a (b ++ s2) g g1 ->
  Match r2 (pos + String.length a) b s2 g1 g' ->
  Match (r1 @@ r2) pos (a ++ b) s2 g g'.
Proof. intros H1 H2. now exists a, b, g1. Qed.

Lemma Match_chr c pos s2 g : Match (RC (CChr c)) pos (String c "") s2 g g.
Proof. split; [|reflexivity]. exists c. split; [reflexivity|apply Ascii.eqb_refl]. Qed.

Lemma chr_inv c s1 (g g' : groups) :
  (exists d, s1 = String d "" /\ cc_ok (CChr c) d = true) /\ g' = g ->
  s1 = String c "" /\ g' = g.
Proof.
  intros [(d & -> & Hd) ->]. simpl in Hd. apply Ascii.eqb_eq in Hd.
  now subst d.
Qed.

Lemma Match_lit w pos s2 g : Match (lit w) pos w s2 g g.
Proof.
  revert pos. induction w as [|c w IH]; intros pos; [now split|].
  cbn [lit]. change (String c w) with (String c "" ++ w).
  eapply Match_seq; [apply Match_chr|apply IH].
Qed.

Lemma Match_lit_inv w : forall pos s1 s2 g g',
  Match (lit w) pos s1 s2 g g' -> s1 = w /\ g' = g.
Proof.
  induction w as [|c w IH]; intros pos s1 s2 g g'; cbn [lit Match].
  - auto.
  - intros (a & b & g1 & -> & Ha & Hb).
    apply chr_inv in Ha as [-> ->].
    apply IH in Hb as [-> ->]. split; reflexivity.
Qed.

Lemma Match_ext ext pos s2 g : is_ext ext = true -> Match re_ext pos ext s2 g g.
Proof.
  unfold is_ext. rewrite !orb_true_iff, !String.eqb_eq.
  intros [[-> | ->] | ->]; unfold re_ext; cbn [Match].
  - left. apply Match_lit.
  - right. left. apply Match_lit.
  - right. right. apply Match_lit.
Qed.

Lemma Match_ext_inv pos s1 s2 g g' :
  Match re_ext pos s1 s2 g g' -> is_ext s1 = true /\ g' = g.
Proof.
  unfold re_ext. cbn [Match].
  intros [H | [H | H]]; apply Match_lit_inv in H as [-> ->]; auto.
Qed.

Lemma at_eol_cases tl : at_eol tl = true -> tl = "" \/ tl = newline.
Proof.
  destruct tl as [|c [|d tl]]; simpl; auto; try discriminate.
  intros H. apply Ascii.eqb_eq in H. subst c. now right.
Qed.

(** [\.(7z|zip|rar)\.0*1$] matches the names that end with an extension,
    a dot, zeros and a one. *)
Lemma first_part_iff s :
  matches re_first_part s = true <->
  exists u ext zs tl,
    s = u ++ "." ++ ext ++ "." ++ zs ++ "1" ++ tl
    /\ is_ext ext = true /\ all_zeros zs = true /\ at_eol tl = true.
Proof.
  rewrite matches_iff. split.
  - intros (u & s1 & s2 & m & -> & HM). unfold re_first_part in HM.
    cbn [Match] in HM.
    destruct HM as (a1 & b1 & g1 & -> & H1 & a2 & b2 & g2 & -> & (g2' & H2 & _)
                    & a3 & b3 & g3 & -> & H3 & a4 & b4 & g4 & -> & [H4 _]
                    & a5 & b5 & g5 & -> & H5 & [[-> H6] _]).
    apply chr_inv in H1 as [-> _]. apply Match_ext_inv in H2 as [H2 _].
    apply chr_inv in H3 as [-> _]. apply chr_inv in H5 as [-> _].
    exists u, a2, a4, s2. repeat split; try assumption.
    rewrite !append_assoc. reflexivity.
  - intros (u & ext & zs & tl & -> & He & Hz & Ht).
    exists u, ("." ++ ext ++ "." ++ zs ++ "1"), tl.
    eexists. split; [now rewrite !append_assoc|].
    unfold re_first_part.
    change ("." ++ ext ++ "." ++ zs ++ "1")
      with (String "." "" ++ ext ++ String "." "" ++ zs ++ String "1" "" ++ "").
    eapply Match_seq; [apply Match_chr|].
    eapply Match_seq; [exists []; split; [now apply Match_ext|reflexivity]|].
    eapply Match_seq; [apply Match_chr|].
    eapply Match_seq; [split; [exact Hz|reflexivity]|].
    eapply Match_seq; [apply Match_chr|].
    split; [|reflexivity]. now split.
Qed.

Lemma all_cc_digits s : all_cc CDigit s = all_digits s.
Proof. induction s as [|c s IH]; simpl; [reflexivity|now rewrite IH]. Qed.

Lemma numeric_plus ds pos s2 g :
  numeric ds = true -> Match (RPlus CDigit) pos ds s2 g g.
Proof.
  intros H. destruct (numeric_inv _ H) as (c & ds' & -> & Hc & Hd).
  split; [|reflexivity]. split; [discriminate|].
  simpl. now rewrite Hc, all_cc_digits, Hd.
Qed.

Lemma numbered_part_matches u ext zs ds tl :
  is_ext ext = true -> all_zeros zs = true -> numeric ds = true ->
  at_eol tl = true ->
  matches re_numbered_part (u ++ "." ++ ext ++ "." ++ zs ++ ds ++ tl) = true.
Proof.
  intros He Hz Hd Ht. apply matches_iff.
  exists u, ("." ++ ext ++ "." ++ zs ++ ds), tl.
  eexists. split; [now rewrite !append_assoc|].
  unfold re_numbered_part.
  change ("." ++ ext ++ "." ++ zs ++ ds)
    with (String "." "" ++ ext ++ String "." "" ++ zs ++ ds).
  rewrite <- (append_empty_r ds).
  eapply Match_seq; [apply Match_chr|].
  eapply Match_seq; [exists []; split; [now apply Match_ext|reflexivity]|].
  eapply Match_seq; [apply Match_chr|].
  eapply Match_seq; [split; [exact Hz|reflexivity]|].
  eapply Match_seq; [now apply numeric_plus|].
  split; [|reflexivity]. now split.
Qed.

Lemma rar_part_matches u ds tl :
  numeric ds = true -> at_eol tl = true ->
  matches re_rar_part (u ++ ".part" ++ ds ++ ".rar" ++ tl) = true.
Proof.
  intros Hd Ht. apply matches_iff.
  exists u, (".part" ++ ds ++ ".rar"), tl.
  eexists. split; [now rewrite !append_assoc|].
  unfold re_rar_part. rewrite <- (append_empty_r ".rar").
  eapply Match_seq; [apply Match_lit|].
  eapply Match_seq; [now apply numeric_plus|].
  eapply Match_seq; [apply Match_lit|].
  split; [|reflexivity]. now split.
Qed.

Lemma last_char_app s c : last_char (s ++ String c "") = Some c.
Proof.
  induction s as [|d s IH]; [reflexivity|].
  cbn [append last_char]. rewrite IH.
  now destruct (s ++ String c "") eqn:E; [destruct s; discriminate|].
Qed.

Lemma mem_char_app c a b : mem_char c (a ++ b) = mem_char c a || mem_char c b.
Proof. induction a as [|d a IH]; simpl; [reflexivity|]. now rewrite IH, orb_assoc. Qed.

Lemma all_zeros_no_dot zs : all_zeros zs = true -> mem_char "." zs = false.
Proof.
  unfold all_zeros. induction zs as [|c zs IH]; simpl; [reflexivity|].
  intros H. apply andb_true_iff in H as [Hc Hz]. apply Ascii.eqb_eq in Hc.
  subst c. now rewrite IH.
Qed.

(** The text before the last dot of a name that ends in zeros and a one
    is determined. *)
Lemma numbered_tail_unique a b z z' :
  all_zeros z = true -> all_zeros z' = true ->
  a ++ "." ++ z ++ "1" = b ++ "." ++ z' ++ "1" -> a = b.
Proof.
  intros Hz Hz'. revert b. induction a as [|c a IH]; intros [|d b] H.
  - reflexivity.
  - exfalso. cbn [append] in H. injection H as <- H.
    apply (f_equal (mem_char ".")) in H.
    rewrite !mem_char_app, (all_zeros_no_dot _ Hz) in H. simpl in H.
    now rewrite orb_true_r in H.
  - exfalso. cbn [append] in H. injection H as -> H.
    apply (f_equal (mem_char ".")) in H.
    rewrite !mem_char_app, (all_zeros_no_dot _ Hz') in H. simpl in H.
    now rewrite orb_true_r in H.
  - cbn [append] in H. injection H as -> H. f_equal. now apply IH.
Qed.

Lemma length_zero_empty s : String.length s = 0 -> s = "".
Proof. now destruct s. Qed.

Lemma search_complete_whole r s g0 g0' :
  Match r 0 s "" g0 g0' -> search r s <> None.
Proof.
  intros H. unfold search.
  pose proof (search_from_complete r "" s "" 0 g0 g0' H) as Hc.
  cbn [append] in Hc. now rewrite append_empty_r in Hc.
Qed.

(** [^(.*\.(?:7z|zip|rar))\.0*1$] on a first part numbered with zeros
    and a one: the group is the name without its number. *)
Lemma first_prefix_group P ext zs :
  mem_char "010" P = false -> is_ext ext = true -> all_zeros zs = true ->
  search re_first_prefix ((P ++ "." ++ ext) ++ "." ++ zs ++ "1")
  = Some [(1, (0, String.length (P ++ "." ++ ext)))].
Proof.
  intros HP He Hz. set (Pe := P ++ "." ++ ext).
  assert (Hall : all_cc CDot P = true).
  { clear -HP. induction P as [|c P IH]; [reflexivity|]. simpl in *.
    apply orb_false_iff in HP as [Hc HP]. now rewrite Hc, IH. }
  assert (Hex : search re_first_prefix (Pe ++ "." ++ zs ++ "1") <> None).
  { apply (search_complete_whole _ _ [] [(1, (0, 0 + String.length Pe))]).
    unfold re_first_prefix.
    change (Pe ++ "." ++ zs ++ "1")
      with ("" ++ Pe ++ String "." "" ++ zs ++ String "1" "" ++ "").
    eapply Match_seq; [now split|].
    eapply Match_seq.
    { exists []. split; [|reflexivity]. unfold Pe.
      change (P ++ "." ++ ext) with (P ++ String "." "" ++ ext).
      eapply Match_seq; [split; [exact Hall|reflexivity]|].
      rewrite <- (append_empty_r ext).
      eapply Match_seq; [apply Match_chr|].
      rewrite append_empty_r. now apply Match_ext. }
    eapply Match_seq; [apply Match_chr|].
    eapply Match_seq; [split; [exact Hz|reflexivity]|].
    eapply Match_seq; [apply Match_chr|].
    split; [|reflexivity]. now split. }
  destruct (search re_first_prefix (Pe ++ "." ++ zs ++ "1")) as [m|] eqn:E;
    [|congruence]. clear Hex. f_equal.
  destruct (search_from_sound _ _ _ _ E) as (u & s1 & s2 & Hs & HM).
  unfold re_first_prefix in HM. cbn [Match] in HM.
  destruct HM as (a0 & b0 & g0 & -> & [[-> Hu] ->]
                  & a1 & b1 & g1 & -> & (g1' & (x & y & gx & -> & [_ ->] & H1) & ->)
                  & a3 & b3 & g3 & -> & H3 & a4 & b4 & g4 & -> & [H4 ->]
                  & a5 & b5 & g5 & -> & H5 & [[-> H6] ->]).
  cbn [Match] in H1.
  destruct H1 as (a2 & b2 & g2 & -> & H2 & H2').
  apply chr_inv in H2 as [-> ->]. apply Match_ext_inv in H2' as [H2' ->].
  apply chr_inv in H3 as [-> ->]. apply chr_inv in H5 as [-> ->].
  simpl in Hu. apply length_zero_empty in Hu. subst u.
  cbn [append String.length Nat.add] in *.
  assert (Hs2 : s2 = "").
  { destruct (at_eol_cases _ H6) as [->| ->]; [reflexivity|]. exfalso.
    apply (f_equal last_char) in Hs.
    replace (Pe ++ String "." (zs ++ "1"))
      with ((Pe ++ String "." zs) ++ String "1" "") in Hs
      by (rewrite append_assoc; reflexivity).
    unfold newline in Hs. rewrite !last_char_app in Hs. discriminate. }
  subst s2. rewrite append_empty_r in Hs.
  assert (Heq : Pe = x ++ String "." b2).
  { apply (numbered_tail_unique _ _ zs a4); assumption. }
  now rewrite Heq.
Qed.

Lemma endswith_iff suf s : endswith suf s = true <-> exists u, s = u ++ suf.
Proof.
  split.
  - induction s as [|c s IH]; cbn [endswith]; rewrite orb_true_iff.
    + intros [H|H]; [|discriminate]. apply String.eqb_eq in H. now exists "".
    + intros [H|H].
      * apply String.eqb_eq in H. now exists "".
      * destruct (IH H) as (u & ->). now exists (String c u).
  - intros (u & ->). induction u as [|c u IH].
    + destruct suf; cbn [append endswith]; now rewrite String.eqb_refl.
    + cbn [append endswith]. now rewrite IH, orb_true_r.
Qed.

Lemma first_prefix_needs_one s m :
  search re_first_prefix s = Some m ->
  last_char s = Some "1"%char \/ last_char s = Some "010"%char.
Proof.
  intros E. destruct (search_from_sound _ _ _ _ E) as (u & s1 & s2 & -> & HM).
  unfold re_first_prefix in HM. cbn [Match] in HM.
  destruct HM as (a0 & b0 & g0 & -> & _
                  & a1 & b1 & g1 & -> & _
                  & a3 & b3 & g3 & -> & _ & a4 & b4 & g4 & -> & _
                  & a5 & b5 & g5 & -> & H5 & [[-> H6] _]).
  apply chr_inv in H5 as [-> _].
  destruct (at_eol_cases _ H6) as [->| ->].
  - left. rewrite !append_empty_r. rewrite <- !append_assoc.
    apply last_char_app.
  - right. unfold newline. rewrite <- !append_assoc. apply last_char_app.
Qed.

Lemma first_prefix_none_rar s :
  endswith ".part1.rar" s = true -> search re_first_prefix s = None.
Proof.
  intros H. apply endswith_iff in H as (u & ->).
  destruct (search re_first_prefix (u ++ ".part1.rar")) as [m|] eqn:E;
    [|reflexivity].
  apply first_prefix_needs_one in E.
  change (u ++ ".part1.rar") with (u ++ ".part1.ra" ++ String "r" "") in E.
  rewrite <- append_assoc, last_char_app in E. now destruct E.
Qed.

(** *** Sorting *)

Lemma ltb_asym a b : String.ltb a b = true -> String.ltb b a = false.
Proof.
  unfold String.ltb. rewrite (String.compare_antisym b a).
  now destruct (String.compare a b).
Qed.

Lemma insert_sorted_in x y l : In y (insert_sorted x l) <-> y = x \/ In y l.
Proof.
  induction l as [|z l IH]; simpl; [intuition|].
  destruct (String.ltb x z); simpl; [intuition|]. rewrite IH. intuition.
Qed.

Lemma sorted_in y l : In y (sorted l) <-> In y l.
Proof.
  induction l as [|x l IH]; simpl; [reflexivity|].
  rewrite insert_sorted_in, IH. intuition.
Qed.

Lemma insert_sorted_hd x a l :
  name_le a x -> HdRel name_le a l -> HdRel name_le a (insert_sorted x l).
Proof.
  intros Hax Hl. destruct l as [|z l]; simpl; [now constructor|].
  destruct (String.ltb x z); constructor; [assumption|now inversion Hl].
Qed.

Lemma insert_sorted_Sorted x l :
  Sorted name_le l -> Sorted name_le (insert_sorted x l).
Proof.
  induction 1 as [|z l Hs IH Hh]; simpl; [repeat constructor|].
  destruct (String.ltb x z) eqn:E.
  - constructor; [now constructor|]. constructor. now apply ltb_asym.
  - constructor; [assumption|]. now apply insert_sorted_hd.
Qed.

Lemma sorted_Sorted l : Sorted name_le (sorted l).
Proof.
  induction l as [|x l IH]; simpl; [constructor|].
  now apply insert_sorted_Sorted.
Qed.

(** *** Literal prefixes in [fnmatch] patterns *)

Lemma tokens_lits w rest fuel :
  no_meta w = true ->
  tokens (String.length w + fuel) (w ++ rest) = (lits w ++ tokens fuel rest)%list.
Proof.
  induction w as [|c w IH]; intros H; [reflexivity|].
  simpl in H. apply andb_true_iff in H as [Hc Hw].
  unfold is_meta in Hc. apply negb_true_iff in Hc.
  apply orb_false_iff in Hc as [Hc H3]. apply orb_false_iff in Hc as [H1 H2].
  cbn [String.length Nat.add append tokens lits app].
  rewrite H1, H2, H3. now rewrite IH.
Qed.

Lemma gmatch_lits w ts n :
  gmatch (lits w ++ ts)%list n = true <->
  exists n', n = w ++ n' /\ gmatch ts n' = true.
Proof.
  revert n. induction w as [|c w IH]; intros n.
  - cbn [lits app]. split; [now exists n|now intros (n' & -> & H)].
  - cbn [lits app gmatch]. destruct n as [|d n].
    + split; [discriminate|now intros (n' & H & _)].
    + rewrite andb_true_iff, IH, Ascii.eqb_eq. split.
      * intros [-> (n' & -> & H)]. now exists n'.
      * intros (n' & [= -> ->] & H). split; [reflexivity|now exists n'].
Qed.

Lemma gmatch_star ts n :
  gmatch (GStar :: ts) n = true <->
  exists a b, n = a ++ b /\ gmatch ts b = true.
Proof.
  cbn [gmatch]. induction n as [|c n IH].
  - rewrite orb_false_r. split.
    + intros H. now exists "", "".
    + intros (a & b & Hab & H). destruct a; [|discriminate].
      simpl in Hab. now subst b.
  - rewrite orb_true_iff, IH. split.
    + intros [H|(a & b & -> & H)]; [now exists "", (String c n)|].
      now exists (String c a), b.
    + intros (a & b & Hab & H). destruct a as [|d a].
      * simpl in Hab. subst b. now left.
      * injection Hab as -> ->. right. now exists a, b.
Qed.

Lemma prefix_iff a s : prefix a s = true <-> exists t, s = a ++ t.
Proof.
  revert s. induction a as [|c a IH]; intros s.
  - split; [now exists s|]. intros _. now destruct s.
  - destruct s as [|d s]; cbn [prefix].
    + split; [discriminate|now intros (t & H)].
    + destruct (ascii_dec c d) as [->|Hn].
      * rewrite IH. split; intros (t & H); exists t; [now rewrite H|].
        now injection H.
      * split; [discriminate|]. intros (t & [= -> _]). congruence.
Qed.

(** A literal prefix followed by a star matches what starts with the
    prefix. *)
Lemma fnmatchcase_prefix w n :
  no_meta w = true -> fnmatchcase n (w ++ "*") = prefix w n.
Proof.
  intros Hw. unfold fnmatchcase. rewrite length_append, tokens_lits by assumption.
  cbn [String.length tokens]. rewrite Ascii.eqb_refl.
  apply eq_true_iff_eq. rewrite gmatch_lits, prefix_iff. split.
  - intros (n' & -> & _). now exists n'.
  - intros (t & ->). exists t. split; [reflexivity|].
    apply gmatch_star. exists t, "". now rewrite append_empty_r.
Qed.

Lemma lower_app a b : lower (a ++ b) = lower a ++ lower b.
Proof. induction a as [|c a IH]; simpl; [reflexivity|now rewrite IH]. Qed.

Lemma is_meta_lower c : is_meta (lower_char c) = is_meta c.
Proof. destruct c as [[] [] [] [] [] [] [] []]; reflexivity. Qed.

Lemma no_meta_lower s : no_meta (lower s) = no_meta s.
Proof.
  induction s as [|c s IH]; [reflexivity|]. simpl.
  now rewrite is_meta_lower, IH.
Qed.

Lemma no_meta_app a b : no_meta (a ++ b) = no_meta a && no_meta b.
Proof. induction a as [|c a IH]; simpl; [reflexivity|]. now rewrite IH, andb_assoc. Qed.

Lemma fnmatch_prefix h w n :
  no_meta w = true ->
  fnmatch h n (w ++ ".*") = prefix (normcase h (w ++ ".")) (normcase h n).
Proof.
  intros Hw. unfold fnmatch.
  assert (E : normcase h (w ++ ".*") = normcase h (w ++ ".") ++ "*").
  { destruct h; simpl; [|now rewrite append_assoc].
    rewrite !lower_app. now rewrite append_assoc. }
  rewrite E. apply fnmatchcase_prefix.
  destruct h; simpl; [rewrite no_meta_lower|]; rewrite no_meta_app, Hw;
    reflexivity.
Qed.

(** *** Unlinking a list of names *)

Section UnlinkAll.
Variable h : platform.

Lemma lookup_remove_path q p st :
  lookup h q (remove_path h p st)
  = if path_eqb h q p then None else lookup h q st.
Proof.
  unfold lookup, remove_path. induction st as [|e st IH].
  - now destruct (path_eqb h q p).
  - cbn [filter find].
    destruct (path_eqb h (e_path e) p) eqn:Ep; cbn [negb].
    + rewrite IH. destruct (path_eqb h q p) eqn:Eq.
      * reflexivity.
      * destruct (path_eqb h (e_path e) q) eqn:Eeq; [|reflexivity].
        rewrite path_eqb_sym in Eeq.
        now rewrite (path_eqb_trans h _ _ _ Eeq Ep) in Eq.
    + cbn [find]. destruct (path_eqb h (e_path e) q) eqn:Eeq.
      * destruct (path_eqb h q p) eqn:Eq; [|reflexivity].
        now rewrite (path_eqb_trans h _ _ _ Eeq Eq) in Ep.
      * exact IH.
Qed.

Lemma unlink_step_lookup s p q :
  lookup h q (fs (unlink_step h s p)) = lookup h q (fs s)
  \/ lookup h q (fs (unlink_step h s p)) = None.
Proof.
  unfold unlink_step. rewrite unlink_quietly_run. cbn [fst].
  destruct (unlink h [p] (fs s)) as [st'|] eqn:E; [|now left].
  cbn [fs]. unfold unlink in E.
  destruct (lookup h [p] (fs s)) as [e|]; [|discriminate].
  destruct (e_kind e); [|discriminate].
  destruct (undeletable h e); [discriminate|]. injection E as <-.
  rewrite lookup_remove_path. destruct (path_eqb h q [p]); auto.
Qed.

Lemma unlink_steps_none names s q :
  lookup h q (fs s) = None ->
  lookup h q (fs (fold_left (unlink_step h) names s)) = None.
Proof.
  revert s. induction names as [|p names IH]; intros s H; [exact H|].
  cbn [fold_left]. apply IH.
  destruct (unlink_step_lookup s p q) as [E|E]; [now rewrite E|exact E].
Qed.

Lemma unlink_step_hit s n e c :
  lookup h [n] (fs s) = Some e -> e_kind e = KFile c ->
  undeletable h e = false ->
  lookup h [n] (fs (unlink_step h s n)) = None.
Proof.
  intros He Hk Hu. unfold unlink_step. rewrite unlink_quietly_run. cbn [fst].
  unfold unlink. rewrite He, Hk, Hu. cbn [fs]. apply lookup_remove.
Qed.

Lemma unlink_steps_gone names s n e c :
  In n names -> lookup h [n] (fs s) = Some e -> e_kind e = KFile c ->
  undeletable h e = false ->
  exists_ h [n] (fs (fold_left (unlink_step h) names s)) = false.
Proof.
  intros Hin He Hk Hu.
  assert (H : lookup h [n] (fs (fold_left (unlink_step h) names s)) = None).
  { revert s He. induction names as [|p names IH]; intros s He; [easy|].
    cbn [fold_left]. destruct Hin as [->|Hin].
    - apply unlink_steps_none. eapply unlink_step_hit; eassumption.
    - destruct (unlink_step_lookup s p [n]) as [E|E].
      + apply IH; [assumption|]. now rewrite E.
      + now apply unlink_steps_none. }
  unfold exists_, node_kind. now rewrite H.
Qed.

End UnlinkAll.

(** ** C1: the migration decision *)

Lemma plus_digits_inv s1 (g g' : groups) :
  (s1 <> "" /\ all_cc CDigit s1 = true) /\ g' = g ->
  numeric s1 = true /\ g' = g.
Proof.
  intros [[Hne Hall] ->]. split; [|reflexivity].
  unfold numeric. rewrite all_cc_digits in Hall. rewrite Hall, andb_true_r.
  apply negb_true_iff. destruct s1; [congruence|reflexivity].
Qed.

Lemma Match_version_inv pos s1 s2 g g' :
  Match re_version pos s1 s2 g g' ->
  g' = g /\ exists A B P,
    s1 = A ++ "." ++ B ++ P /\ numeric A = true /\ numeric B = true
    /\ patch_suffix P = true.
Proof.
  unfold re_version. cbn [Match].
  intros (a1 & b1 & g1 & -> & H1 & a2 & b2 & g2 & -> & H2
          & a3 & b3 & g3 & -> & H3 & H4).
  apply plus_digits_inv in H1 as [HA ->]. apply chr_inv in H2 as [-> ->].
  apply plus_digits_inv in H3 as [HB ->].
  destruct H4 as [[-> ->] | (a4 & b4 & g4 & -> & H5 & H6)].
  - split; [reflexivity|]. exists a1, a3, "". now repeat split.
  - apply chr_inv in H5 as [-> ->]. apply plus_digits_inv in H6 as [HC ->].
    split; [reflexivity|]. exists a1, a3, (String "." b4).
    repeat split; try assumption.
Qed.

Lemma normalize_three A B P :
  numeric A = true -> numeric B = true -> patch_suffix P = true ->
  three_numeric (normalize_version (A ++ "." ++ B ++ P)).
Proof.
  intros HA HB HP. destruct P as [|p P'].
  - rewrite append_empty_r. unfold normalize_version.
    rewrite (split_two _ _ HA HB). exists A, B, "0". now repeat split.
  - simpl in HP. apply andb_true_iff in HP as [Hp HP'].
    apply Ascii.eqb_eq in Hp. subst p.
    change (A ++ "." ++ B ++ String "." P') with (A ++ "." ++ B ++ "." ++ P').
    unfold normalize_version. rewrite (split_three _ _ _ HA HB HP').
    exists A, B, P'. now repeat split.
Qed.

Lemma three_numeric_ints v :
  three_numeric v ->
  truthy v = true
  /\ exists a b c,
       map py_int (split_on "." v) = [Some a; Some b; Some c]
       /\ major_minor v = Some (a, b).
Proof.
  intros (A & B & C & -> & HA & HB & HC). split.
  - destruct (numeric_inv _ HA) as (c & A' & -> & _). reflexivity.
  - exists (int_acc 0 A), (int_acc 0 B), (int_acc 0 C).
    unfold major_minor. rewrite (split_three _ _ _ HA HB HC).
    cbn [map firstn]. rewrite !py_int_numeric by assumption. now split.
Qed.

Lemma group_of_match u v w m n :
  assoc n m = Some (String.length u, String.length u + String.length v) ->
  group (u ++ v ++ w) m n = Some v.
Proof.
  intros H. unfold group. rewrite H.
  replace (String.length u + String.length v - String.length u)
    with (String.length v) by lia.
  now rewrite substring_at.
Qed.

Lemma parse_from_to_inv name f t :
  parse_from_to_versions_from_name name = Some (f, t) ->
  exists A B P C D E,
    f = normalize_version (A ++ "." ++ B ++ P)
    /\ t = normalize_version (C ++ "." ++ D ++ E)
    /\ numeric A = true /\ numeric B = true /\ patch_suffix P = true
    /\ numeric C = true /\ numeric D = true /\ patch_suffix E = true.
Proof.
  unfold parse_from_to_versions_from_name, search.
  destruct (search_from re_from_to 0 name) as [m|] eqn:Hs; [|discriminate].
  apply search_from_sound in Hs as (u & s1 & s2 & -> & HM).
  unfold re_from_to in HM. cbn [Match] in HM.
  destruct HM as (a1 & b1 & g1 & -> & H1 & a2 & b2 & g2 & -> & (g2' & H2 & Hg2)
                  & a3 & b3 & g3 & -> & H3 & g4 & H4 & Hm).
  apply chr_inv in H1 as [-> ->].
  apply Match_version_inv in H2 as [-> (A & B & P & Ea2 & HA & HB & HP)].
  subst g2. apply chr_inv in H3 as [-> ->].
  apply Match_version_inv in H4 as [-> (C & D & E & Eb3 & HC & HD & HE)].
  subst m.
  assert (G1 : group (u ++ (String "_" "" ++ a2 ++ String "_" "" ++ b3) ++ s2)
                 [(2, (0 + String.length u + String.length (String "_" "")
                       + String.length a2 + String.length (String "_" ""),
                       0 + String.length u + String.length (String "_" "")
                       + String.length a2 + String.length (String "_" "")
                       + String.length b3));
                  (1, (0 + String.length u + String.length (String "_" ""),
                       0 + String.length u + String.length (String "_" "")
                       + String.length a2))] 1 = Some a2).
  { replace (u ++ (String "_" "" ++ a2 ++ String "_" "" ++ b3) ++ s2)
      with ((u ++ "_") ++ a2 ++ (String "_" "" ++ b3) ++ s2)
      by (rewrite !append_assoc; reflexivity).
    apply group_of_match. cbn [assoc Nat.eqb]. rewrite length_append.
    reflexivity. }
  assert (G2 : group (u ++ (String "_" "" ++ a2 ++ String "_" "" ++ b3) ++ s2)
                 [(2, (0 + String.length u + String.length (String "_" "")
                       + String.length a2 + String.length (String "_" ""),
                       0 + String.length u + String.length (String "_" "")
                       + String.length a2 + String.length (String "_" "")
                       + String.length b3));
                  (1, (0 + String.length u + String.length (String "_" ""),
                       0 + String.length u + String.length (String "_" "")
                       + String.length a2))] 2 = Some b3).
  { replace (u ++ (String "_" "" ++ a2 ++ String "_" "" ++ b3) ++ s2)
      with ((((u ++ "_") ++ a2) ++ "_") ++ b3 ++ s2)
      by (rewrite !append_assoc; reflexivity).
    apply group_of_match. cbn [assoc Nat.eqb]. rewrite !length_append.
    reflexivity. }
  rewrite G1, G2. intros [= <- <-].
  exists A, B, P, C, D, E. subst a2 b3. now repeat split.
Qed.





Section MigrationDecision.

Variable h : platform.
Variable run_hpatchz : string -> store -> store * proc.
Variable relocate_audio : path -> store -> store * option exn.


End MigrationDecision.


(** ** C2: the group of a first part *)

Section Multipart.
Variable h : platform.
Variable run_7z : string -> store -> store * proc.

Lemma try_extract_multipart_run first s :
  exists tr,
    try_except
      (log INFO (Processing_multipart_archive first) ;;;
       extract_with_7z run_7z first)
      is_Exception (log WARNING (Failed_to_extract_multipart first)) s
    = (mkState (fst (run_7z first (fs s))) tr, Ret tt).
Proof.
  unfold extract_with_7z. run_unfold. cbn [fs trace].
  destruct (run_7z first (fs s)) as [st' []]; cbn; eexists; reflexivity.
Qed.

Lemma extract_multipart_and_unlink_run first s :
  exists tr,
    extract_multipart_and_unlink h run_7z first s
    = match collect_parts_for_first h first (fst (run_7z first (fs s))) with
      | Some parts =>
          (fold_left (unlink_step h) parts
             (mkState (fst (run_7z first (fs s))) tr), Ret tt)
      | None => (mkState (fst (run_7z first (fs s))) tr, Raise ValueError)
      end.
Proof.
  destruct (try_extract_multipart_run first s) as (tr & E).
  exists tr. unfold extract_multipart_and_unlink.
  unfold bind at 1. rewrite E. unfold bind at 1, get_fs at 1. cbn [fs].
  destruct (collect_parts_for_first h first _) as [parts|]; [|reflexivity].
  rewrite for_each_never_raises; [reflexivity|].
  intros x s'. now rewrite unlink_quietly_run.
Qed.

Lemma collect_numbered first st P ext zs :
  lower first = (P ++ "." ++ ext) ++ "." ++ zs ++ "1" ->
  mem_char "010" P = false -> is_ext ext = true -> all_zeros zs = true ->
  logical_name_from_first first = P ++ "." ++ ext
  /\ collect_parts_for_first h first st
     = option_map sorted (path_glob_cwd h ((P ++ "." ++ ext) ++ ".*") st).
Proof.
  intros Hl HP He Hz.
  pose proof (first_prefix_group P ext zs HP He Hz) as Hs.
  unfold logical_name_from_first, collect_parts_for_first.
  rewrite Hl, Hs. unfold group. cbn [assoc Nat.eqb]. rewrite Nat.sub_0_r.
  now rewrite substring_prefix.
Qed.

End Multipart.

Lemma lower_length s : String.length (lower s) = String.length s.
Proof. induction s as [|c s IH]; simpl; [reflexivity|now rewrite IH]. Qed.

Lemma drop_last_suffix Q R :
  drop_last (String.length R) (Q ++ R) = Q.
Proof.
  unfold drop_last. rewrite length_append.
  replace (String.length Q + String.length R - String.length R)
    with (String.length Q) by lia.
  apply substring_prefix.
Qed.

Lemma gmatch_lits_end w n : gmatch (lits w) n = true <-> n = w.
Proof.
  rewrite <- (app_nil_r (lits w)), gmatch_lits. cbn [gmatch]. split.
  - intros (n' & -> & H). apply String.eqb_eq in H. subst n'.
    now rewrite append_empty_r.
  - intros ->. exists "". now rewrite append_empty_r.
Qed.

(** A literal prefix, [.part], a star and [.rar]. *)
Lemma fnmatch_rar_parts h Q n :
  no_meta Q = true ->
  (fnmatch h n (Q ++ ".part*.rar") = true <->
   exists mid, normcase h n = normcase h Q ++ ".part" ++ mid ++ ".rar").
Proof.
  intros HQ. unfold fnmatch, fnmatchcase.
  assert (E : normcase h (Q ++ ".part*.rar")
              = (normcase h Q ++ ".part") ++ "*.rar").
  { destruct h; simpl; [rewrite lower_app|]; now rewrite append_assoc. }
  assert (Hm : no_meta (normcase h Q ++ ".part") = true).
  { rewrite no_meta_app. destruct h; simpl; [rewrite no_meta_lower|];
      now rewrite HQ. }
  rewrite E, length_append, (tokens_lits _ _ _ Hm).
  change (tokens (String.length "*.rar") "*.rar") with (GStar :: lits ".rar").
  rewrite gmatch_lits. split.
  - intros (n' & Hn & H). apply gmatch_star in H as (a & b & -> & H).
    apply gmatch_lits_end in H. subst b. exists a.
    now rewrite Hn, append_assoc.
  - intros (mid & Hn). exists (mid ++ ".rar"). split.
    + now rewrite Hn, append_assoc.
    + apply gmatch_star. exists mid, ".rar". split; [reflexivity|].
      now apply gmatch_lits_end.
Qed.

Lemma collect_rar h first st Q R :
  first = Q ++ R -> lower R = ".part1.rar" ->
  logical_name_from_first first = first
  /\ collect_parts_for_first h first st
     = option_map sorted (path_glob_cwd h (Q ++ ".part*.rar") st).
Proof.
  intros -> HR.
  assert (He : endswith ".part1.rar" (lower (Q ++ R)) = true).
  { apply endswith_iff. exists (lower Q). now rewrite lower_app, HR. }
  pose proof (first_prefix_none_rar _ He) as Hn.
  unfold logical_name_from_first, collect_parts_for_first.
  rewrite Hn, He. split; [reflexivity|].
  replace (String.length ".part1.rar") with (String.length R)
    by (now rewrite <- (lower_length R), HR).
  now rewrite drop_last_suffix.
Qed.

Lemma collect_Sorted h first st parts :
  collect_parts_for_first h first st = Some parts -> Sorted name_le parts.
Proof.
  unfold collect_parts_for_first.
  assert (Hs : forall o, option_map sorted o = Some parts -> Sorted name_le parts).
  { intros [l|]; [|discriminate]. intros [= <-]. apply sorted_Sorted. }
  assert (H1 : Some [first] = Some parts -> Sorted name_le parts).
  { intros [= <-]. repeat constructor. }
  destruct (search re_first_prefix (lower first)) as [m|].
  - destruct (group (lower first) m 1); [apply Hs|exact H1].
  - destruct (endswith ".part1.rar" (lower first)); [apply Hs|exact H1].
Qed.

(** A pattern that starts with a word free of wildcards has two stars in
    a row only if what follows the word has. *)
Lemma has_double_star_lits w t :
  no_meta w = true -> has_double_star (w ++ t) = has_double_star t.
Proof.
  induction w as [|c w IH]; intros H; [reflexivity|].
  cbn [no_meta] in H. apply andb_true_iff in H as [Hc Hw].
  specialize (IH Hw). unfold is_meta in Hc. apply negb_true_iff in Hc.
  apply orb_false_iff in Hc as [Hc _]. apply orb_false_iff in Hc as [Hc _].
  cbn [append has_double_star]. rewrite Hc. cbn [andb orb].
  destruct (w ++ t) as [|d u] eqn:E; [|exact IH].
  now rewrite <- IH.
Qed.

Lemma path_glob_cwd_lits h w t st :
  no_meta w = true -> has_double_star t = false ->
  path_glob_cwd h (w ++ t) st
  = Some (filter (fun n => fnmatch h n (w ++ t)) (cwd_names st)).
Proof.
  intros Hw Ht. unfold path_glob_cwd.
  now rewrite has_double_star_lits, Ht.
Qed.

Lemma normcase_app h a b : normcase h (a ++ b) = normcase h a ++ normcase h b.
Proof. destruct h; [apply lower_app|reflexivity]. Qed.

(** C2 (as the code has it): the group of a first part, when the glob
    returns one, is sorted by name.  For a numbered first part, whose
    lower-cased name is a base name [P.ext], a dot, zeros and a one, the
    shared base name is [P.ext] and the group is the result of the glob
    [P.ext.*]; for a first part [Q.part1.rar] it is the result of the
    glob [Q.part*.rar].  When the base name holds no wildcard, the glob
    returns the entries of the working directory whose name, after the
    case folding of the host, starts with the base name and a dot (is
    [Q.part], anything, [.rar]); the first part itself is among them
    when the host folds case or its name is in lower case.  Whatever the
    archiver does, the function then unlinks every member of the group,
    and a member that is a file whose removal is not refused is gone
    afterwards; when the glob raises, the function raises [ValueError]
    after the archiver ran and unlinks nothing. *)
Theorem multipart_group h run_7z first s :
  let st1 := fst (run_7z first (fs s)) in
  let found := collect_parts_for_first h first st1 in
  (forall parts, found = Some parts -> Sorted name_le parts)
  /\ (forall P ext zs,
        lower first = (P ++ "." ++ ext) ++ "." ++ zs ++ "1" ->
        mem_char "010" P = false -> is_ext ext = true ->
        all_zeros zs = true ->
        logical_name_from_first first = P ++ "." ++ ext
        /\ found = option_map sorted
                     (path_glob_cwd h ((P ++ "." ++ ext) ++ ".*") st1)
        /\ (no_meta (P ++ "." ++ ext) = true ->
            exists parts,
              found = Some parts
              /\ (forall n, In n parts <->
                    In n (cwd_names st1)
                    /\ prefix (normcase h ((P ++ "." ++ ext) ++ "."))
                              (normcase h n) = true)
              /\ (In first (cwd_names st1) ->
                  normcase h (lower first) = normcase h first ->
                  In first parts)))
  /\ (forall Q R,
        first = Q ++ R -> lower R = ".part1.rar" ->
        found = option_map sorted (path_glob_cwd h (Q ++ ".part*.rar") st1)
        /\ (no_meta Q = true ->
            exists parts,
              found = Some parts
              /\ (forall n, In n parts <->
                    In n (cwd_names st1)
                    /\ exists mid,
                         normcase h n = normcase h Q ++ ".part" ++ mid ++ ".rar")
              /\ (In first (cwd_names st1) ->
                  normcase h R = ".part1.rar" -> In first parts)))
  /\ (found = None ->
      exists tr,
        extract_multipart_and_unlink h run_7z first s
        = (mkState st1 tr, Raise ValueError))
  /\ (forall parts,
        found = Some parts ->
        exists s2,
          extract_multipart_and_unlink h run_7z first s = (s2, Ret tt)
          /\ forall n e c,
               In n parts -> lookup h [n] st1 = Some e -> e_kind e = KFile c ->
               undeletable h e = false -> exists_ h [n] (fs s2) = false).
Proof.
  intros st1 found. split; [apply collect_Sorted|]. split.
  { intros P ext zs Hl HP He Hz.
    destruct (collect_numbered h first st1 P ext zs Hl HP He Hz) as [Hlog Hcol].
    split; [exact Hlog|]. split; [exact Hcol|]. intros Hm.
    assert (Hin : forall n,
              In n (sorted (filter (fun n => fnmatch h n ((P ++ "." ++ ext) ++ ".*"))
                              (cwd_names st1)))
              <-> In n (cwd_names st1)
                  /\ prefix (normcase h ((P ++ "." ++ ext) ++ "."))
                            (normcase h n) = true).
    { intros n. rewrite sorted_in, filter_In. now rewrite fnmatch_prefix. }
    eexists. split; [|split; [exact Hin|]].
    - unfold found. rewrite Hcol, path_glob_cwd_lits by easy. reflexivity.
    - intros Hc Hn. apply Hin. split; [exact Hc|].
      rewrite <- Hn, Hl.
      replace ((P ++ "." ++ ext) ++ "." ++ zs ++ "1")
        with (((P ++ "." ++ ext) ++ ".") ++ zs ++ "1")
        by now rewrite append_assoc.
      rewrite (normcase_app h ((P ++ "." ++ ext) ++ ".")). apply prefix_app. }
  split.
  { intros Q R HQR HR.
    destruct (collect_rar h first st1 Q R HQR HR) as [_ Hcol].
    split; [exact Hcol|]. intros Hm.
    assert (Hin : forall n,
              In n (sorted (filter (fun n => fnmatch h n (Q ++ ".part*.rar"))
                              (cwd_names st1)))
              <-> In n (cwd_names st1)
                  /\ exists mid,
                       normcase h n = normcase h Q ++ ".part" ++ mid ++ ".rar").
    { intros n. rewrite sorted_in, filter_In. now rewrite fnmatch_rar_parts. }
    eexists. split; [|split; [exact Hin|]].
    - unfold found. rewrite Hcol, path_glob_cwd_lits by easy. reflexivity.
    - intros Hc Hn. apply Hin. split; [exact Hc|]. exists "1".
      now rewrite HQR, normcase_app, Hn. }
  destruct (extract_multipart_and_unlink_run h run_7z first s) as (tr & E).
  fold st1 in E. fold found in E. split.
  { intros Hg. rewrite Hg in E. now exists tr. }
  intros parts Hg. rewrite Hg in E. eexists. split; [exact E|].
  intros n e c Hin Hlk Hk Hu.
  eapply unlink_steps_gone; eassumption.
Qed.

Lemma multipart_group_witness :
  logical_name_from_first "update.zip.001" = "update.zip"
  /\ exists s2,
       extract_multipart_and_unlink Windows (fun _ st => (st, ExitNonZero))
         "update.zip.001"
         (mkState [mkEntry ["update.zip.003"] (KFile "c") false false false;
                   mkEntry ["other.zip"] (KFile "o") false false false;
                   mkEntry ["update.zip.001"] (KFile "a") false false false;
                   mkEntry ["update.zip.002"] (KFile "b") false false false] [])
       = (s2, Ret tt)
       /\ exists_ Windows ["update.zip.002"] (fs s2) = false.
Proof.
  destruct (multipart_group Windows (fun _ st => (st, ExitNonZero))
              "update.zip.001"
              (mkState [mkEntry ["update.zip.003"] (KFile "c") false false false;
                        mkEntry ["other.zip"] (KFile "o") false false false;
                        mkEntry ["update.zip.001"] (KFile "a") false false false;
                        mkEntry ["update.zip.002"] (KFile "b") false false false] []))
    as (_ & Hnum & _ & _ & Hrun).
  split.
  - exact (proj1 (Hnum "update" "zip" "00" eq_refl eq_refl eq_refl eq_refl)).
  - destruct (Hrun _ eq_refl) as (s2 & E & H).
    exists s2. split; [exact E|].
    apply (H "update.zip.002"
             (mkEntry ["update.zip.002"] (KFile "b") false false false) "b");
      try reflexivity.
    right. left. reflexivity.
Defined.

(** The group of the example of the specification: the three parts, in
    order, and not the other archive. *)
Example update_zip_group :
  collect_parts_for_first Windows "update.zip.001"
    [mkEntry ["update.zip.003"] (KFile "c") false false false;
     mkEntry ["other.zip"] (KFile "o") false false false;
     mkEntry ["update.zip.001"] (KFile "a") false false false;
     mkEntry ["update.zip.002"] (KFile "b") false false false]
  = Some ["update.zip.001"; "update.zip.002"; "update.zip.003"].
Proof. reflexivity. Qed.

(** A wildcard in the base name is read as one: the glob of [a[b].zip.*]
    takes the parts of [ab.zip] and not those of the first part it was
    made from; two stars in a row make the glob raise. *)
Example wildcards_in_the_base_name :
  collect_parts_for_first Posix "a[b].zip.001"
    [mkEntry ["a[b].zip.001"] (KFile "a") false false false;
     mkEntry ["ab.zip.001"] (KFile "b") false false false]
  = Some ["ab.zip.001"]
  /\ collect_parts_for_first Posix "a**b.zip.001"
       [mkEntry ["a**b.zip.001"] (KFile "a") false false false]
     = None.
Proof. split; reflexivity. Qed.

(** C2 as stated fails twice.  The group of a first part can hold a name
    that is no part of a multi-part archive, which [main] would
    otherwise take for a standalone archive; and it can miss the parts
    of its own archive, the first part included: on a host that does not
    fold case the glob, made from the lower-cased name, does not match
    the parts of [Update.ZIP.001], which all stay in place. *)
Lemma multipart_group_takes_other_archive :
  ~ (forall h first st parts n,
       is_multipart_first first = true ->
       collect_parts_for_first h first st = Some parts ->
       In n parts ->
       is_part_file_name n = true)
  /\ ~ (forall h run_7z first s,
          is_multipart_first first = true ->
          is_file h [first] (fs s) = true ->
          (forall d, In d (fs s) -> undeletable h d = false) ->
          run_7z first (fs s) = (fs s, Exit0) ->
          exists_ h [first]
            (fs (fst (extract_multipart_and_unlink h run_7z first s))) = false).
Proof.
  split.
  - intros H.
    specialize (H Windows "game.part1.rar"
      [mkEntry ["game.part1.rar"] (KFile "a") false false false;
       mkEntry ["game.part2.rar"] (KFile "b") false false false;
       mkEntry ["game.partners.rar"] (KFile "c") false false false]
      ["game.part1.rar"; "game.part2.rar"; "game.partners.rar"]
      "game.partners.rar" eq_refl eq_refl).
    assert (Hin : In "game.partners.rar"
                    ["game.part1.rar"; "game.part2.rar"; "game.partners.rar"])
      by (cbn; auto).
    specialize (H Hin). vm_compute in H. discriminate H.
  - intros H.
    specialize (H Posix (fun _ st => (st, Exit0)) "Update.ZIP.001"
      (mkState [mkEntry ["Update.ZIP.001"] (KFile "a") false false false;
                mkEntry ["Update.ZIP.002"] (KFile "b") false false false] [])
      eq_refl eq_refl).
    assert (Hu : forall d,
              In d [mkEntry ["Update.ZIP.001"] (KFile "a") false false false;
                    mkEntry ["Update.ZIP.002"] (KFile "b") false false false] ->
              undeletable Posix d = false).
    { intros d [<-|[<-|[]]]; reflexivity. }
    specialize (H Hu eq_refl). vm_compute in H. discriminate H.
Qed.

(** ** C7: what the archiver is run on *)

Lemma keeps_ret {A} (a : A) : keeps (ret a).
Proof. now intros s. Qed.

Lemma keeps_raise {A} e : keeps (@raise A e).
Proof. now intros s. Qed.

Lemma keeps_get_fs : keeps get_fs.
Proof. now intros s. Qed.

Lemma keeps_put_fs st : keeps (put_fs st).
Proof. now intros s. Qed.

Lemma keeps_emit e : event_ok e = true -> keeps (emit e).
Proof. intros He s Hs. now constructor. Qed.

Lemma keeps_log l m :
  (forall a, m <> Processing_archive a) -> keeps (log l m).
Proof. intros H. apply keeps_emit. destruct m; try reflexivity. now destruct (H name). Qed.

Lemma keeps_bind {A B} (m : M A) (k : A -> M B) :
  keeps m -> (forall a, keeps (k a)) -> keeps (bind m k).
Proof.
  intros Hm Hk s Hs. unfold bind. specialize (Hm s Hs).
  destruct (m s) as [s' [a|e]]; [|exact Hm]. now apply Hk.
Qed.

Lemma keeps_try_except {A} (body handler : M A) caught :
  keeps body -> keeps handler -> keeps (try_except body caught handler).
Proof.
  intros Hb Hh s Hs. unfold try_except. specialize (Hb s Hs).
  destruct (body s) as [s' [a|e]]; [exact Hb|].
  destruct (caught e); [now apply Hh|exact Hb].
Qed.

Lemma keeps_for_fold {A X} (body : X -> A -> M A) l acc :
  Forall (fun x => forall a, keeps (body x a)) l -> keeps (for_fold body l acc).
Proof.
  intros H. revert acc. induction H as [|x l Hx Hl IH]; intros acc.
  - apply keeps_ret.
  - cbn [for_fold]. apply keeps_bind; [apply Hx|apply IH].
Qed.

Lemma keeps_for_each {X} (body : X -> M unit) l :
  Forall (fun x => keeps (body x)) l -> keeps (for_each body l).
Proof.
  intros H. apply keeps_for_fold. eapply Forall_impl; [|exact H].
  intros x Hx _. exact Hx.
Qed.

Lemma keeps_for_each_all {X} (body : X -> M unit) l :
  (forall x, keeps (body x)) -> keeps (for_each body l).
Proof. intros H. apply keeps_for_each. now apply Forall_forall. Qed.

Lemma keeps_os_call f : keeps (os_call f).
Proof. intros s Hs. unfold os_call. now destruct (f (fs s)). Qed.

Ltac keeps_step :=
  first
    [ apply keeps_ret | apply keeps_raise | apply keeps_get_fs
    | apply keeps_put_fs | apply keeps_os_call
    | apply keeps_log; discriminate
    | apply keeps_emit; reflexivity
    | apply keeps_bind; [|intros ?]
    | apply keeps_try_except
    | apply keeps_for_each_all; intros ? ].

Ltac keeps_auto :=
  repeat (keeps_step
          || match goal with
             | |- keeps (if ?b then _ else _) => destruct b
             | |- keeps (match ?x with _ => _ end) => destruct x
             end).

Section Keeps.
Variable h : platform.
Variable run_7z : string -> store -> store * proc.
Variable run_hpatchz : string -> store -> store * proc.
Variable relocate_audio : path -> store -> store * option exn.
Variable installed_version : path -> store -> option string.

Lemma keeps_unlink_quietly p : keeps (unlink_quietly h p).
Proof. unfold unlink_quietly. keeps_auto. Qed.

Lemma keeps_replace_text_in_file p : keeps (replace_text_in_file h p).
Proof. unfold replace_text_in_file. keeps_auto. Qed.

Lemma keeps_delete_entry line : keeps (delete_entry h line).
Proof. unfold delete_entry. keeps_auto. Qed.

Lemma keeps_delete_files : keeps (delete_files h).
Proof.
  unfold delete_files. keeps_auto; try apply keeps_replace_text_in_file;
    try apply keeps_delete_entry; try apply keeps_unlink_quietly.
Qed.

Lemma keeps_hdiff_entry line patched :
  keeps (hdiff_entry h run_hpatchz line patched).
Proof.
  unfold hdiff_entry. keeps_auto; try apply keeps_unlink_quietly.
Qed.

Lemma keeps_apply_hdiff : keeps (apply_hdiff h run_hpatchz).
Proof.
  unfold apply_hdiff. keeps_auto; try apply keeps_replace_text_in_file;
    try apply keeps_unlink_quietly.
  apply keeps_for_fold. apply Forall_forall. intros ? _ ?.
  apply keeps_hdiff_entry.
Qed.

Lemma keeps_extract_with_7z a :
  event_ok (Exec7z a) = true -> keeps (extract_with_7z run_7z a).
Proof.
  intros Ha. unfold extract_with_7z. apply keeps_bind; [apply keeps_get_fs|].
  intros st. apply keeps_bind; [now apply keeps_emit|]. intros _. keeps_auto.
Qed.

Lemma keeps_migrate game_folder vf vt :
  keeps (migrate_audio_if_needed h relocate_audio game_folder vf vt).
Proof. unfold migrate_audio_if_needed. keeps_auto. Qed.

Lemma keeps_process_logical_archive name game_folder :
  keeps (process_logical_archive h run_hpatchz relocate_audio name game_folder).
Proof.
  unfold process_logical_archive.
  apply keeps_bind; [|intros _; apply keeps_bind;
                       [apply keeps_apply_hdiff|intros ?; apply keeps_ret]].
  destruct (needs_migration name); [|apply keeps_delete_files].
  apply keeps_bind; [apply keeps_migrate|]. intros b. keeps_auto.
Qed.

Lemma keeps_extract_multipart_and_process first game_folder :
  is_multipart_first first = true ->
  keeps (extract_multipart_and_process h run_7z run_hpatchz relocate_audio
           first game_folder).
Proof.
  intros Hf. unfold extract_multipart_and_process.
  apply keeps_bind; [|intros _; apply keeps_process_logical_archive].
  unfold extract_multipart_and_unlink.
  apply keeps_bind.
  - apply keeps_try_except; [|keeps_auto].
    apply keeps_bind; [keeps_auto|]. intros _. apply keeps_extract_with_7z.
    cbn [event_ok]. now rewrite Hf, orb_true_r.
  - intros _. keeps_auto.
Qed.

Lemma first_parts_are_first st first :
  In first (get_multipart_first_parts h st) -> is_multipart_first first = true.
Proof.
  unfold get_multipart_first_parts. rewrite sorted_in, filter_In. now intros [_ H].
Qed.

Lemma keeps_extract_all_multipart game_folder :
  keeps (extract_all_multipart_and_process h run_7z run_hpatchz relocate_audio
           game_folder).
Proof.
  unfold extract_all_multipart_and_process.
  apply keeps_bind; [apply keeps_get_fs|]. intros st.
  apply keeps_for_fold. apply Forall_forall. intros first Hin patched_any.
  apply keeps_try_except; [|keeps_auto].
  apply keeps_bind; [|intros ?; apply keeps_ret].
  apply keeps_extract_multipart_and_process.
  eapply first_parts_are_first; eassumption.
Qed.

Lemma keeps_extract_single_archive a :
  is_part_file_name a = false -> keeps (extract_single_archive h run_7z a).
Proof.
  intros Ha. unfold extract_single_archive.
  apply keeps_bind; [|intros _; apply keeps_unlink_quietly].
  apply keeps_try_except; [|keeps_auto].
  apply keeps_bind.
  - apply keeps_emit. cbn [event_ok]. now rewrite Ha.
  - intros _. apply keeps_extract_with_7z. cbn [event_ok]. now rewrite Ha.
Qed.

Lemma single_archives_not_parts st a :
  In a (single_archives h st) -> is_part_file_name a = false.
Proof.
  unfold single_archives. rewrite filter_In. intros [_ H].
  now apply negb_true_iff in H.
Qed.

Lemma keeps_cleanup_aux_files game_folder : keeps (cleanup_aux_files h game_folder).
Proof. unfold cleanup_aux_files. keeps_auto. Qed.

Lemma keeps_cleanup_empty_dirs game_folder : keeps (cleanup_empty_dirs h game_folder).
Proof. unfold cleanup_empty_dirs. keeps_auto. Qed.

Lemma keeps_detect_game_folder : keeps (detect_game_folder h).
Proof. unfold detect_game_folder. keeps_auto. Qed.

Lemma keeps_check_tools : keeps (check_tools h).
Proof. unfold check_tools. keeps_auto. Qed.

Lemma keeps_main :
  keeps (main h run_7z run_hpatchz relocate_audio installed_version).
Proof.
  unfold main.
  apply keeps_bind; [apply keeps_detect_game_folder|]. intros game_folder.
  apply keeps_bind; [apply keeps_check_tools|]. intros _.
  apply keeps_bind; [apply keeps_extract_all_multipart|]. intros multi.
  apply keeps_bind; [apply keeps_get_fs|]. intros st.
  apply keeps_bind.
  { apply keeps_for_fold. apply Forall_forall. intros a Hin patch_done.
    apply keeps_bind.
    - apply keeps_extract_single_archive.
      eapply single_archives_not_parts; eassumption.
    - intros _. apply keeps_bind; [apply keeps_process_logical_archive|].
      intros ?. apply keeps_ret. }
  intros patch_done. apply keeps_bind.
  { destruct patch_done; [|apply keeps_ret].
    apply keeps_bind.
    - unfold detect_game_version_after_patch. keeps_auto.
    - intros gv. apply keeps_bind; [|intros _; apply keeps_cleanup_aux_files].
      unfold write_config_ini. keeps_auto. }
  intros _. apply keeps_bind; [apply keeps_cleanup_empty_dirs|].
  intros _. keeps_auto.
Qed.

End Keeps.

Lemma part_name_classified n :
  numbered_part_name n \/ rar_part_name n -> is_part_file_name n = true.
Proof.
  unfold is_part_file_name.
  destruct (matches re_first_part (lower n)); [reflexivity|].
  destruct (endswith ".part1.rar" (lower n)); [reflexivity|].
  intros [(u & ext & zs & ds & -> & He & Hz & Hd) | (u & ds & -> & Hd)].
  - pose proof (numbered_part_matches u ext zs ds "" He Hz Hd eq_refl) as H.
    rewrite append_empty_r in H. now rewrite H.
  - destruct (matches re_numbered_part _); [reflexivity|].
    pose proof (rar_part_matches u ds "" Hd eq_refl) as H.
    change (".rar" ++ "") with ".rar" in H. now rewrite H.
Qed.

(** C7: a file whose name matches a pattern for parts is classified as
    a part by [is_part_file_name]; it is never among the standalone
    archives that [main] enumerates, whatever the working directory
    holds; in a run of [main] it is never processed as a standalone
    archive, and when it is not a first part the archiver is never run
    on it. *)
Theorem part_files_never_standalone
    h run_7z run_hpatchz relocate_audio installed_version n st :
  numbered_part_name n \/ rar_part_name n ->
  is_part_file_name n = true
  /\ ~ In n (single_archives h st)
  /\ ~ In (Log INFO (Processing_archive n))
         (trace (fst (main h run_7z run_hpatchz relocate_audio
                        installed_version (mkState st []))))
  /\ (is_multipart_first n = false ->
      ~ In (Exec7z n)
          (trace (fst (main h run_7z run_hpatchz relocate_audio
                         installed_version (mkState st []))))).
Proof.
  intros Hn. pose proof (part_name_classified n Hn) as Hp.
  split; [exact Hp|]. split.
  { intros Hin. apply single_archives_not_parts in Hin. congruence. }
  pose proof (keeps_main h run_7z run_hpatchz relocate_audio installed_version
                (mkState st []) (Forall_nil _)) as Hk.
  unfold trace_ok in Hk. rewrite Forall_forall in Hk. split.
  - intros Hin. specialize (Hk _ Hin). cbn [event_ok] in Hk.
    now rewrite Hp in Hk.
  - intros Hf Hin. specialize (Hk _ Hin). cbn [event_ok] in Hk.
    now rewrite Hp, Hf in Hk.
Qed.

Lemma part_files_never_standalone_witness :
  is_part_file_name "update.zip.002" = true
  /\ ~ In "update.zip.002"
         (single_archives Windows
            [mkEntry ["update.zip.002"] (KFile "b") false false false;
             mkEntry ["update.zip"] (KFile "a") false false false]).
Proof.
  pose proof (part_files_never_standalone Windows
                (fun _ st => (st, Exit0)) (fun _ st => (st, Exit0))
                (fun _ st => (st, None)) (fun _ _ => None)
                "update.zip.002"
                [mkEntry ["update.zip.002"] (KFile "b") false false false;
                 mkEntry ["update.zip"] (KFile "a") false false false]
                (or_introl (ex_intro _ "update"
                   (ex_intro _ "zip" (ex_intro _ "00" (ex_intro _ "2"
                      (conj eq_refl (conj eq_refl (conj eq_refl eq_refl))))))))) as H.
  split; [exact (proj1 H)|exact (proj1 (proj2 H))].
Defined.

(** ** C9: a run without archives *)

Section Cleanup.
Variable h : platform.

Lemma filter_length_le {A} (f : A -> bool) l :
  List.length (filter f l) <= List.length l.
Proof. induction l as [|x l IH]; simpl; [lia|]. destruct (f x); simpl; lia. Qed.

Lemma filter_length_lt {A} (f : A -> bool) l x :
  In x l -> f x = false -> List.length (filter f l) < List.length l.
Proof.
  induction l as [|y l IH]; simpl; [easy|]. intros [->|Hin] Hx.
  - rewrite Hx. pose proof (filter_length_le f l). lia.
  - specialize (IH Hin Hx). destruct (f y); simpl; lia.
Qed.

Lemma rmdir_shorter p st st' :
  rmdir h p st = Some st' -> List.length st' < List.length st.
Proof.
  unfold rmdir. destruct p as [|a p]; [discriminate|].
  destruct (lookup h (a :: p) st) as [e|] eqn:E; [|discriminate].
  destruct (e_kind e); [discriminate|].
  destruct (undeletable h e || has_children h (a :: p) st); [discriminate|].
  intros [= <-]. unfold remove_path.
  apply (filter_length_lt _ _ e).
  - unfold lookup in E. now apply find_some in E.
  - now rewrite (lookup_path _ _ _ _ E).
Qed.

Lemma rmdir_incl p st st' : rmdir h p st = Some st' -> incl st' st.
Proof.
  unfold rmdir. destruct p as [|a p]; [discriminate|].
  destruct (lookup h (a :: p) st) as [e|]; [|discriminate].
  destruct (e_kind e); [discriminate|].
  destruct (undeletable h e || has_children h (a :: p) st); [discriminate|].
  intros [= <-]. apply incl_filter.
Qed.

Lemma pass_rel_refl acc : pass_rel acc acc.
Proof. split; [apply incl_refl|now left]. Qed.

Lemma pass_rel_trans a b c : pass_rel a b -> pass_rel b c -> pass_rel a c.
Proof.
  intros [Hi1 H1] [Hi2 H2]. split; [eapply incl_tran; eassumption|].
  destruct H2 as [->|[Hc Hl2]]; [exact H1|]. right. split; [exact Hc|].
  destruct H1 as [->|[_ Hl1]]; lia.
Qed.

Lemma pass_step_rel acc p : pass_rel acc (pass_step h acc p).
Proof.
  unfold pass_step. destruct (is_dir h p (fst acc)); [|apply pass_rel_refl].
  destruct (rmdir h p (fst acc)) as [st'|] eqn:E; [|apply pass_rel_refl].
  split; cbn [fst snd].
  - eapply rmdir_incl; eassumption.
  - right. split; [reflexivity|]. eapply rmdir_shorter; eassumption.
Qed.

Lemma pass_steps_rel ps acc : pass_rel acc (fold_left (pass_step h) ps acc).
Proof.
  revert acc. induction ps as [|p ps IH]; intros acc; [apply pass_rel_refl|].
  cbn [fold_left]. eapply pass_rel_trans; [apply pass_step_rel|apply IH].
Qed.

Lemma rmdir_pass_rel game_folder st :
  pass_rel (st, false) (rmdir_pass h game_folder st).
Proof. unfold rmdir_pass. apply (pass_steps_rel _ (st, false)). Qed.

(** A pass that reports a removal leaves fewer entries; one that reports
    none leaves the store as it was. *)
Lemma rmdir_pass_cases game_folder st :
  incl (fst (rmdir_pass h game_folder st)) st
  /\ (rmdir_pass h game_folder st = (st, false)
      \/ (snd (rmdir_pass h game_folder st) = true
          /\ List.length (fst (rmdir_pass h game_folder st)) < List.length st)).
Proof. exact (rmdir_pass_rel game_folder st). Qed.

(** The loop ends by its [break]: with one pass more than there are
    entries, the last pass run removes nothing. *)
Lemma cleanup_loop_settles fuel game_folder st :
  List.length st < fuel ->
  rmdir_pass h game_folder (cleanup_loop h fuel game_folder st)
  = (cleanup_loop h fuel game_folder st, false)
  /\ incl (cleanup_loop h fuel game_folder st) st.
Proof.
  revert st. induction fuel as [|fuel IH]; intros st Hf; [lia|].
  cbn [cleanup_loop].
  destruct (rmdir_pass_cases game_folder st) as [Hincl [E|[Hr Hl]]].
  - rewrite E. split; [exact E|apply incl_refl].
  - destruct (rmdir_pass h game_folder st) as [st' removed] eqn:E.
    cbn [fst snd] in *. subst removed.
    destruct (IH st' ltac:(lia)) as [H1 H2]. split; [exact H1|].
    eapply incl_tran; eassumption.
Qed.

(** *** What a pass leaves alone *)

Lemma strictly_under_eqb p q q' :
  path_eqb h q q' = true -> strictly_under h p q = strictly_under h p q'.
Proof.
  intros E. unfold strictly_under.
  now rewrite (is_prefix_eqb_r h p _ _ E), (path_eqb_eqb_r h p _ _ E).
Qed.

Lemma rmdir_keeps_lookup p q st st' :
  rmdir h p st = Some st' -> path_eqb h q p = false ->
  lookup h q st' = lookup h q st.
Proof.
  unfold rmdir. destruct p as [|a p]; [discriminate|].
  destruct (lookup h (a :: p) st) as [e|]; [|discriminate].
  destruct (e_kind e); [discriminate|].
  destruct (undeletable h e || has_children h (a :: p) st); [discriminate|].
  intros [= <-] Hq. now rewrite lookup_remove_path, Hq.
Qed.

Lemma pass_steps_keep_lookup game_folder q ps acc :
  strictly_under h game_folder q = false ->
  Forall (fun p => strictly_under h game_folder p = true) ps ->
  lookup h q (fst (fold_left (pass_step h) ps acc)) = lookup h q (fst acc).
Proof.
  intros Hq Hps. revert acc. induction Hps as [|p ps Hp _ IH]; intros acc;
    [reflexivity|].
  cbn [fold_left]. rewrite IH. unfold pass_step.
  destruct (is_dir h p (fst acc)); [|reflexivity].
  destruct (rmdir h p (fst acc)) as [st'|] eqn:E; [|reflexivity].
  cbn [fst]. eapply rmdir_keeps_lookup; [exact E|].
  destruct (path_eqb h q p) eqn:Eq; [|reflexivity].
  rewrite (strictly_under_eqb game_folder _ _ Eq) in Hq. congruence.
Qed.

Lemma insert_path_in x y l : In y (insert_path h x l) <-> y = x \/ In y l.
Proof.
  induction l as [|z l IH]; simpl; [intuition|].
  destruct (path_ltb h x z); simpl; [intuition|]. rewrite IH. intuition.
Qed.

Lemma sorted_paths_in y l : In y (sorted_paths h l) <-> In y l.
Proof.
  induction l as [|x l IH]; simpl; [reflexivity|].
  rewrite insert_path_in, IH. intuition.
Qed.

Lemma rmdir_pass_keeps_lookup game_folder q st :
  strictly_under h game_folder q = false ->
  lookup h q (fst (rmdir_pass h game_folder st)) = lookup h q st.
Proof.
  intros Hq. unfold rmdir_pass.
  apply (pass_steps_keep_lookup game_folder q _ (st, false) Hq).
  apply Forall_forall. intros p Hp. apply in_rev in Hp.
  rewrite sorted_paths_in in Hp. eapply rglob_all_under; eassumption.
Qed.

Lemma cleanup_loop_keeps_lookup fuel game_folder q st :
  strictly_under h game_folder q = false ->
  lookup h q (cleanup_loop h fuel game_folder st) = lookup h q st.
Proof.
  intros Hq. revert st. induction fuel as [|fuel IH]; intros st; [reflexivity|].
  cbn [cleanup_loop].
  pose proof (rmdir_pass_keeps_lookup game_folder q st Hq) as H.
  destruct (rmdir_pass h game_folder st) as [st' removed]. cbn [fst] in H.
  destruct removed; [now rewrite IH|exact H].
Qed.

Lemma not_strictly_under_short a b :
  strictly_under h [a] [b] = false.
Proof.
  unfold strictly_under. cbn [is_prefix path_eqb].
  destruct (name_eqb h a b); reflexivity.
Qed.

Lemma cwd_names_incl st st' : incl st' st -> incl (cwd_names st') (cwd_names st).
Proof.
  intros H n. unfold cwd_names. rewrite !in_flat_map.
  intros (e & He & Hn). exists e. split; [now apply H|exact Hn].
Qed.

Lemma no_archives_incl st st' :
  incl st' st -> no_archives h st = true -> no_archives h st' = true.
Proof.
  unfold no_archives. rewrite !forallb_forall. intros Hi H n Hn.
  apply H. eapply cwd_names_incl; eassumption.
Qed.

End Cleanup.

Section Rerun.
Variable h : platform.
Variable run_7z : string -> store -> store * proc.
Variable run_hpatchz : string -> store -> store * proc.
Variable relocate_audio : path -> store -> store * option exn.
Variable installed_version : path -> store -> option string.

Lemma filter_nil_all {A} (f : A -> bool) l :
  (forall x, In x l -> f x = false) -> filter f l = [].
Proof.
  induction l as [|x l IH]; intros H; [reflexivity|]. simpl.
  rewrite (H x (or_introl eq_refl)). apply IH. intros y Hy. apply H. now right.
Qed.

Lemma no_archives_spec st n :
  no_archives h st = true -> In n (cwd_names st) -> archive_like h n = false.
Proof.
  unfold no_archives. rewrite forallb_forall. intros H Hn.
  apply negb_true_iff. now apply H.
Qed.

Lemma no_first_parts st :
  no_archives h st = true -> get_multipart_first_parts h st = [].
Proof.
  intros H. unfold get_multipart_first_parts. rewrite filter_nil_all; [reflexivity|].
  intros n Hn. unfold cwd_file_names in Hn. apply filter_In in Hn as [Hn _].
  pose proof (no_archives_spec st n H Hn) as Ha. unfold archive_like in Ha.
  apply orb_false_iff in Ha as [Ha _]. apply orb_false_iff in Ha as [Ha _].
  apply orb_false_iff in Ha as [Ha _]. exact Ha.
Qed.

Lemma no_single_archives st :
  no_archives h st = true -> single_archives h st = [].
Proof.
  intros H. unfold single_archives.
  assert (Hg : forall pat, In pat ["*.zip"; "*.7z"; "*.rar"] -> glob_cwd h pat st = []).
  { intros pat Hpat. unfold glob_cwd. apply filter_nil_all. intros n Hn.
    pose proof (no_archives_spec st n H Hn) as Ha. unfold archive_like in Ha.
    apply orb_false_iff in Ha as [Ha H3]. apply orb_false_iff in Ha as [Ha H2].
    apply orb_false_iff in Ha as [_ H1].
    destruct Hpat as [<-|[<-|[<-|[]]]]; rewrite ?H1, ?H2, ?H3; apply andb_false_r. }
  rewrite !Hg by (simpl; auto). reflexivity.
Qed.

Lemma Path_of_name_7z : Path_of h "7z.exe" = ["7z.exe"].
Proof. destruct h; reflexivity. Qed.

Lemma Path_of_name_hpatchz : Path_of h "hpatchz.exe" = ["hpatchz.exe"].
Proof. destruct h; reflexivity. Qed.

Lemma Path_of_game_folder folder :
  In folder GAME_FOLDERS -> Path_of h folder = [folder].
Proof.
  intros [<-|[<-|[<-|[<-|[]]]]]; destruct h; reflexivity.
Qed.

Lemma check_tools_pass s :
  exists_ h ["7z.exe"] (fs s) = true -> exists_ h ["hpatchz.exe"] (fs s) = true ->
  check_tools h s = (s, Ret tt).
Proof.
  intros H1 H2. unfold check_tools, for_each, TOOLS. cbn [for_fold].
  run_unfold. rewrite Path_of_name_7z, H1. cbn [negb].
  rewrite Path_of_name_hpatchz, H2. reflexivity.
Qed.

Lemma main_without_archives s folder :
  find (fun f => is_dir h (Path_of h f) (fs s)) GAME_FOLDERS = Some folder ->
  exists_ h ["7z.exe"] (fs s) = true -> exists_ h ["hpatchz.exe"] (fs s) = true ->
  no_archives h (fs s) = true ->
  main h run_7z run_hpatchz relocate_audio installed_version s
  = (mkState (cleanup_loop h (S (List.length (fs s))) (Path_of h folder) (fs s))
       (Log INFO Patching_finished
        :: Log INFO (Detected_game_folder folder) :: trace s), Ret tt).
Proof.
  intros Hgf H7 Hh Hna. unfold main.
  unfold bind at 1. unfold detect_game_folder. unfold bind at 1, get_fs at 1.
  rewrite Hgf. unfold bind at 1, log at 1, emit at 1. unfold ret at 1.
  set (s1 := mkState (fs s) (Log INFO (Detected_game_folder folder) :: trace s)).
  unfold bind at 1. rewrite (check_tools_pass s1) by assumption.
  unfold bind at 1. unfold extract_all_multipart_and_process.
  unfold bind at 1, get_fs at 1. rewrite (no_first_parts (fs s1)) by assumption.
  cbn [for_fold]. unfold ret at 1.
  unfold bind at 1, get_fs at 1. rewrite (no_single_archives (fs s1)) by assumption.
  cbn [for_fold]. unfold bind at 1, ret at 1. unfold bind at 1, ret at 1.
  unfold cleanup_empty_dirs. run_unfold. reflexivity.
Qed.

Lemma find_ext_in {A} (f g : A -> bool) l :
  (forall x, In x l -> f x = g x) -> find f l = find g l.
Proof.
  induction l as [|x l IH]; intros H; [reflexivity|]. simpl.
  rewrite (H x (or_introl eq_refl)). destruct (g x); [reflexivity|].
  apply IH. intros y Hy. apply H. now right.
Qed.

Lemma node_kind_after_cleanup fuel folder a st :
  node_kind h [a] (cleanup_loop h fuel [folder] st) = node_kind h [a] st.
Proof.
  unfold node_kind. rewrite cleanup_loop_keeps_lookup; [reflexivity|].
  apply not_strictly_under_short.
Qed.

End Rerun.

(** C9 (as the code has it): on a tree with a detected game folder, both
    tools present and no archive or part name in the working directory,
    [main] runs no tool, logs no warning and no error, removes only
    directories left empty below the game folder, where the loop ends by
    a pass that removes nothing, and logs the finished message; a second
    run right after it finds the same conditions, changes nothing and
    finishes as well. *)
Theorem rerun_without_archives
    h run_7z run_hpatchz relocate_audio installed_version s folder :
  find (fun f => is_dir h (Path_of h f) (fs s)) GAME_FOLDERS = Some folder ->
  exists_ h ["7z.exe"] (fs s) = true ->
  exists_ h ["hpatchz.exe"] (fs s) = true ->
  no_archives h (fs s) = true ->
  exists s1,
    main h run_7z run_hpatchz relocate_audio installed_version s = (s1, Ret tt)
    /\ trace s1 = Log INFO Patching_finished
                  :: Log INFO (Detected_game_folder folder) :: trace s
    /\ fs s1 = cleanup_loop h (S (List.length (fs s))) (Path_of h folder) (fs s)
    /\ rmdir_pass h (Path_of h folder) (fs s1) = (fs s1, false)
    /\ incl (fs s1) (fs s)
    /\ main h run_7z run_hpatchz relocate_audio installed_version s1
       = (mkState (fs s1)
            (Log INFO Patching_finished
             :: Log INFO (Detected_game_folder folder) :: trace s1), Ret tt).
Proof.
  intros Hgf H7 Hh Hna.
  pose proof (main_without_archives h run_7z run_hpatchz relocate_audio
                installed_version s folder Hgf H7 Hh Hna) as Hrun.
  eexists. split; [exact Hrun|]. cbn [fs trace].
  split; [reflexivity|]. split; [reflexivity|].
  destruct (cleanup_loop_settles h (S (List.length (fs s))) (Path_of h folder)
              (fs s) ltac:(lia)) as [Hfix Hincl].
  split; [exact Hfix|]. split; [exact Hincl|].
  assert (Hin : In folder GAME_FOLDERS) by (apply find_some in Hgf; tauto).
  rewrite (Path_of_game_folder h folder Hin) in *.
  set (st1 := cleanup_loop h (S (List.length (fs s))) [folder] (fs s)) in *.
  rewrite (main_without_archives h run_7z run_hpatchz relocate_audio
             installed_version _ folder).
  - cbn [fs trace]. rewrite (Path_of_game_folder h folder Hin).
    cbn [cleanup_loop]. now rewrite Hfix.
  - cbn [fs]. rewrite <- Hgf. apply find_ext_in. intros f Hf.
    rewrite (Path_of_game_folder h f Hf). unfold is_dir, st1.
    now rewrite node_kind_after_cleanup.
  - cbn [fs]. unfold exists_, st1. rewrite node_kind_after_cleanup. exact H7.
  - cbn [fs]. unfold exists_, st1. rewrite node_kind_after_cleanup. exact Hh.
  - cbn [fs]. eapply no_archives_incl; eassumption.
Qed.

Lemma rerun_without_archives_witness :
  exists s1,
    main Windows (fun _ st => (st, Exit0)) (fun _ st => (st, Exit0))
      (fun _ st => (st, None)) (fun _ _ => None)
      (mkState [mkEntry ["GenshinImpact_Data"] KDir false false false;
                mkEntry ["GenshinImpact_Data"; "Persistent"] KDir false false false;
                mkEntry ["GenshinImpact_Data"; "app.info"] (KFile "x") false false false;
                mkEntry ["7z.exe"] (KFile "") false false false;
                mkEntry ["hpatchz.exe"] (KFile "") false false false;
                mkEntry ["config.ini"] (KFile "") false false false] [])
    = (s1, Ret tt)
    /\ trace s1 = [Log INFO Patching_finished;
                   Log INFO (Detected_game_folder "GenshinImpact_Data")].
Proof.
  destruct (rerun_without_archives Windows
              (fun _ st => (st, Exit0)) (fun _ st => (st, Exit0))
              (fun _ st => (st, None)) (fun _ _ => None)
              (mkState [mkEntry ["GenshinImpact_Data"] KDir false false false;
                        mkEntry ["GenshinImpact_Data"; "Persistent"] KDir false false false;
                        mkEntry ["GenshinImpact_Data"; "app.info"] (KFile "x") false false false;
                        mkEntry ["7z.exe"] (KFile "") false false false;
                        mkEntry ["hpatchz.exe"] (KFile "") false false false;
                        mkEntry ["config.ini"] (KFile "") false false false] [])
              "GenshinImpact_Data" eq_refl eq_refl eq_refl eq_refl)
    as (s1 & E & Ht & _).
  exists s1. split; [exact E|exact Ht].
Defined.

(** C9 as stated fails for a run that follows a run which applied a
    patch: that run ends by removing the tools, so the next one, on a
    tree without manifest and without archive, logs an error at the
    check of the tools and exits before the finished message. *)
Lemma second_run_after_patch_stops :
  let run_7z := fun (_ : string) (st : store) =>
        ((st ++ [mkEntry ["hdifffiles.txt"] (KFile "data.bin") false false false;
                 mkEntry ["data.bin.hdiff"] (KFile "delta") false false false])%list,
         Exit0) in
  let run_hpatchz := fun (_ : string) (st : store) => (st, Exit0) in
  let relocate_audio := fun (_ : path) (st : store) => (st, @None exn) in
  let installed_version := fun (_ : path) (_ : store) => Some "3.6.0" in
  let s0 := mkState [mkEntry ["GenshinImpact_Data"] KDir false false false;
                     mkEntry ["GenshinImpact_Data"; "app.info"] (KFile "x") false false false;
                     mkEntry ["7z.exe"] (KFile "") false false false;
                     mkEntry ["hpatchz.exe"] (KFile "") false false false;
                     mkEntry ["data.bin"] (KFile "old") false false false;
                     mkEntry ["update.zip"] (KFile "zip") false false false] [] in
  let run1 := main Windows run_7z run_hpatchz relocate_audio installed_version s0 in
  let s1 := mkState (fs (fst run1)) [] in
  snd run1 = Ret tt
  /\ hd_error (trace (fst run1)) = Some (Log INFO Patching_finished)
  /\ no_archives Windows (fs s1) = true
  /\ exists_ Windows delete_txt (fs s1) = false
  /\ exists_ Windows hdifffiles_txt (fs s1) = false
  /\ main Windows run_7z run_hpatchz relocate_audio installed_version s1
     = (mkState (fs s1)
          [Log ERROR (Tool_missing "7z.exe");
           Log INFO (Detected_game_folder "GenshinImpact_Data")],
        Raise SystemExit).
Proof. vm_compute. repeat split; reflexivity. Qed.

(** * Further properties *)

(** ** Versions are well formed *)

(** X1: every version that [parse_from_to_versions_from_name] returns has
    exactly three numeric components, so the conversions to [int] in
    [process_logical_archive] and the three-way unpacking in
    [migrate_audio_if_needed] succeed on it, and the migration decision
    is the comparison of the two pairs. *)
Theorem parsed_versions_are_well_formed name f t :
  parse_from_to_versions_from_name name = Some (f, t) ->
  three_numeric f /\ three_numeric t
  /\ truthy f = true /\ truthy t = true
  /\ exists fa fb fc ta tb tc,
       map py_int (split_on "." f) = [Some fa; Some fb; Some fc]
       /\ map py_int (split_on "." t) = [Some ta; Some tb; Some tc]
       /\ major_minor f = Some (fa, fb) /\ major_minor t = Some (ta, tb)
       /\ needs_migration name
          = pair_ltb (fa, fb) (3, 6)%N && pair_geb (ta, tb) (3, 6)%N.
Proof.
  intros Hp.
  destruct (parse_from_to_inv _ _ _ Hp)
    as (A & B & P & C & D & E & -> & -> & HA & HB & HP & HC & HD & HE).
  pose proof (normalize_three A B P HA HB HP) as Hf.
  pose proof (normalize_three C D E HC HD HE) as Ht.
  destruct (three_numeric_ints _ Hf) as (Tf & fa & fb & fc & Sf & Mf).
  destruct (three_numeric_ints _ Ht) as (Tt & ta & tb & tc & St & Mt).
  repeat split; try assumption.
  exists fa, fb, fc, ta, tb, tc. repeat split; try assumption.
  unfold needs_migration. now rewrite Hp, Tf, Tt, Mf, Mt.
Qed.

Lemma parsed_versions_are_well_formed_witness :
  three_numeric "3.5.0" /\ three_numeric "3.6.7".
Proof.
  destruct (parsed_versions_are_well_formed "game_3.5_3.6.7z" "3.5.0" "3.6.7"
              eq_refl) as (H1 & H2 & _).
  split; assumption.
Defined.

Lemma version_in_inv data v :
  version_in data = Some v ->
  exists A B P, v = normalize_version (A ++ "." ++ B ++ P)
    /\ numeric A = true /\ numeric B = true /\ patch_suffix P = true.
Proof.
  unfold version_in, search.
  destruct (search_from re_version_group 0 data) as [m|] eqn:Hs; [|discriminate].
  apply search_from_sound in Hs as (u & s1 & s2 & -> & HM).
  unfold re_version_group in HM. cbn [Match] in HM.
  destruct HM as (g1 & H1 & ->).
  apply Match_version_inv in H1 as [-> (A & B & P & -> & HA & HB & HP)].
  rewrite (group_of_match u (A ++ "." ++ B ++ P) s2) by reflexivity.
  intros [= <-]. now exists A, B, P.
Qed.

Lemma probe_inv h p extract st v :
  probe h p extract st = Some v ->
  exists data, read_text h p st = Some data /\ extract data = Some v.
Proof.
  unfold probe. destruct (exists_ h p st); [|discriminate].
  destruct (read_text h p st) as [data|]; [|discriminate].
  intros H. now exists data.
Qed.

(** X2: a version that [detect_game_version_after_patch] returns has
    exactly three numeric components and is never the empty text,
    whichever of the three files it comes from; it is read from one of
    them, and the call returns it without a message and without a
    change of the store. *)
Theorem detected_version_is_well_formed h variance game_folder st v :
  installed_version_after_patch h variance game_folder st = Some v ->
  three_numeric v /\ truthy v = true
  /\ (exists p data,
        In p [settings_json game_folder; bin_ver game_folder;
              version_info game_folder]
        /\ read_text h p st = Some data)
  /\ forall s, fs s = st ->
       detect_game_version_after_patch
         (installed_version_after_patch h variance) game_folder s
       = (s, Ret (Some v)).
Proof.
  intros H0.
  assert (Hrun : forall s, fs s = st ->
            detect_game_version_after_patch
              (installed_version_after_patch h variance) game_folder s
            = (s, Ret (Some v))).
  { intros s Hs. unfold detect_game_version_after_patch, bind, get_fs.
    now rewrite Hs, H0. }
  revert H0. unfold installed_version_after_patch. intros H.
  assert (Hv : exists A B P, v = normalize_version (A ++ "." ++ B ++ P)
                 /\ numeric A = true /\ numeric B = true
                 /\ patch_suffix P = true
                 /\ exists p data,
                      In p [settings_json game_folder; bin_ver game_folder;
                            version_info game_folder]
                      /\ read_text h p st = Some data).
  { destruct (probe h (settings_json game_folder) _ st) as [v1|] eqn:E1.
    - injection H as ->. apply probe_inv in E1 as (data & Hr & Hx).
      destruct (variance data) as [t|]; [|discriminate].
      apply version_in_inv in Hx as (A & B & P & -> & HA & HB & HP).
      exists A, B, P. repeat split; try assumption.
      exists (settings_json game_folder), data. simpl. auto.
    - destruct (probe h (bin_ver game_folder) version_in st) as [v2|] eqn:E2.
      + injection H as ->. apply probe_inv in E2 as (data & Hr & Hx).
        apply version_in_inv in Hx as (A & B & P & -> & HA & HB & HP).
        exists A, B, P. repeat split; try assumption.
        exists (bin_ver game_folder), data. simpl. auto.
      + apply probe_inv in H as (data & Hr & Hx).
        apply version_in_inv in Hx as (A & B & P & -> & HA & HB & HP).
        exists A, B, P. repeat split; try assumption.
        exists (version_info game_folder), data. simpl. auto. }
  destruct Hv as (A & B & P & -> & HA & HB & HP & Hsrc).
  pose proof (normalize_three A B P HA HB HP) as H3.
  split; [exact H3|]. split; [|split; [exact Hsrc|exact Hrun]].
  now destruct (three_numeric_ints _ H3).
Qed.

Lemma detected_version_is_well_formed_witness :
  three_numeric "3.6.0".
Proof.
  refine (proj1 (detected_version_is_well_formed Windows (fun _ => None)
            ["Client"]
            [mkEntry ["Client"; "version_info"] (KFile "OSRELWin3.6_R1")
               false false false]
            "3.6.0" eq_refl)).
Defined.

(** ** The migration branch *)

(** X3: when the name of an archive asks for the migration, the version
    checks of [migrate_audio_if_needed] all pass, so what
    [process_logical_archive] does is: relocate the audio folder if the
    old one exists, log a warning if it does not, and apply the diff
    manifest; the delete manifest is not applied on this branch. *)
Theorem migration_branch h run_hpatchz relocate_audio name game_folder s :
  needs_migration name = true ->
  process_logical_archive h run_hpatchz relocate_audio name game_folder s
  = ((if exists_ h (game_folder ++ ["StreamingAssets"; "Audio";
                                    "GeneratedSoundBanks"; "Windows"])%list (fs s)
      then match relocate_audio game_folder (fs s) with
           | (st', None) => put_fs st' ;;; log INFO Audio_migration_completed
           | (st', Some e) => put_fs st' ;;; raise e
           end
      else log WARNING Migration_did_not_complete) ;;;
     applied <- apply_hdiff h run_hpatchz ;;
     ret (if applied then true else false)) s.
Proof.
  intros Hn. unfold process_logical_archive. rewrite Hn.
  unfold needs_migration in Hn.
  destruct (parse_from_to_versions_from_name name) as [[f t]|] eqn:Hp;
    [|discriminate].
  destruct (parse_from_to_inv _ _ _ Hp)
    as (A & B & P & C & D & E & -> & -> & HA & HB & HP & HC & HD & HE).
  pose proof (normalize_three A B P HA HB HP) as Hf.
  pose proof (normalize_three C D E HC HD HE) as Ht.
  destruct (three_numeric_ints _ Hf) as (Tf & fa & fb & fc & Sf & Mf).
  destruct (three_numeric_ints _ Ht) as (Tt & ta & tb & tc & St & Mt).
  rewrite Tf, Tt, Mf, Mt in Hn. cbn [andb] in Hn.
  apply andb_true_iff in Hn as [_ Hge]. unfold pair_geb in Hge.
  apply negb_true_iff in Hge.
  cbn [option_map fst snd]. unfold migrate_audio_if_needed.
  rewrite St, Hge. unfold bind, get_fs.
  destruct (exists_ h _ (fs s)); cbn [negb].
  - destruct (relocate_audio game_folder (fs s)) as [st' [e|]];
      unfold put_fs, log, emit, raise, ret; reflexivity.
  - reflexivity.
Qed.

Lemma migration_branch_witness :
  exists s',
    process_logical_archive Windows (fun _ st => (st, Exit0))
      (fun _ st => (st, None)) "game_3.5.0_3.6.0.zip" ["Client"]
      (mkState [mkEntry ["deletefiles.txt"] (KFile "Client/a.bin") false false false;
                mkEntry ["Client"; "a.bin"] (KFile "x") false false false] [])
    = (s', Ret false)
    /\ trace s' = [Log WARNING Migration_did_not_complete]
    /\ exists_ Windows ["Client"; "a.bin"] (fs s') = true.
Proof.
  eexists. rewrite (migration_branch Windows _ _ "game_3.5.0_3.6.0.zip")
    by reflexivity.
  vm_compute. repeat split.
Defined.

(** ** The classifier of part names *)

Lemma numbered_part_iff s :
  matches re_numbered_part s = true <->
  exists u ext zs ds tl,
    s = u ++ "." ++ ext ++ "." ++ zs ++ ds ++ tl
    /\ is_ext ext = true /\ all_zeros zs = true /\ numeric ds = true
    /\ at_eol tl = true.
Proof.
  split.
  - rewrite matches_iff. intros (u & s1 & s2 & m & -> & HM).
    unfold re_numbered_part in HM. cbn [Match] in HM.
    destruct HM as (a1 & b1 & g1 & -> & H1 & a2 & b2 & g2 & -> & (g2' & H2 & _)
                    & a3 & b3 & g3 & -> & H3 & a4 & b4 & g4 & -> & [H4 _]
                    & a5 & b5 & g5 & -> & H5 & [[-> H6] _]).
    apply chr_inv in H1 as [-> _]. apply Match_ext_inv in H2 as [H2 _].
    apply chr_inv in H3 as [-> _]. apply plus_digits_inv in H5 as [H5 _].
    exists u, a2, a4, a5, s2. repeat split; try assumption.
    rewrite !append_assoc. reflexivity.
  - intros (u & ext & zs & ds & tl & -> & He & Hz & Hd & Ht).
    now apply numbered_part_matches.
Qed.

Lemma rar_part_iff s :
  matches re_rar_part s = true <->
  exists u ds tl,
    s = u ++ ".part" ++ ds ++ ".rar" ++ tl
    /\ numeric ds = true /\ at_eol tl = true.
Proof.
  split.
  - rewrite matches_iff. intros (u & s1 & s2 & m & -> & HM).
    unfold re_rar_part in HM.
    destruct HM as (a1 & b1 & g1 & -> & H1 & a2 & b2 & g2 & -> & H2
                    & a3 & b3 & g3 & -> & H3 & H4).
    apply Match_lit_inv in H1 as [-> _].
    apply plus_digits_inv in H2 as [H2 _].
    apply Match_lit_inv in H3 as [-> _].
    destruct H4 as [[-> H4] _].
    exists u, a2, s2. repeat split; try assumption.
    rewrite !append_assoc. reflexivity.
  - intros (u & ds & tl & -> & Hd & Ht). now apply rar_part_matches.
Qed.

Lemma lower_idem s : lower (lower s) = lower s.
Proof.
  induction s as [|c s IH]; [reflexivity|]. cbn [lower].
  now rewrite lower_char_idem, IH.
Qed.

Lemma part_by_patterns n :
  is_part_file_name n
  = matches re_numbered_part (lower n) || matches re_rar_part (lower n).
Proof.
  unfold is_part_file_name.
  destruct (matches re_first_part (lower n)) eqn:E1.
  - apply first_part_iff in E1 as (u & ext & zs & tl & E & He & Hz & Ht).
    rewrite E. now rewrite numbered_part_matches.
  - destruct (endswith ".part1.rar" (lower n)) eqn:E2.
    + apply endswith_iff in E2 as (u & E). rewrite E.
      pose proof (rar_part_matches u "1" "" eq_refl eq_refl) as H.
      change (u ++ ".part" ++ "1" ++ ".rar" ++ "") with (u ++ ".part1.rar") in H.
      rewrite H. now rewrite orb_true_r.
    + destruct (matches re_numbered_part (lower n)); [reflexivity|].
      now destruct (matches re_rar_part (lower n)).
Qed.

(** X4: [is_part_file_name] accepts exactly the names that, in lower
    case, end with an extension, a dot and a digit run, or with [.part],
    a digit run and [.rar], each possibly followed by one line feed; its
    first two tests are covered by the last two, every first part is a
    part name, and the case of the name does not matter. *)
Theorem part_name_classification n :
  (is_part_file_name n = true <->
     exists tl, at_eol tl = true /\
       ((exists u ext zs ds,
           lower n = u ++ "." ++ ext ++ "." ++ zs ++ ds ++ tl
           /\ is_ext ext = true /\ all_zeros zs = true /\ numeric ds = true)
        \/ (exists u ds,
              lower n = u ++ ".part" ++ ds ++ ".rar" ++ tl
              /\ numeric ds = true)))
  /\ is_part_file_name n
     = matches re_numbered_part (lower n) || matches re_rar_part (lower n)
  /\ (is_multipart_first n = true -> is_part_file_name n = true)
  /\ is_part_file_name (lower n) = is_part_file_name n.
Proof.
  split; [|split; [apply part_by_patterns|split]].
  - rewrite part_by_patterns, orb_true_iff, numbered_part_iff, rar_part_iff.
    split.
    + intros [(u & ext & zs & ds & tl & E & He & Hz & Hd & Ht)
             |(u & ds & tl & E & Hd & Ht)]; exists tl; (split; [exact Ht|]).
      * left. now exists u, ext, zs, ds.
      * right. now exists u, ds.
    + intros (tl & Ht & [(u & ext & zs & ds & E & He & Hz & Hd)
                        |(u & ds & E & Hd)]).
      * left. now exists u, ext, zs, ds, tl.
      * right. now exists u, ds, tl.
  - unfold is_multipart_first, is_part_file_name.
    destruct (matches re_first_part (lower n)); [reflexivity|].
    now destruct (endswith ".part1.rar" (lower n)).
  - rewrite !part_by_patterns. now rewrite lower_idem.
Qed.

(** ** The first parts *)

Lemma first_is_part n : is_multipart_first n = true -> is_part_file_name n = true.
Proof.
  unfold is_multipart_first, is_part_file_name.
  destruct (matches re_first_part (lower n)); [reflexivity|].
  now destruct (endswith ".part1.rar" (lower n)).
Qed.

(** X5: [get_multipart_first_parts] returns, in the order of their names,
    exactly the regular files of the working directory whose name is
    that of a first part (a directory of such a name is skipped), and
    none of them is ever among the single archives of [main]. *)
Theorem first_parts_enumeration h st n :
  (In n (get_multipart_first_parts h st) <->
     In n (cwd_names st) /\ is_file h [n] st = true
     /\ is_multipart_first n = true)
  /\ Sorted name_le (get_multipart_first_parts h st)
  /\ (is_multipart_first n = true -> forall st', ~ In n (single_archives h st')).
Proof.
  split; [|split].
  - unfold get_multipart_first_parts, cwd_file_names.
    rewrite sorted_in, !filter_In. tauto.
  - apply sorted_Sorted.
  - intros Hf st' Hin. apply single_archives_not_parts in Hin.
    now rewrite (first_is_part _ Hf) in Hin.
Qed.

(** ** What the store operations leave alone *)

Section Frames.
Variable h : platform.

Lemma lookup_eqb_key q q' st :
  path_eqb h q q' = true -> lookup h q st = lookup h q' st.
Proof.
  intros E. unfold lookup. apply find_ext_in. intros e _.
  now apply path_eqb_eqb_r.
Qed.

Lemma set_writable_writable e : e_readonly e = false -> set_writable e = e.
Proof. destruct e as [p k r l]. cbn. now intros ->. Qed.

Lemma filter_map_same {A} (K : A -> bool) (f : A -> A) l :
  (forall x, K (f x) = K x) -> (forall x, K x = true -> f x = x) ->
  filter K (map f l) = filter K l.
Proof.
  intros H1 H2. induction l as [|x l IH]; [reflexivity|].
  cbn [map filter]. rewrite H1, IH.
  destruct (K x) eqn:E; [|reflexivity]. now rewrite (H2 x E).
Qed.

Lemma filter_filter_absorb {A} (K Q : A -> bool) l :
  (forall x, K x = true -> Q x = true) ->
  filter K (filter Q l) = filter K l.
Proof.
  intros H. induction l as [|x l IH]; [reflexivity|]. cbn [filter].
  destruct (Q x) eqn:EQ; cbn [filter]; rewrite IH; [reflexivity|].
  destruct (K x) eqn:EK; [|reflexivity]. rewrite (H x EK) in EQ. discriminate.
Qed.

Lemma lookup_filter (K : entry -> bool) q st :
  (forall d, path_eqb h (e_path d) q = true -> K d = true) ->
  lookup h q (filter K st) = lookup h q st.
Proof.
  intros H. unfold lookup. induction st as [|d st IH]; [reflexivity|].
  cbn [filter find]. destruct (path_eqb h (e_path d) q) eqn:E.
  - rewrite (H d E). cbn [find]. now rewrite E.
  - destruct (K d); [cbn [find]; now rewrite E|exact IH].
Qed.

Lemma lookup_of_filters (K : entry -> bool) q st st' :
  (forall d, path_eqb h (e_path d) q = true -> K d = true) ->
  filter K st' = filter K st -> lookup h q st' = lookup h q st.
Proof.
  intros H E. rewrite <- (lookup_filter K q st H), <- (lookup_filter K q st' H).
  now rewrite E.
Qed.

Lemma outside_spec targets q :
  outside h targets q = true <->
  forall t, In t targets -> is_prefix h t q = false.
Proof.
  unfold outside. rewrite forallb_forall. split; intros H t Ht.
  - apply negb_true_iff. now apply H.
  - apply negb_true_iff. now apply H.
Qed.

Lemma outside_eqb targets q q' :
  path_eqb h q q' = true -> outside h targets q = outside h targets q'.
Proof.
  intros E. unfold outside. induction targets as [|t ts IH]; [reflexivity|].
  cbn [forallb]. now rewrite IH, (is_prefix_eqb_r h t _ _ E).
Qed.

Lemma with_text_path p text e : e_path (with_text h p text e) = e_path e.
Proof. unfold with_text. now destruct (path_eqb h (e_path e) p). Qed.



Lemma unlink_is_remove p st st' :
  unlink h p st = Some st' -> st' = remove_path h p st.
Proof.
  unfold unlink. destruct p as [|a p]; [discriminate|].
  destruct (lookup h (a :: p) st) as [e|]; [|discriminate].
  destruct (e_kind e); [|discriminate].
  destruct (undeletable h e); [discriminate|]. now intros [= <-].
Qed.

End Frames.

(** ** Making entries writable *)

(** X6: on Windows, where [chmod] sets or clears the read-only attribute
    and nothing else, [make_writable_recursive] tries [chmod] on the
    file it is given, or on a directory and on every entry below it:
    each of them ends writable, unless the system refuses the [chmod],
    in which case the refusal is passed over and the entry stays as it
    was.  A path that does not exist is left alone.  No entry is added
    or removed, no kind, content, lock or seal changes, and entries
    elsewhere keep their attribute. *)
Theorem make_writable_recursive_spec p st :
  let h := Windows in
  make_writable_recursive h p st
  = map (fun e => if reached h p st e then try_writable e else e) st
  /\ (forall e', In e' (make_writable_recursive h p st) ->
        is_dir h p st = true -> is_prefix h p (e_path e') = true ->
        e_sealed e' = false -> e_readonly e' = false)
  /\ (forall e, In e st -> e_sealed e = true ->
        In e (make_writable_recursive h p st))
  /\ (forall q, is_prefix h p q = false ->
        lookup h q (make_writable_recursive h p st) = lookup h q st)
  /\ (forall q, node_kind h q (make_writable_recursive h p st)
                = node_kind h q st).
Proof.
  intros h.
  split; [apply make_writable_as_map|]. split; [|split; [|split]].
  - rewrite make_writable_as_map. intros e' He' Hd Hpre Hs.
    apply in_map_iff in He' as (e & <- & He).
    assert (Hp : e_path (if reached h p st e then try_writable e else e)
                 = e_path e)
      by (destruct (reached h p st e); [apply try_writable_path|easy]).
    rewrite Hp in Hpre. unfold reached in Hs |- *. rewrite Hd, Hpre in Hs |- *.
    unfold try_writable in Hs |- *.
    destruct (e_sealed e) eqn:Es; [congruence|reflexivity].
  - rewrite make_writable_as_map. intros e He Hs. apply in_map_iff.
    exists e. split; [|exact He]. unfold try_writable. rewrite Hs.
    now destruct (reached h p st e).
  - intros q Hq. rewrite make_writable_as_map.
    rewrite lookup_map_update
      by (intros e; destruct (reached h p st e);
          [apply try_writable_path|easy]).
    destruct (lookup h q st) as [e|] eqn:E; [|reflexivity]. cbn [option_map].
    destruct (reached h p st e) eqn:R; [|reflexivity].
    apply reached_below in R.
    rewrite (is_prefix_eqb_r h p _ _ (lookup_path h _ _ _ E)) in R. congruence.
  - intros q. apply node_kind_make_writable.
Qed.

(** X7: [ensure_writable] tries [chmod] on the entry at the path it is
    given when that entry is read-only, and on nothing else: not on what
    lies below a directory, and a path that does not exist is not
    created.  The entry ends writable unless the system refuses the
    [chmod]; the refusal is passed over and the entry stays read-only. *)
Theorem ensure_writable_spec h p st :
  (forall q,
     lookup h q (ensure_writable h p st)
     = option_map (fun e => if path_eqb h (e_path e) p then try_writable e else e)
         (lookup h q st))
  /\ (forall e', lookup h p (ensure_writable h p st) = Some e' ->
        e_sealed e' = false -> e_readonly e' = false)
  /\ (forall e, lookup h p st = Some e -> e_sealed e = true ->
        lookup h p (ensure_writable h p st) = Some e)
  /\ (exists_ h p st = false -> ensure_writable h p st = st).
Proof.
  assert (H1 : forall q,
     lookup h q (ensure_writable h p st)
     = option_map (fun e => if path_eqb h (e_path e) p then try_writable e else e)
         (lookup h q st)).
  { intros q. unfold ensure_writable.
    assert (Hsame : forall e0, (lookup h p st = None
                                \/ (lookup h p st = Some e0 /\ e_readonly e0 = false)) ->
              lookup h q st
              = option_map (fun e => if path_eqb h (e_path e) p
                                     then try_writable e else e) (lookup h q st)).
    { intros e0 Hc. destruct (lookup h q st) as [e|] eqn:E; [|reflexivity].
      cbn [option_map]. destruct (path_eqb h (e_path e) p) eqn:Ep; [|reflexivity].
      assert (Eq : lookup h p st = Some e).
      { rewrite <- E. apply lookup_eqb_key.
        rewrite path_eqb_sym. eapply path_eqb_trans; [|exact Ep].
        rewrite path_eqb_sym. exact (lookup_path h _ _ _ E). }
      destruct Hc as [Hc|[Hc Hro]]; rewrite Hc in Eq; [discriminate|].
      injection Eq as <-. unfold try_writable.
      destruct (e_sealed e0); [reflexivity|]. now rewrite set_writable_writable. }
    destruct (exists_ h p st) eqn:Hex.
    - destruct (lookup h p st) as [e0|] eqn:E0.
      + destruct (e_readonly e0) eqn:Hro; [apply lookup_chmod_quietly|].
        apply (Hsame e0). now right.
      + apply (Hsame (mkEntry [] KDir false false false)). now left.
    - apply (Hsame (mkEntry [] KDir false false false)). left.
      unfold exists_, node_kind in Hex. destruct p as [|a p]; [discriminate|].
      now destruct (lookup h (a :: p) st). }
  split; [exact H1|]. split; [|split].
  - intros e'. rewrite H1. destruct (lookup h p st) as [e|] eqn:E; [|discriminate].
    cbn [option_map]. rewrite (lookup_path h _ _ _ E). intros [= <-].
    unfold try_writable.
    destruct (e_sealed e) eqn:Es; [congruence|reflexivity].
  - intros e E Hs. rewrite H1, E. cbn [option_map].
    rewrite (lookup_path h _ _ _ E). unfold try_writable. now rewrite Hs.
  - intros Hex. unfold ensure_writable. now rewrite Hex.
Qed.

(** ** What the delete manifest spares *)

Section Spared.
Variable h : platform.
Variable targets : list path.

Lemma outside_not_below t d :
  In t targets -> outside h targets (e_path d) = true ->
  is_prefix h t (e_path d) = false.
Proof. intros Ht Hd. rewrite outside_spec in Hd. now apply Hd. Qed.

Lemma outside_not_eqb t d :
  In t targets -> outside h targets (e_path d) = true ->
  path_eqb h (e_path d) t = false.
Proof.
  intros Ht Hd. destruct (path_eqb h (e_path d) t) eqn:E; [|reflexivity].
  rewrite path_eqb_sym in E. apply path_eqb_is_prefix in E.
  now rewrite (outside_not_below t d Ht Hd) in E.
Qed.

Lemma outside_chmod t st :
  In t targets ->
  filter (fun d => outside h targets (e_path d)) (chmod_quietly h t st)
  = filter (fun d => outside h targets (e_path d)) st.
Proof.
  intros Ht. unfold chmod_quietly. apply filter_map_same.
  - intros e. destruct (path_eqb h (e_path e) t); [|reflexivity].
    now rewrite try_writable_path.
  - intros e He. now rewrite (outside_not_eqb t e Ht He).
Qed.

Lemma outside_remove t st :
  In t targets ->
  filter (fun d => outside h targets (e_path d)) (remove_path h t st)
  = filter (fun d => outside h targets (e_path d)) st.
Proof.
  intros Ht. unfold remove_path. apply filter_filter_absorb.
  intros e He. now rewrite (outside_not_eqb t e Ht He).
Qed.

Lemma outside_with_text t text st :
  In t targets ->
  filter (fun d => outside h targets (e_path d)) (map (with_text h t text) st)
  = filter (fun d => outside h targets (e_path d)) st.
Proof.
  intros Ht. apply filter_map_same.
  - intros e. now rewrite with_text_path.
  - intros e He. unfold with_text. now rewrite (outside_not_eqb t e Ht He).
Qed.

Lemma outside_make_writable t st :
  In t targets ->
  filter (fun d => outside h targets (e_path d)) (make_writable_recursive h t st)
  = filter (fun d => outside h targets (e_path d)) st.
Proof.
  intros Ht. rewrite make_writable_as_map. apply filter_map_same.
  - intros e. destruct (reached h t st e); [|reflexivity].
    now rewrite try_writable_path.
  - intros e He. destruct (reached h t st e) eqn:R; [|reflexivity].
    apply reached_below in R. now rewrite (outside_not_below t e Ht He) in R.
Qed.

Lemma outside_rmtree t st :
  In t targets ->
  filter (fun d => outside h targets (e_path d)) (rmtree_ignore h t st)
  = filter (fun d => outside h targets (e_path d)) st.
Proof.
  intros Ht. unfold rmtree_ignore. destruct (is_dir h t st); [|reflexivity].
  apply filter_filter_absorb. intros e He.
  now rewrite (outside_not_below t e Ht He).
Qed.

Lemma outside_unlink_quietly t s :
  In t targets ->
  filter (fun d => outside h targets (e_path d)) (fs (fst (unlink_quietly h t s)))
  = filter (fun d => outside h targets (e_path d)) (fs s).
Proof.
  intros Ht. rewrite unlink_quietly_run. cbn [fst].
  destruct (unlink h t (fs s)) as [st'|] eqn:E; [|reflexivity].
  apply unlink_is_remove in E. subst st'. cbn [fs]. now apply outside_remove.
Qed.

Lemma delete_entry_outside line s :
  In (Path_of h (strip line)) targets ->
  filter (fun d => outside h targets (e_path d))
    (fs (fst (delete_entry h line s)))
  = filter (fun d => outside h targets (e_path d)) (fs s).
Proof.
  intros Hin.
  destruct (exists_ h (Path_of h (strip line)) (fs s)) eqn:Hex.
  - destruct (exists_file_or_dir _ _ _ Hex) as [Hf|Hd].
    + destruct (is_file_lookup _ _ _ Hf) as (_ & e & c & He & _).
      rewrite (delete_entry_file h line s e Hf He). cbv zeta.
      destruct (resists h e); cbn [fst fs].
      * now apply outside_chmod.
      * rewrite outside_remove by assumption. now apply outside_chmod.
    + rewrite (delete_entry_dir h line s Hd). cbv zeta. cbn [fst fs].
      rewrite outside_rmtree by assumption. now apply outside_make_writable.
  - now rewrite (delete_entry_skip h line s Hex).
Qed.

Lemma fold_delete_outside lines s :
  incl (map (fun line => Path_of h (strip line)) lines) targets ->
  filter (fun d => outside h targets (e_path d))
    (fs (fold_left (fun s' line => fst (delete_entry h line s')) lines s))
  = filter (fun d => outside h targets (e_path d)) (fs s).
Proof.
  revert s. induction lines as [|l lines IH]; intros s Hi; [reflexivity|].
  cbn [fold_left]. rewrite IH.
  - apply delete_entry_outside. apply Hi. now left.
  - intros t Ht. apply Hi. now right.
Qed.

End Spared.

Section Unwritable.
Variable h : platform.

Lemma replace_text_unwritable p s e :
  lookup h p (fs s) = Some e -> e_kind e = KDir \/ e_readonly e = true ->
  replace_text_in_file h p s = (s, Raise OSError).
Proof.
  intros He Hc. unfold replace_text_in_file. run_unfold.
  rewrite (lookup_exists _ _ _ _ He). cbn [negb]. unfold read_text. rewrite He.
  destruct (e_kind e) eqn:Hk; [|reflexivity].
  destruct Hc as [Hc|Hc]; [discriminate|].
  unfold write_text. now rewrite He, Hk, Hc.
Qed.

Lemma delete_files_unwritable s e :
  lookup h delete_txt (fs s) = Some e -> e_kind e = KDir \/ e_readonly e = true ->
  delete_files h s = (s, Raise OSError).
Proof.
  intros He Hc. unfold delete_files. unfold bind at 1, get_fs at 1.
  rewrite (lookup_exists _ _ _ _ He). cbn [negb]. unfold bind at 1.
  now rewrite (replace_text_unwritable _ _ _ He Hc).
Qed.

Lemma apply_hdiff_unwritable run_hpatchz s e :
  lookup h hdifffiles_txt (fs s) = Some e ->
  e_kind e = KDir \/ e_readonly e = true ->
  apply_hdiff h run_hpatchz s = (s, Raise OSError).
Proof.
  intros He Hc. unfold apply_hdiff. unfold bind at 1, get_fs at 1.
  rewrite (lookup_exists _ _ _ _ He). cbn [negb]. unfold bind at 1.
  now rewrite (replace_text_unwritable _ _ _ He Hc).
Qed.

End Unwritable.

(** X8: when the lines of the manifest name paths inside the tree of
    the working directory, [delete_files] touches nothing but the
    manifest and what lies at or below a path that the manifest names:
    every other path keeps its entry, with its content and attributes,
    whether the run ends normally or not. *)
Theorem delete_files_spares_unlisted h s e c q :
  lookup h delete_txt (fs s) = Some e -> e_kind e = KFile c ->
  forallb (fun l => confined h (strip l)) (manifest_lines c) = true ->
  outside h (delete_txt :: delete_targets h c) q = true ->
  lookup h q (fs (fst (delete_files h s))) = lookup h q (fs s).
Proof.
  intros He Hk _ Hq. set (targets := delete_txt :: delete_targets h c) in *.
  destruct (e_readonly e) eqn:Hro.
  { rewrite (delete_files_unwritable h s e He); [reflexivity|now right]. }
  apply (lookup_of_filters h (fun d => outside h targets (e_path d))).
  { intros d Hd. now rewrite (outside_eqb h targets _ _ Hd). }
  destruct (delete_files_run h s e c He Hk Hro) as [_ ->].
  rewrite outside_unlink_quietly by now left.
  rewrite fold_delete_outside by (intros t Ht; now right).
  cbn [fs]. apply outside_with_text. now left.
Qed.

Lemma delete_files_spares_unlisted_witness :
  lookup Windows ["Client"; "keep.bin"]
    (fs (fst (delete_files Windows
       (mkState [mkEntry ["deletefiles.txt"] (KFile "Client/old.bin") false false false;
                 mkEntry ["Client"; "old.bin"] (KFile "o") true false false;
                 mkEntry ["Client"; "keep.bin"] (KFile "k") true false false] []))))
  = Some (mkEntry ["Client"; "keep.bin"] (KFile "k") true false false).
Proof.
  rewrite (delete_files_spares_unlisted Windows _
             (mkEntry ["deletefiles.txt"] (KFile "Client/old.bin") false false false)
             "Client/old.bin" ["Client"; "keep.bin"]); reflexivity.
Defined.

(** X9: a manifest that exists but cannot be rewritten, because it is
    read-only or a directory, makes [delete_files] and [apply_hdiff]
    raise [OSError] at once: nothing is deleted, no patch is applied and
    nothing is logged. *)
Theorem unwritable_manifest_aborts h run_hpatchz s e :
  e_kind e = KDir \/ e_readonly e = true ->
  (lookup h delete_txt (fs s) = Some e ->
     delete_files h s = (s, Raise OSError))
  /\ (lookup h hdifffiles_txt (fs s) = Some e ->
        apply_hdiff h run_hpatchz s = (s, Raise OSError)).
Proof.
  intros Hc. split; intros He.
  - now apply (delete_files_unwritable h s e).
  - now apply (apply_hdiff_unwritable h run_hpatchz s e).
Qed.

Lemma unwritable_manifest_aborts_witness :
  let s := mkState [mkEntry ["deletefiles.txt"] (KFile "Client/a.bin") true false false;
                    mkEntry ["Client"; "a.bin"] (KFile "x") false false false] [] in
  delete_files Windows s = (s, Raise OSError).
Proof.
  intros s.
  apply (proj1 (unwritable_manifest_aborts Windows (fun _ st => (st, Exit0)) s
                  (mkEntry ["deletefiles.txt"] (KFile "Client/a.bin") true false false)
                  (or_intror eq_refl))).
  reflexivity.
Defined.

(** ** A diff manifest without artifacts *)

Section NoArtifacts.
Variable h : platform.
Variable run_hpatchz : string -> store -> store * proc.


End NoArtifacts.



(** ** Normalizing a manifest twice *)

Lemma to_backslashes_idem s : to_backslashes (to_backslashes s) = to_backslashes s.
Proof.
  induction s as [|c s IH]; [reflexivity|]. cbn [to_backslashes]. rewrite IH.
  destruct (Ascii.eqb c "/") eqn:E; [reflexivity|]. now rewrite E.
Qed.

Lemma mem_char_to_backslashes d s :
  Ascii.eqb "/" d = false -> Ascii.eqb "\" d = false ->
  mem_char d (to_backslashes s) = mem_char d s.
Proof.
  intros H1 H2. induction s as [|c s IH]; [reflexivity|].
  cbn [to_backslashes mem_char]. rewrite IH.
  destruct (Ascii.eqb c "/") eqn:E; [|reflexivity].
  apply Ascii.eqb_eq in E. subst c. now rewrite H1, H2.
Qed.

Lemma plain_to_backslashes P :
  plain_path P = true -> plain_path (to_backslashes P) = true.
Proof.
  unfold plain_path. now rewrite !mem_char_to_backslashes by reflexivity.
Qed.

(** X11: on a manifest whose paths hold no quote and no opening brace,
    normalizing again changes nothing: a manifest that survived its run
    (its removal is best-effort) is read back to the same entries by the
    next call. *)
Theorem manifest_normalization_idempotent ls :
  Forall (fun l => plain_path (snd l) = true) ls ->
  rewrite_manifest_text
    (rewrite_manifest_text (concat newline (map manifest_line ls)))
  = rewrite_manifest_text (concat newline (map manifest_line ls)).
Proof.
  intros H. rewrite (rewrite_manifest_lines ls H).
  replace (concat newline (map (fun l => to_backslashes (snd l)) ls))
    with (concat newline
            (map manifest_line
               (map (fun l => (false, to_backslashes (snd l))) ls)))
    by now rewrite map_map.
  rewrite rewrite_manifest_lines.
  - rewrite !map_map. f_equal. apply map_ext. intros l. cbn [snd].
    apply to_backslashes_idem.
  - apply Forall_map. eapply Forall_impl; [|exact H].
    intros l Hl. cbn [snd]. now apply plain_to_backslashes.
Qed.

Lemma manifest_normalization_idempotent_witness :
  rewrite_manifest_text
    (rewrite_manifest_text
       (concat newline
          (map manifest_line [(true, "Data/a.bin"); (false, "Data/sub/b.bin")])))
  = rewrite_manifest_text
      (concat newline
         (map manifest_line [(true, "Data/a.bin"); (false, "Data/sub/b.bin")])).
Proof.
  apply manifest_normalization_idempotent. repeat constructor.
Defined.

(** ** Setup failures *)

Lemma check_tools_run h s :
  check_tools h s
  = if exists_ h ["7z.exe"] (fs s) then
      if exists_ h ["hpatchz.exe"] (fs s) then (s, Ret tt)
      else (mkState (fs s) (Log ERROR (Tool_missing "hpatchz.exe") :: trace s),
            Raise SystemExit)
    else (mkState (fs s) (Log ERROR (Tool_missing "7z.exe") :: trace s),
          Raise SystemExit).
Proof.
  unfold check_tools, for_each, TOOLS. cbn [for_fold]. run_unfold.
  rewrite Path_of_name_7z.
  destruct (exists_ h ["7z.exe"] (fs s)); cbn [negb]; [|reflexivity].
  rewrite Path_of_name_hpatchz.
  destruct (exists_ h ["hpatchz.exe"] (fs s)); reflexivity.
Qed.

(** X12: when no supported game folder is a directory, or one of the two
    tools is missing, [main] logs the error and exits at once: the store
    is as it was and no tool has run. *)
Theorem setup_failure_changes_nothing
    h run_7z run_hpatchz relocate_audio installed_version s :
  find (fun folder => is_dir h (Path_of h folder) (fs s)) GAME_FOLDERS = None
  \/ exists_ h ["7z.exe"] (fs s) = false
  \/ exists_ h ["hpatchz.exe"] (fs s) = false ->
  exists s' m,
    main h run_7z run_hpatchz relocate_audio installed_version s
    = (s', Raise SystemExit)
    /\ fs s' = fs s
    /\ (m = No_supported_game_folder
        \/ exists tool, In tool TOOLS /\ m = Tool_missing tool)
    /\ (trace s' = Log ERROR m :: trace s
        \/ exists folder,
             trace s' = Log ERROR m :: Log INFO (Detected_game_folder folder)
                        :: trace s).
Proof.
  intros H. unfold main. unfold bind at 1. unfold detect_game_folder.
  unfold bind at 1, get_fs at 1.
  destruct (find _ GAME_FOLDERS) as [folder|] eqn:Hgf.
  - destruct H as [H|H]; [discriminate|].
    unfold bind at 1, log at 1, emit at 1. unfold ret at 1.
    unfold bind at 1. rewrite check_tools_run. cbn [fs trace].
    destruct (exists_ h ["7z.exe"] (fs s)) eqn:E7.
    + destruct (exists_ h ["hpatchz.exe"] (fs s)) eqn:Eh.
      * destruct H; discriminate.
      * eexists; exists (Tool_missing "hpatchz.exe").
        split; [reflexivity|]. split; [reflexivity|]. split.
        -- right. exists "hpatchz.exe". split; [|reflexivity]. simpl. auto.
        -- right. now exists folder.
    + eexists; exists (Tool_missing "7z.exe").
      split; [reflexivity|]. split; [reflexivity|]. split.
      * right. exists "7z.exe". split; [|reflexivity]. simpl. auto.
      * right. now exists folder.
  - run_unfold. eexists; exists No_supported_game_folder.
    split; [reflexivity|]. split; [reflexivity|]. split; [now left|now left].
Qed.

Lemma setup_failure_changes_nothing_witness :
  let s := mkState [mkEntry ["Client"] KDir false false false;
                    mkEntry ["7z.exe"] (KFile "") false false false;
                    mkEntry ["update.zip"] (KFile "z") false false false] [] in
  exists s',
    main Windows (fun _ st => ([], Exit0)) (fun _ st => ([], Exit0))
      (fun _ st => ([], None)) (fun _ _ => None) s
    = (s', Raise SystemExit)
    /\ fs s' = fs s.
Proof.
  intros s.
  destruct (setup_failure_changes_nothing Windows
              (fun _ st => ([], Exit0)) (fun _ st => ([], Exit0))
              (fun _ st => ([], None)) (fun _ _ => None) s)
    as (s' & m & H1 & H2 & _).
  - right. right. reflexivity.
  - exists s'. split; assumption.
Defined.

(** ** A single archive *)

(** X13: [extract_single_archive] never raises, whatever the archiver
    does: a failed extraction is logged as a warning, and the archive is
    unlinked in every case, so that an archive that is a removable file
    is gone afterwards even when nothing was extracted from it. *)
Theorem single_archive_is_consumed h run_7z a s :
  exists s',
    extract_single_archive h run_7z a s = (s', Ret tt)
    /\ trace s'
       = ((match snd (run_7z a (fs s)) with
           | Exit0 => []
           | _ => [Log WARNING (Failed_to_extract a)]
           end)
          ++ Exec7z a :: Log INFO (Processing_archive a) :: trace s)%list
    /\ fs s' = match unlink h (Path_of h a) (fst (run_7z a (fs s))) with
               | Some st' => st'
               | None => fst (run_7z a (fs s))
               end
    /\ (forall e c,
          Path_of h a <> [] ->
          lookup h (Path_of h a) (fst (run_7z a (fs s))) = Some e ->
          e_kind e = KFile c -> undeletable h e = false ->
          exists_ h (Path_of h a) (fs s') = false).
Proof.
  unfold extract_single_archive, extract_with_7z.
  unfold bind at 1. unfold try_except, bind, log, emit, get_fs, put_fs, raise.
  cbn [fs trace].
  assert (Hgone : forall st e c,
            Path_of h a <> [] ->
            lookup h (Path_of h a) st = Some e -> e_kind e = KFile c ->
            undeletable h e = false ->
            exists_ h (Path_of h a)
              (match unlink h (Path_of h a) st with
               | Some st' => st'
               | None => st
               end) = false).
  { intros st e c Hp He Hk Hu.
    destruct (unlink h (Path_of h a) st) as [st'|] eqn:Eu.
    - eapply unlink_gone; eassumption.
    - unfold unlink in Eu. destruct (Path_of h a) as [|x p]; [congruence|].
      rewrite He, Hk, Hu in Eu. discriminate. }
  destruct (run_7z a (fs s)) as [st1 [ | | ]] eqn:E7; cbn [fst snd is_Exception];
    rewrite unlink_quietly_run; cbn [fs trace];
    (eexists; split; [reflexivity|]; split;
     [cbn [trace app]; destruct (unlink h (Path_of h a) st1); reflexivity|];
     split; [destruct (unlink h (Path_of h a) st1); reflexivity|];
     intros e c Hp He Hk Hu;
     generalize (Hgone st1 e c Hp He Hk Hu);
     destruct (unlink h (Path_of h a) st1); cbn [fs]; auto).
Qed.

(** ** What a run adds to the trace *)

Section Appends.
Variable P : event -> bool.

Lemma appends_ret {A} (a : A) : appends P (ret a).
Proof. intros s. exists []. now split. Qed.

Lemma appends_raise {A} e : appends P (@raise A e).
Proof. intros s. exists []. now split. Qed.

Lemma appends_get_fs : appends P get_fs.
Proof. intros s. exists []. now split. Qed.

Lemma appends_put_fs st : appends P (put_fs st).
Proof. intros s. exists []. now split. Qed.

Lemma appends_os_call f : appends P (os_call f).
Proof. intros s. exists []. unfold os_call. now destruct (f (fs s)). Qed.

Lemma appends_emit e : P e = true -> appends P (emit e).
Proof. intros He s. exists [e]. cbn. now rewrite He. Qed.

Lemma appends_bind {A B} (m : M A) (k : A -> M B) :
  appends P m -> (forall a, appends P (k a)) -> appends P (bind m k).
Proof.
  intros Hm Hk s. unfold bind. destruct (Hm s) as (n1 & E1 & F1).
  destruct (m s) as [s1 [a|e]]; cbn [fst] in *.
  - destruct (Hk a s1) as (n2 & E2 & F2). exists (n2 ++ n1)%list.
    rewrite E2, E1, app_assoc. split; [reflexivity|].
    rewrite forallb_app. now rewrite F1, F2.
  - exists n1. now split.
Qed.

Lemma appends_try_except {A} (body handler : M A) caught :
  appends P body -> appends P handler ->
  appends P (try_except body caught handler).
Proof.
  intros Hb Hh s. unfold try_except. destruct (Hb s) as (n1 & E1 & F1).
  destruct (body s) as [s1 [a|e]]; cbn [fst] in *.
  - exists n1. now split.
  - destruct (caught e).
    + destruct (Hh s1) as (n2 & E2 & F2). exists (n2 ++ n1)%list.
      rewrite E2, E1, app_assoc. split; [reflexivity|].
      rewrite forallb_app. now rewrite F1, F2.
    + exists n1. now split.
Qed.

Lemma appends_for_fold {A X} (body : X -> A -> M A) l acc :
  (forall x a, appends P (body x a)) -> appends P (for_fold body l acc).
Proof.
  intros H. revert acc. induction l as [|x l IH]; intros acc.
  - apply appends_ret.
  - cbn [for_fold]. apply appends_bind; [apply H|apply IH].
Qed.

Lemma appends_for_each {X} (body : X -> M unit) l :
  (forall x, appends P (body x)) -> appends P (for_each body l).
Proof. intros H. apply appends_for_fold. intros x _. apply H. Qed.

End Appends.

Ltac appends_step :=
  first
    [ apply appends_ret | apply appends_raise | apply appends_get_fs
    | apply appends_put_fs | apply appends_os_call
    | apply appends_emit; reflexivity
    | apply appends_bind; [|intros ?]
    | apply appends_try_except
    | apply appends_for_each; intros ?
    | apply appends_for_fold; intros ? ? ].

Ltac appends_auto :=
  repeat (appends_step
          || match goal with
             | |- appends _ (if ?b then _ else _) => destruct b
             | |- appends _ (match ?x with _ => _ end) => destruct x
             end).

Section BeforeFinish.
Variable h : platform.
Variable run_7z : string -> store -> store * proc.
Variable run_hpatchz : string -> store -> store * proc.
Variable relocate_audio : path -> store -> store * option exn.
Variable installed_version : path -> store -> option string.

Lemma quiet_unlink_quietly p : appends before_finish (unlink_quietly h p).
Proof. unfold unlink_quietly. appends_auto. Qed.

Lemma quiet_replace_text_in_file p :
  appends before_finish (replace_text_in_file h p).
Proof. unfold replace_text_in_file. appends_auto. Qed.

Lemma quiet_delete_entry line : appends before_finish (delete_entry h line).
Proof. unfold delete_entry. appends_auto. Qed.

Lemma quiet_delete_files : appends before_finish (delete_files h).
Proof.
  unfold delete_files. appends_auto; try apply quiet_replace_text_in_file;
    try apply quiet_delete_entry; try apply quiet_unlink_quietly.
Qed.

Lemma quiet_hdiff_entry line patched :
  appends before_finish (hdiff_entry h run_hpatchz line patched).
Proof. unfold hdiff_entry. appends_auto; try apply quiet_unlink_quietly. Qed.

Lemma quiet_apply_hdiff : appends before_finish (apply_hdiff h run_hpatchz).
Proof.
  unfold apply_hdiff. appends_auto; try apply quiet_replace_text_in_file;
    try apply quiet_unlink_quietly; try apply quiet_hdiff_entry.
Qed.

Lemma quiet_extract_with_7z a : appends before_finish (extract_with_7z run_7z a).
Proof. unfold extract_with_7z. appends_auto. Qed.

Lemma quiet_migrate game_folder vf vt :
  appends before_finish
    (migrate_audio_if_needed h relocate_audio game_folder vf vt).
Proof. unfold migrate_audio_if_needed. appends_auto. Qed.

Lemma quiet_process_logical_archive name game_folder :
  appends before_finish
    (process_logical_archive h run_hpatchz relocate_audio name game_folder).
Proof.
  unfold process_logical_archive.
  apply appends_bind; [|intros _; apply appends_bind;
                         [apply quiet_apply_hdiff|intros ?; apply appends_ret]].
  destruct (needs_migration name); [|apply quiet_delete_files].
  apply appends_bind; [apply quiet_migrate|]. intros b. appends_auto.
Qed.

Lemma quiet_extract_multipart_and_process first game_folder :
  appends before_finish
    (extract_multipart_and_process h run_7z run_hpatchz relocate_audio
       first game_folder).
Proof.
  unfold extract_multipart_and_process.
  apply appends_bind; [|intros _; apply quiet_process_logical_archive].
  unfold extract_multipart_and_unlink.
  apply appends_bind.
  - apply appends_try_except; [|appends_auto].
    apply appends_bind; [appends_auto|]. intros _. apply quiet_extract_with_7z.
  - intros _. appends_auto.
Qed.

Lemma quiet_extract_all_multipart game_folder :
  appends before_finish
    (extract_all_multipart_and_process h run_7z run_hpatchz relocate_audio
       game_folder).
Proof.
  unfold extract_all_multipart_and_process.
  apply appends_bind; [apply appends_get_fs|]. intros st.
  apply appends_for_fold. intros first patched_any.
  apply appends_try_except; [|appends_auto].
  apply appends_bind; [|intros ?; apply appends_ret].
  apply quiet_extract_multipart_and_process.
Qed.

Lemma quiet_extract_single_archive a :
  appends before_finish (extract_single_archive h run_7z a).
Proof.
  unfold extract_single_archive.
  apply appends_bind; [|intros _; apply quiet_unlink_quietly].
  apply appends_try_except; [|appends_auto].
  apply appends_bind; [appends_auto|]. intros _. apply quiet_extract_with_7z.
Qed.

Lemma quiet_cleanup_aux_files game_folder :
  appends before_finish (cleanup_aux_files h game_folder).
Proof. unfold cleanup_aux_files. appends_auto; apply quiet_unlink_quietly. Qed.

Lemma quiet_cleanup_empty_dirs game_folder :
  appends before_finish (cleanup_empty_dirs h game_folder).
Proof. unfold cleanup_empty_dirs. appends_auto. Qed.

Lemma quiet_detect_game_folder : appends before_finish (detect_game_folder h).
Proof. unfold detect_game_folder. appends_auto. Qed.

Lemma quiet_check_tools : appends before_finish (check_tools h).
Proof. unfold check_tools. appends_auto. Qed.

Lemma finishes_bind {A B} (m : M A) (k : A -> M B) :
  appends before_finish m -> (forall a, finishes (k a)) -> finishes (bind m k).
Proof.
  intros Hm Hk s. unfold bind. destruct (Hm s) as (n1 & E1 & F1).
  destruct (m s) as [s1 [a|e]]; cbn [fst snd] in *.
  - destruct (Hk a s1) as (n2 & E2 & F2). exists (n2 ++ n1)%list.
    rewrite E2, E1, app_assoc. split; [reflexivity|].
    destruct (snd (k a s1)).
    + destruct F2 as (rest & -> & F2). exists (rest ++ n1)%list.
      split; [reflexivity|]. rewrite forallb_app. now rewrite F1, F2.
    + rewrite forallb_app. now rewrite F1, F2.
  - exists n1. now split.
Qed.

Lemma finishes_log : finishes (log INFO Patching_finished).
Proof.
  intros s. exists [Log INFO Patching_finished]. split; [reflexivity|].
  cbn. now exists [].
Qed.

Lemma finishes_main :
  finishes (main h run_7z run_hpatchz relocate_audio installed_version).
Proof.
  unfold main.
  apply finishes_bind; [apply quiet_detect_game_folder|]. intros game_folder.
  apply finishes_bind; [apply quiet_check_tools|]. intros _.
  apply finishes_bind; [apply quiet_extract_all_multipart|]. intros multi.
  apply finishes_bind; [apply appends_get_fs|]. intros st.
  apply finishes_bind.
  { apply appends_for_fold. intros a patch_done.
    apply appends_bind; [apply quiet_extract_single_archive|].
    intros _. apply appends_bind; [apply quiet_process_logical_archive|].
    intros ?. apply appends_ret. }
  intros patch_done. apply finishes_bind.
  { destruct patch_done; [|apply appends_ret].
    apply appends_bind.
    - unfold detect_game_version_after_patch. appends_auto.
    - intros gv. apply appends_bind; [|intros _; apply quiet_cleanup_aux_files].
      unfold write_config_ini. appends_auto. }
  intros _. apply finishes_bind; [apply quiet_cleanup_empty_dirs|].
  intros _. apply finishes_log.
Qed.

End BeforeFinish.

Lemma before_finish_not_in new :
  forallb before_finish new = true -> ~ In (Log INFO Patching_finished) new.
Proof.
  intros H Hin. rewrite forallb_forall in H. now specialize (H _ Hin).
Qed.

(** X14: [main] logs the finished message exactly when it returns
    normally, once, and as the last event: a run that an exception or an
    exit ends adds no finished message to the trace. *)
Theorem finished_only_on_success
    h run_7z run_hpatchz relocate_audio installed_version s :
  exists new,
    trace (fst (main h run_7z run_hpatchz relocate_audio installed_version s))
    = (new ++ trace s)%list
    /\ match snd (main h run_7z run_hpatchz relocate_audio installed_version s)
       with
       | Ret _ => exists rest,
                    new = Log INFO Patching_finished :: rest
                    /\ ~ In (Log INFO Patching_finished) rest
       | Raise _ => ~ In (Log INFO Patching_finished) new
       end.
Proof.
  destruct (finishes_main h run_7z run_hpatchz relocate_audio installed_version s)
    as (new & E & H).
  exists new. split; [exact E|].
  destruct (snd (main h run_7z run_hpatchz relocate_audio installed_version s)).
  - destruct H as (rest & -> & H). exists rest. split; [reflexivity|].
    now apply before_finish_not_in.
  - now apply before_finish_not_in.
Qed.

(** ** What the steps raise *)

Section RaisesOnly.
Variable Q : exn -> bool.

Lemma ro_ret {A} (a : A) : raises_only Q (ret a).
Proof. intros s s' e. discriminate. Qed.

Lemma ro_raise {A} e : Q e = true -> raises_only Q (@raise A e).
Proof. intros H s s' e' [= _ <-]. exact H. Qed.

Lemma ro_get_fs : raises_only Q get_fs.
Proof. intros s s' e. discriminate. Qed.

Lemma ro_put_fs st : raises_only Q (put_fs st).
Proof. intros s s' e. discriminate. Qed.

Lemma ro_emit ev : raises_only Q (emit ev).
Proof. intros s s' e. discriminate. Qed.

Lemma ro_os_call f : Q OSError = true -> raises_only Q (os_call f).
Proof.
  intros H s s' e. unfold os_call. destruct (f (fs s)); [discriminate|].
  now intros [= _ <-].
Qed.

Lemma ro_bind {A B} (m : M A) (k : A -> M B) :
  raises_only Q m -> (forall a, raises_only Q (k a)) -> raises_only Q (bind m k).
Proof.
  intros Hm Hk s s' e. unfold bind. destruct (m s) as [s1 [a|e1]] eqn:E.
  - apply Hk.
  - intros [= _ <-]. eapply Hm. exact E.
Qed.

Lemma ro_try_except {A} (body handler : M A) caught :
  raises_only Q body -> raises_only Q handler ->
  raises_only Q (try_except body caught handler).
Proof.
  intros Hb Hh s s' e. unfold try_except.
  destruct (body s) as [s1 [a|e1]] eqn:E; [discriminate|].
  destruct (caught e1).
  - apply Hh.
  - intros [= _ <-]. eapply Hb. exact E.
Qed.

Lemma ro_try_except_all {A} (body handler : M A) :
  raises_only Q handler -> raises_only Q (try_except body any_exn handler).
Proof.
  intros Hh s s' e. unfold try_except, any_exn.
  destruct (body s) as [s1 [a|e1]]; [discriminate|]. apply Hh.
Qed.

Lemma ro_for_fold {A X} (body : X -> A -> M A) l acc :
  (forall x a, raises_only Q (body x a)) -> raises_only Q (for_fold body l acc).
Proof.
  intros H. revert acc. induction l as [|x l IH]; intros acc.
  - apply ro_ret.
  - cbn [for_fold]. apply ro_bind; [apply H|apply IH].
Qed.

Lemma ro_for_each {X} (body : X -> M unit) l :
  (forall x, raises_only Q (body x)) -> raises_only Q (for_each body l).
Proof. intros H. apply ro_for_fold. intros x _. apply H. Qed.

End RaisesOnly.

Ltac ro_step :=
  first
    [ apply ro_ret | apply ro_raise; reflexivity | apply ro_get_fs
    | apply ro_put_fs | apply ro_os_call; reflexivity
    | apply ro_emit
    | apply ro_bind; [|intros ?]
    | apply ro_try_except_all
    | apply ro_try_except
    | apply ro_for_each; intros ?
    | apply ro_for_fold; intros ? ? ].

Ltac ro_auto :=
  repeat (ro_step
          || match goal with
             | |- raises_only _ (if ?b then _ else _) => destruct b
             | |- raises_only _ (match ?x with _ => _ end) => destruct x eqn:?
             end).

Section Isolation.
Variable h : platform.
Variable run_7z : string -> store -> store * proc.
Variable run_hpatchz : string -> store -> store * proc.
Variable relocate_audio : path -> store -> store * option exn.

Hypothesis relocate_raises :
  forall p st st' e, relocate_audio p st = (st', Some e) -> e <> SystemExit.

Lemma ro_unlink_quietly p : raises_only is_Exception (unlink_quietly h p).
Proof. unfold unlink_quietly. ro_auto. Qed.

Lemma ro_replace_text_in_file p :
  raises_only is_Exception (replace_text_in_file h p).
Proof. unfold replace_text_in_file. ro_auto. Qed.

Lemma ro_delete_entry line : raises_only is_Exception (delete_entry h line).
Proof. unfold delete_entry. ro_auto. Qed.

Lemma ro_delete_files : raises_only is_Exception (delete_files h).
Proof.
  unfold delete_files. ro_auto; try apply ro_replace_text_in_file;
    try apply ro_delete_entry; try apply ro_unlink_quietly.
Qed.

Lemma ro_hdiff_entry line patched :
  raises_only is_Exception (hdiff_entry h run_hpatchz line patched).
Proof. unfold hdiff_entry. ro_auto; try apply ro_unlink_quietly. Qed.

Lemma ro_apply_hdiff : raises_only is_Exception (apply_hdiff h run_hpatchz).
Proof.
  unfold apply_hdiff. ro_auto; try apply ro_replace_text_in_file;
    try apply ro_unlink_quietly; try apply ro_hdiff_entry.
Qed.

Lemma ro_extract_with_7z a : raises_only is_Exception (extract_with_7z run_7z a).
Proof. unfold extract_with_7z. ro_auto. Qed.

Lemma ro_migrate game_folder vf vt :
  raises_only is_Exception
    (migrate_audio_if_needed h relocate_audio game_folder vf vt).
Proof.
  unfold migrate_audio_if_needed.
  destruct vt as [v|]; [|apply ro_ret].
  destruct (map py_int (split_on "." v)) as [|[a|] [|[b|] [|[c|] [|? ?]]]];
    try apply ro_ret.
  destruct (pair_ltb (a, b) (3, 6)%N); [apply ro_ret|].
  apply ro_bind; [apply ro_get_fs|]. intros st.
  destruct (negb (exists_ h _ st)); [apply ro_ret|].
  destruct (relocate_audio game_folder st) as [st' [e|]] eqn:E.
  - apply ro_bind; [apply ro_put_fs|]. intros _. apply ro_raise.
    pose proof (relocate_raises _ _ _ _ E). now destruct e.
  - ro_auto.
Qed.

Lemma ro_process_logical_archive name game_folder :
  raises_only is_Exception
    (process_logical_archive h run_hpatchz relocate_audio name game_folder).
Proof.
  unfold process_logical_archive.
  apply ro_bind; [|intros _; apply ro_bind;
                     [apply ro_apply_hdiff|intros ?; apply ro_ret]].
  destruct (needs_migration name); [|apply ro_delete_files].
  apply ro_bind; [apply ro_migrate|]. intros b.
  destruct (negb b); [apply ro_emit|apply ro_ret].
Qed.

Lemma ro_extract_multipart_and_process first game_folder :
  raises_only is_Exception
    (extract_multipart_and_process h run_7z run_hpatchz relocate_audio
       first game_folder).
Proof.
  unfold extract_multipart_and_process.
  apply ro_bind; [|intros _; apply ro_process_logical_archive].
  unfold extract_multipart_and_unlink.
  apply ro_bind.
  - apply ro_try_except; [|apply ro_emit].
    apply ro_bind; [apply ro_emit|]. intros _. apply ro_extract_with_7z.
  - intros _. apply ro_bind; [apply ro_get_fs|]. intros st.
    destruct (collect_parts_for_first h first st);
      [|apply ro_raise; reflexivity].
    apply ro_for_each. intros p. apply ro_unlink_quietly.
Qed.

Lemma appends_keeps_in {A} (P : event -> bool) (m : M A) ev s :
  appends P m -> In ev (trace s) -> In ev (trace (fst (m s))).
Proof.
  intros Hm Hin. destruct (Hm s) as (new & -> & _).
  apply in_or_app. now right.
Qed.

Lemma extract_multipart_announces first game_folder s :
  In (Log INFO (Processing_multipart_archive first))
     (trace (fst (extract_multipart_and_process h run_7z run_hpatchz
                    relocate_audio first game_folder s))).
Proof.
  unfold extract_multipart_and_process, extract_multipart_and_unlink.
  set (try := try_except _ _ _).
  assert (Htry : exists s1, try s = (s1, Ret tt)
                   /\ In (Log INFO (Processing_multipart_archive first))
                         (trace s1)).
  { unfold try, extract_with_7z. run_unfold. cbn [fs trace].
    destruct (run_7z first (fs s)) as [st' []]; cbn; eexists;
      (split; [reflexivity|]); cbn; auto. }
  destruct Htry as (s1 & E & Hin).
  unfold bind at 1. unfold bind at 1. unfold bind at 1. rewrite E.
  unfold get_fs. cbn [fs].
  set (rest := match collect_parts_for_first h first (fs s1) with
               | Some parts => _ | None => _ end).
  assert (Hrest : In (Log INFO (Processing_multipart_archive first))
                     (trace (fst (rest s1)))).
  { apply (appends_keeps_in before_finish); [|exact Hin].
    unfold rest. destruct (collect_parts_for_first h first (fs s1));
      appends_auto. }
  destruct (rest s1) as [s2 [[]|e]]; [|exact Hrest].
  apply (appends_keeps_in before_finish); [|exact Hrest].
  apply quiet_process_logical_archive.
Qed.

Lemma multipart_turn_keeps game_folder acc first ev :
  In ev (trace (fst acc)) ->
  In ev (trace (fst (multipart_turn h run_7z run_hpatchz relocate_audio
                       game_folder acc first))).
Proof.
  intros Hin. unfold multipart_turn.
  pose proof (appends_keeps_in before_finish _ ev (fst acc)
                (quiet_extract_multipart_and_process h run_7z run_hpatchz
                   relocate_audio first game_folder) Hin) as H.
  destruct (extract_multipart_and_process _ _ _ _ _ _ _) as [s1 [b|e]];
    [|destruct (is_Exception e)]; cbn [fst trace] in *; auto. now right.
Qed.

Lemma multipart_turns_keep game_folder l acc ev :
  In ev (trace (fst acc)) ->
  In ev (trace (fst (fold_left (multipart_turn h run_7z run_hpatchz
                                  relocate_audio game_folder) l acc))).
Proof.
  revert acc. induction l as [|x l IH]; intros acc Hin; [exact Hin|].
  cbn [fold_left]. apply IH. now apply multipart_turn_keeps.
Qed.

Lemma multipart_turn_announces game_folder acc first :
  In (Log INFO (Processing_multipart_archive first))
     (trace (fst (multipart_turn h run_7z run_hpatchz relocate_audio
                    game_folder acc first))).
Proof.
  unfold multipart_turn.
  pose proof (extract_multipart_announces first game_folder (fst acc)) as H.
  destruct (extract_multipart_and_process _ _ _ _ _ _ _) as [s1 [b|e]];
    [|destruct (is_Exception e)]; cbn [fst trace] in *; auto. now right.
Qed.

Lemma multipart_turn_caught game_folder acc first s1 e :
  extract_multipart_and_process h run_7z run_hpatchz relocate_audio
    first game_folder (fst acc) = (s1, Raise e) ->
  multipart_turn h run_7z run_hpatchz relocate_audio game_folder acc first
  = (mkState (fs s1)
       (Log WARNING (Error_processing_multipart first) :: trace s1),
     snd acc).
Proof.
  intros E. unfold multipart_turn.
  now rewrite E, (ro_extract_multipart_and_process _ _ _ _ _ E).
Qed.

Lemma multipart_loop game_folder l acc s :
  for_fold (fun first patched_any =>
      try_except
        (b <- extract_multipart_and_process h run_7z run_hpatchz
                relocate_audio first game_folder ;;
         ret (if b then true else patched_any))
        is_Exception
        (log WARNING (Error_processing_multipart first) ;;; ret patched_any))
    l acc s
  = (fst (fold_left (multipart_turn h run_7z run_hpatchz relocate_audio
                       game_folder) l (s, acc)),
     Ret (snd (fold_left (multipart_turn h run_7z run_hpatchz relocate_audio
                            game_folder) l (s, acc)))).
Proof.
  revert acc s. induction l as [|first l IH]; intros acc s; [reflexivity|].
  cbn [for_fold fold_left]. unfold bind at 1, try_except at 1, bind at 1.
  destruct (extract_multipart_and_process _ _ _ _ _ _ s) as [s1 [b|e]] eqn:E.
  - unfold multipart_turn at 2 4. cbn [fst snd]. rewrite E.
    unfold ret. apply IH.
  - rewrite (multipart_turn_caught game_folder (s, acc) first s1 e E).
    rewrite (ro_extract_multipart_and_process _ _ _ _ _ E).
    unfold log, emit, bind, ret. apply IH.
Qed.

End Isolation.

(** X15: [extract_all_multipart_and_process] never raises and gives
    every first part its turn, in order: what goes wrong while one
    multipart archive is extracted, migrated, cleaned or patched (a
    failure of the patch tool or of the glob included) is caught, a
    warning that names the archive is logged in the state in which the
    exception was raised, the flag stays as it was, and the loop goes on
    with the first parts that follow, each of which is announced in the
    trace.  The relocation of the audio folder is assumed not to exit
    the process. *)
Theorem multipart_errors_are_isolated
    h run_7z run_hpatchz relocate_audio game_folder s :
  (forall p st st' e, relocate_audio p st = (st', Some e) -> e <> SystemExit) ->
  let turn := multipart_turn h run_7z run_hpatchz relocate_audio game_folder in
  let firsts := get_multipart_first_parts h (fs s) in
  let r := fold_left turn firsts (s, false) in
  extract_all_multipart_and_process h run_7z run_hpatchz relocate_audio
    game_folder s = (fst r, Ret (snd r))
  /\ (forall first,
        In first firsts ->
        In (Log INFO (Processing_multipart_archive first)) (trace (fst r)))
  /\ (forall l1 first l2 s1 e,
        firsts = (l1 ++ first :: l2)%list ->
        extract_multipart_and_process h run_7z run_hpatchz relocate_audio
          first game_folder (fst (fold_left turn l1 (s, false)))
        = (s1, Raise e) ->
        In (Log WARNING (Error_processing_multipart first)) (trace (fst r))
        /\ r = fold_left turn l2
                 (mkState (fs s1)
                    (Log WARNING (Error_processing_multipart first) :: trace s1),
                  snd (fold_left turn l1 (s, false)))).
Proof.
  intros H turn firsts r. split; [|split].
  - unfold extract_all_multipart_and_process. unfold bind, get_fs.
    now apply multipart_loop.
  - intros first Hin. unfold r.
    apply in_split in Hin as (l1 & l2 & ->).
    rewrite fold_left_app. cbn [fold_left].
    apply multipart_turns_keep, multipart_turn_announces.
  - intros l1 first l2 s1 e Hl E.
    assert (Hr : r = fold_left turn l2
                       (mkState (fs s1)
                          (Log WARNING (Error_processing_multipart first)
                           :: trace s1),
                        snd (fold_left turn l1 (s, false)))).
    { unfold r. rewrite Hl, fold_left_app. cbn [fold_left].
      unfold turn at 2.
      now rewrite (multipart_turn_caught h run_7z run_hpatchz relocate_audio
                     H game_folder _ first s1 e E). }
    split; [|exact Hr]. rewrite Hr.
    apply multipart_turns_keep. cbn [fst trace]. now left.
Qed.

Lemma multipart_errors_are_isolated_witness :
  exists s',
    extract_all_multipart_and_process Windows
      (fun _ st => ((st ++ [mkEntry ["hdifffiles.txt"] (KFile "a.bin") false false false;
                            mkEntry ["a.bin.hdiff"] (KFile "d") false false false])%list,
                    Exit0))
      (fun _ st => (st, ExitNonZero)) (fun _ st => (st, None)) ["Client"]
      (mkState [mkEntry ["u.zip.001"] (KFile "z") false false false;
                mkEntry ["v.zip.001"] (KFile "z") false false false;
                mkEntry ["a.bin"] (KFile "x") false false false] [])
    = (s', Ret false)
    /\ In (Log WARNING (Error_processing_multipart "u.zip.001")) (trace s')
    /\ In (Log INFO (Processing_multipart_archive "v.zip.001")) (trace s').
Proof.
  destruct (multipart_errors_are_isolated Windows
      (fun _ st => ((st ++ [mkEntry ["hdifffiles.txt"] (KFile "a.bin") false false false;
                            mkEntry ["a.bin.hdiff"] (KFile "d") false false false])%list,
                    Exit0))
      (fun _ st => (st, ExitNonZero)) (fun _ st => (st, None)) ["Client"]
      (mkState [mkEntry ["u.zip.001"] (KFile "z") false false false;
                mkEntry ["v.zip.001"] (KFile "z") false false false;
                mkEntry ["a.bin"] (KFile "x") false false false] []))
    as (H1 & H2 & H3).
  - intros p st st' e E. discriminate E.
  - eexists. split; [|split].
    + rewrite H1. vm_compute. reflexivity.
    + vm_compute. auto 10.
    + vm_compute. auto 10.
Defined.

(** ** The flag that [apply_hdiff] returns *)

Section Flag.
Variable h : platform.
Variable run_hpatchz : string -> store -> store * proc.

Lemma hdiff_entry_cases line acc s s1 b1 :
  hdiff_entry h run_hpatchz line acc s = (s1, Ret b1) ->
  (s1 = s /\ b1 = acc)
  \/ (b1 = true
      /\ trace s1 = Log INFO (Patched (strip line))
                    :: ExecHpatchz (strip line) :: trace s).
Proof.
  destruct (String.eqb (strip line) "") eqn:Eb.
  - apply String.eqb_eq in Eb. rewrite hdiff_entry_blank by assumption.
    intros [= <- <-]. now left.
  - apply String.eqb_neq in Eb.
    destruct (exists_ h (Path_of h (strip line ++ ".hdiff")) (fs s)) eqn:Ex.
    + rewrite hdiff_entry_tool by assumption. cbv zeta.
      destruct (run_hpatchz _ _) as [st' [ | | ]]; try discriminate.
      intros [= <- <-]. right. now split.
    + rewrite hdiff_entry_absent by assumption. intros [= <- <-]. now left.
Qed.

Lemma for_fold_flag lines : forall acc s s' b,
  for_fold (hdiff_entry h run_hpatchz) lines acc s = (s', Ret b) ->
  exists new,
    trace s' = (new ++ trace s)%list
    /\ (b = true <-> acc = true \/ exists t, In (Log INFO (Patched t)) new)
    /\ (b = true <-> acc = true \/ exists t, In (ExecHpatchz t) new).
Proof.
  induction lines as [|l lines IH]; intros acc s s' b.
  - cbn [for_fold]. unfold ret. intros [= <- <-]. exists [].
    split; [reflexivity|]. split; (split; [now left|]);
      (intros [H|[t []]]; exact H).
  - cbn [for_fold]. unfold bind.
    destruct (hdiff_entry h run_hpatchz l acc s) as [s1 [b1|e]] eqn:E1;
      [|discriminate].
    intros H. destruct (IH _ _ _ _ H) as (new2 & E2 & HP & HE).
    destruct (hdiff_entry_cases _ _ _ _ _ E1) as [[-> ->]|[-> Et]].
    + exists new2. now split.
    + exists (new2 ++ [Log INFO (Patched (strip l)); ExecHpatchz (strip l)])%list.
      split; [rewrite E2, Et, <- app_assoc; reflexivity|].
      assert (Hb : b = true) by (apply HP; now left).
      split; (split; [intros _; right; exists (strip l);
                      apply in_or_app; right; simpl; auto
                     |intros _; exact Hb]).
Qed.

Lemma replace_text_trace p s s1 r :
  replace_text_in_file h p s = (s1, r) -> trace s1 = trace s.
Proof.
  unfold replace_text_in_file. run_unfold.
  destruct (negb (exists_ h p (fs s))); [now intros [= <- _]|].
  destruct (read_text h p (fs s)) as [text|]; [|now intros [= <- _]].
  destruct (write_text h p _ (fs s)); now intros [= <- _].
Qed.

End Flag.

(** X16: when [apply_hdiff] returns, its result is [True] exactly when the
    patch tool was run in this call, and then every run of the tool
    succeeded and was logged as patched; a manifest that patches nothing
    gives [False]. *)
Theorem patched_flag_iff h run_hpatchz s s' b :
  apply_hdiff h run_hpatchz s = (s', Ret b) ->
  exists new,
    trace s' = (new ++ trace s)%list
    /\ (b = true <-> exists t, In (Log INFO (Patched t)) new)
    /\ (b = true <-> exists t, In (ExecHpatchz t) new).
Proof.
  unfold apply_hdiff. unfold bind at 1, get_fs at 1.
  destruct (negb (exists_ h hdifffiles_txt (fs s))).
  - unfold ret. intros [= <- <-]. exists []. split; [reflexivity|].
    split; (split; [discriminate|intros [t []]]).
  - unfold bind at 1.
    destruct (replace_text_in_file h hdifffiles_txt s) as [s1 [[]|e]] eqn:E1;
      [|discriminate].
    apply replace_text_trace in E1.
    unfold bind at 1, get_fs at 1.
    destruct (read_text h hdifffiles_txt (fs s1)) as [text|]; [|discriminate].
    unfold bind at 1.
    destruct (for_fold (hdiff_entry h run_hpatchz) (splitlines text) false s1)
      as [s2 [b2|e]] eqn:E2; [|discriminate].
    unfold bind. rewrite unlink_quietly_run. unfold ret. intros [= <- <-].
    destruct (for_fold_flag h run_hpatchz _ _ _ _ _ E2) as (new & Et & HP & HE).
    exists new. split.
    + rewrite <- E1, <- Et.
      match goal with
      | |- trace (match ?u with _ => _ end) = _ => now destruct u
      end.
    + split; [rewrite HP|rewrite HE]; (split; [intros [H|H]; [discriminate|exact H]
                                              |intros H; now right]).
Qed.

Lemma patched_flag_iff_witness :
  let r := apply_hdiff Windows (fun _ st => (st, Exit0))
             (mkState [mkEntry ["hdifffiles.txt"] (KFile "a.bin") false false false;
                       mkEntry ["a.bin"] (KFile "x") false false false;
                       mkEntry ["a.bin.hdiff"] (KFile "d") false false false] []) in
  exists new,
    trace (fst r) = (new ++ [])%list /\ exists t, In (ExecHpatchz t) new.
Proof.
  intros r.
  destruct (patched_flag_iff Windows (fun _ st => (st, Exit0))
       (mkState [mkEntry ["hdifffiles.txt"] (KFile "a.bin") false false false;
                 mkEntry ["a.bin"] (KFile "x") false false false;
                 mkEntry ["a.bin.hdiff"] (KFile "d") false false false] [])
       (fst r) true eq_refl) as (new & E & _ & H).
  exists new. split; [exact E|]. now apply H.
Defined.

(** ** The removal of empty directories *)

Section EmptyDirs.
Variable h : platform.

Lemma rmdir_keeps_file p q st st' e c :
  rmdir h p st = Some st' -> lookup h q st = Some e -> e_kind e = KFile c ->
  lookup h q st' = Some e.
Proof.
  intros Hr He Hk. destruct (path_eqb h q p) eqn:E.
  - exfalso. unfold rmdir in Hr. destruct p as [|a p]; [discriminate|].
    rewrite <- (lookup_eqb_key h _ _ st E) in Hr.
    rewrite He, Hk in Hr. discriminate.
  - now rewrite (rmdir_keeps_lookup h p q st st' Hr E).
Qed.

Lemma pass_steps_keep_file q e c ps : forall acc,
  lookup h q (fst acc) = Some e -> e_kind e = KFile c ->
  lookup h q (fst (fold_left (pass_step h) ps acc)) = Some e.
Proof.
  induction ps as [|p ps IH]; intros acc He Hk; [exact He|].
  cbn [fold_left]. apply IH; [|exact Hk]. unfold pass_step.
  destruct (is_dir h p (fst acc)); [|exact He].
  destruct (rmdir h p (fst acc)) as [st'|] eqn:E; [|exact He].
  cbn [fst]. eapply rmdir_keeps_file; eassumption.
Qed.

Lemma rmdir_pass_keeps_file game_folder q e c st :
  lookup h q st = Some e -> e_kind e = KFile c ->
  lookup h q (fst (rmdir_pass h game_folder st)) = Some e.
Proof.
  intros He Hk. unfold rmdir_pass.
  now apply (pass_steps_keep_file q e c _ (st, false)).
Qed.

Lemma cleanup_loop_keeps_file fuel game_folder q e c : forall st,
  lookup h q st = Some e -> e_kind e = KFile c ->
  lookup h q (cleanup_loop h fuel game_folder st) = Some e.
Proof.
  induction fuel as [|fuel IH]; intros st He Hk; [exact He|].
  cbn [cleanup_loop].
  pose proof (rmdir_pass_keeps_file game_folder q e c st He Hk) as H.
  destruct (rmdir_pass h game_folder st) as [st' removed]. cbn [fst] in H.
  destruct removed; [now apply IH|exact H].
Qed.

Lemma pass_steps_settled ps st :
  fold_left (pass_step h) ps (st, false) = (st, false) ->
  forall p, In p ps -> pass_step h (st, false) p = (st, false).
Proof.
  induction ps as [|p0 ps IH]; intros H p Hp; [destruct Hp|].
  cbn [fold_left] in H.
  assert (E0 : pass_step h (st, false) p0 = (st, false)).
  { destruct (pass_step_rel h (st, false) p0) as [_ [E|[Hc Hl]]]; [exact E|].
    exfalso.
    destruct (pass_steps_rel h ps (pass_step h (st, false) p0))
      as [_ [E|[Hc2 _]]].
    - rewrite E in H. rewrite H in Hc. discriminate.
    - rewrite H in Hc2. discriminate. }
  rewrite E0 in H. destruct Hp as [<-|Hp]; [exact E0|now apply IH].
Qed.

Lemma settled_no_rmdir game_folder st p :
  rmdir_pass h game_folder st = (st, false) ->
  In p (rglob_all h game_folder st) -> is_dir h p st = true ->
  rmdir h p st = None.
Proof.
  intros H Hp Hd.
  assert (Hin : In p (rev (sorted_paths h (rglob_all h game_folder st)))).
  { rewrite <- in_rev. now apply sorted_paths_in. }
  pose proof (pass_steps_settled _ st H p Hin) as Hs.
  unfold pass_step in Hs. cbn [fst] in Hs. rewrite Hd in Hs.
  destruct (rmdir h p st); [discriminate|reflexivity].
Qed.

Lemma cleanup_empty_dirs_run game_folder s :
  cleanup_empty_dirs h game_folder s
  = (mkState (cleanup_loop h (S (List.length (fs s))) game_folder (fs s))
       (trace s), Ret tt).
Proof. reflexivity. Qed.

End EmptyDirs.

(** X17: [cleanup_empty_dirs] returns normally, logs nothing and removes
    directories only: every file keeps its entry, with its content, and
    so does everything that is not strictly below the game folder, the
    game folder itself included; running it again changes nothing. *)
Theorem cleanup_empty_dirs_removes_only_directories h game_folder s :
  exists s',
    cleanup_empty_dirs h game_folder s = (s', Ret tt)
    /\ trace s' = trace s
    /\ incl (fs s') (fs s)
    /\ (forall q e c, lookup h q (fs s) = Some e -> e_kind e = KFile c ->
          lookup h q (fs s') = Some e)
    /\ (forall q, strictly_under h game_folder q = false ->
          lookup h q (fs s') = lookup h q (fs s))
    /\ cleanup_empty_dirs h game_folder s' = (s', Ret tt).
Proof.
  rewrite cleanup_empty_dirs_run. eexists. split; [reflexivity|]. cbn [fs trace].
  split; [reflexivity|]. split; [|split; [|split]].
  - apply cleanup_loop_settles. lia.
  - intros q e c. apply cleanup_loop_keeps_file.
  - intros q. apply cleanup_loop_keeps_lookup.
  - rewrite cleanup_empty_dirs_run. cbn [fs trace].
    pose proof (proj1 (cleanup_loop_settles h (S (List.length (fs s)))
                         game_folder (fs s) (Nat.lt_succ_diag_r _))) as Hs.
    set (st' := cleanup_loop h (S (List.length (fs s))) game_folder (fs s)) in *.
    do 2 f_equal. cbn [cleanup_loop]. now rewrite Hs.
Qed.

(** X18: when [cleanup_empty_dirs] is done, no directory below the game
    folder can be removed any more: each of them still holds an entry,
    or the system refuses its removal.  The loop ends by a pass that
    removes nothing. *)
Theorem cleanup_empty_dirs_is_exhaustive h game_folder s p :
  let st' := fs (fst (cleanup_empty_dirs h game_folder s)) in
  In p (rglob_all h game_folder st') -> is_dir h p st' = true ->
  rmdir_pass h game_folder st' = (st', false)
  /\ rmdir h p st' = None
  /\ exists d, lookup h p st' = Some d
               /\ (undeletable h d = true \/ has_children h p st' = true).
Proof.
  rewrite cleanup_empty_dirs_run. cbn [fst fs]. intros Hp Hd.
  set (st' := cleanup_loop h (S (List.length (fs s))) game_folder (fs s)) in *.
  assert (Hs : rmdir_pass h game_folder st' = (st', false)).
  { apply cleanup_loop_settles. lia. }
  split; [exact Hs|].
  pose proof (settled_no_rmdir h game_folder st' p Hs Hp Hd) as Hr.
  split; [exact Hr|].
  unfold rmdir in Hr. unfold is_dir, node_kind in Hd.
  destruct p as [|a p].
  - apply rglob_all_under in Hp. unfold strictly_under in Hp.
    destruct game_folder; discriminate Hp.
  - destruct (lookup h (a :: p) st') as [d|]; [|discriminate Hd].
    cbn [option_map] in Hd. exists d. split; [reflexivity|].
    destruct (e_kind d); [discriminate Hd|].
    destruct (undeletable h d); [now left|]. right.
    destruct (has_children h (a :: p) st'); [reflexivity|discriminate Hr].
Qed.

Lemma cleanup_empty_dirs_is_exhaustive_witness :
  let s := mkState [mkEntry ["Client"] KDir false false false;
                    mkEntry ["Client"; "a"] KDir false false false;
                    mkEntry ["Client"; "a"; "b"] KDir false false false;
                    mkEntry ["Client"; "d"] KDir false false false;
                    mkEntry ["Client"; "d"; "f.bin"] (KFile "x") false false false]
                   [] in
  fs (fst (cleanup_empty_dirs Windows ["Client"] s))
  = [mkEntry ["Client"] KDir false false false;
     mkEntry ["Client"; "d"] KDir false false false;
     mkEntry ["Client"; "d"; "f.bin"] (KFile "x") false false false]
  /\ has_children Windows ["Client"; "d"]
       (fs (fst (cleanup_empty_dirs Windows ["Client"] s))) = true.
Proof.
  intros s. split; [reflexivity|].
  destruct (cleanup_empty_dirs_is_exhaustive Windows ["Client"] s ["Client"; "d"])
    as (_ & _ & d & Hd & [Hu|Hc]).
  - vm_compute. auto.
  - reflexivity.
  - vm_compute in Hd. injection Hd as <-. discriminate Hu.
  - exact Hc.
Defined.

(** ** The removal of auxiliary files *)

Section AuxFiles.
Variable h : platform.

Lemma for_each_invariant {X} (I : state -> Prop) (body : X -> M unit) l :
  (forall x s1, In x l -> I s1 ->
     exists s2, body x s1 = (s2, Ret tt) /\ I s2) ->
  forall s, I s -> exists s', for_each body l s = (s', Ret tt) /\ I s'.
Proof.
  unfold for_each. induction l as [|x l IH]; intros H s Hs.
  - exists s. now split.
  - cbn [for_fold]. unfold bind.
    destruct (H x s (or_introl eq_refl) Hs) as (s2 & -> & H2).
    apply IH; [|exact H2]. intros y s1 Hy. apply H. now right.
Qed.

Lemma for_each_hits {X} (J N : state -> Prop) (body : X -> M unit) l x :
  In x l ->
  (forall y s1, J s1 -> exists s2, body y s1 = (s2, Ret tt) /\ J s2) ->
  (forall y s1, N s1 -> exists s2, body y s1 = (s2, Ret tt) /\ N s2) ->
  (forall s1, J s1 -> exists s2, body x s1 = (s2, Ret tt) /\ N s2) ->
  forall s, J s -> exists s', for_each body l s = (s', Ret tt) /\ N s'.
Proof.
  intros Hx HJ HN Hhit. induction l as [|y l IH]; intros s Hs; [destruct Hx|].
  unfold for_each. cbn [for_fold]. unfold bind.
  destruct Hx as [->|Hx].
  - destruct (Hhit s Hs) as (s2 & -> & H2).
    apply (for_each_invariant N body l); [|exact H2].
    intros z s1 _. apply HN.
  - destruct (HJ y s Hs) as (s2 & -> & H2). now apply IH.
Qed.

Lemma lookup_none_filter f q st :
  lookup h q st = None -> lookup h q (filter f st) = None.
Proof.
  unfold lookup. induction st as [|d st IH]; [reflexivity|].
  cbn [find filter]. destruct (path_eqb h (e_path d) q) eqn:E; [discriminate|].
  intros H. destruct (f d); [cbn [find]; rewrite E|]; now apply IH.
Qed.

Lemma unlink_quietly_other p q s :
  path_eqb h q p = false ->
  lookup h q (fs (fst (unlink_quietly h p s))) = lookup h q (fs s).
Proof.
  intros Hq. rewrite unlink_quietly_run. cbn [fst].
  destruct (unlink h p (fs s)) as [st'|] eqn:E; [|reflexivity].
  apply unlink_is_remove in E. subst st'. cbn [fs].
  now rewrite lookup_remove_path, Hq.
Qed.

Lemma unlink_quietly_none p q s :
  lookup h q (fs s) = None ->
  lookup h q (fs (fst (unlink_quietly h p s))) = None.
Proof.
  intros Hq. rewrite unlink_quietly_run. cbn [fst].
  destruct (unlink h p (fs s)) as [st'|] eqn:E; [|exact Hq].
  apply unlink_is_remove in E. subst st'. cbn [fs].
  rewrite lookup_remove_path. now destruct (path_eqb h q p).
Qed.

Lemma unlink_quietly_keeps p q e s :
  lookup h q (fs s) = Some e \/ lookup h q (fs s) = None ->
  lookup h q (fs (fst (unlink_quietly h p s))) = Some e
  \/ lookup h q (fs (fst (unlink_quietly h p s))) = None.
Proof.
  intros [H|H]; [|right; now apply unlink_quietly_none].
  rewrite unlink_quietly_run. cbn [fst].
  destruct (unlink h p (fs s)) as [st'|] eqn:E; [|now left].
  apply unlink_is_remove in E. subst st'. cbn [fs].
  rewrite lookup_remove_path. destruct (path_eqb h q p); auto.
Qed.

Lemma unlink_quietly_hit p q e c s :
  path_eqb h q p = true -> q <> [] ->
  e_kind e = KFile c -> undeletable h e = false ->
  lookup h q (fs s) = Some e \/ lookup h q (fs s) = None ->
  lookup h q (fs (fst (unlink_quietly h p s))) = None.
Proof.
  intros Hq Hne Hk Hu [H|H]; [|now apply unlink_quietly_none].
  rewrite unlink_quietly_run. cbn [fst]. unfold unlink.
  destruct p as [|a p]; [destruct q; [congruence|discriminate Hq]|].
  rewrite <- (lookup_eqb_key h _ _ (fs s) Hq), H, Hk, Hu. cbn [fs].
  now rewrite lookup_remove_path, Hq.
Qed.

Lemma unlink_quietly_ret p s : snd (unlink_quietly h p s) = Ret tt.
Proof. now rewrite unlink_quietly_run. Qed.

Lemma unlink_quietly_step (I : state -> Prop) p s :
  I (fst (unlink_quietly h p s)) ->
  exists s2, unlink_quietly h p s = (s2, Ret tt) /\ I s2.
Proof.
  intros H. exists (fst (unlink_quietly h p s)). split; [|exact H].
  rewrite unlink_quietly_run. reflexivity.
Qed.

Lemma path_name_eqb p : forall q,
  path_eqb h p q = true ->
  normcase h (path_name p) = normcase h (path_name q).
Proof.
  unfold path_name.
  induction p as [|a p IH]; intros [|b q]; simpl; try discriminate;
    [reflexivity|].
  intros H. apply andb_true_iff in H as [Hab Hpq].
  destruct p as [|a' p]; destruct q as [|b' q]; try discriminate Hpq.
  - unfold name_eqb in Hab. now apply String.eqb_eq in Hab.
  - apply (IH (b' :: q)). exact Hpq.
Qed.

Lemma fnmatch_eqb p q pat :
  path_eqb h p q = true ->
  fnmatch h (path_name p) pat = fnmatch h (path_name q) pat.
Proof. intros H. unfold fnmatch. now rewrite (path_name_eqb p q H). Qed.

Lemma rglob_pat_in p pat st q :
  In q (rglob_pat h p pat st) ->
  strictly_under h p q = true /\ fnmatch h (path_name q) pat = true.
Proof.
  unfold rglob_pat. destruct (is_dir h p st); [|easy].
  rewrite in_map_iff. intros (e & <- & He). apply filter_In in He as [_ He].
  now apply andb_true_iff in He.
Qed.

Lemma rglob_pat_root_in pat st e :
  In e st -> e_path e <> [] -> fnmatch h (path_name (e_path e)) pat = true ->
  In (e_path e) (rglob_pat h [] pat st).
Proof.
  intros He Hne Hf. unfold rglob_pat. cbn [is_dir node_kind].
  apply in_map. apply filter_In. split; [exact He|].
  rewrite Hf, andb_true_r. unfold strictly_under. cbn [is_prefix].
  destruct (e_path e); [congruence|reflexivity].
Qed.

(** One directory of [aux_targets] found below the game folder. *)
Lemma rmtree_step (I : state -> Prop) found s :
  (forall st, I (mkState st (trace s)) ->
     I (mkState (rmtree_ignore h found st)
          (Log INFO (Deleted_directory_tree_flex found) :: trace s))) ->
  I s ->
  exists s2,
    (st' <- get_fs ;;
     if is_dir h found st' then
       put_fs (rmtree_ignore h found st') ;;;
       log INFO (Deleted_directory_tree_flex found)
     else ret tt) s = (s2, Ret tt) /\ I s2.
Proof.
  intros H Hs. run_unfold. destruct (is_dir h found (fs s)).
  - eexists. split; [reflexivity|]. cbn [fs trace]. apply H. now destruct s.
  - exists s. now split.
Qed.

Section Invariant.
Variable game_folder : path.
Variable I : store -> Prop.
Hypothesis I_unlink :
  forall pat p s, In pat aux_patterns -> fnmatch h (path_name p) pat = true ->
    I (fs s) -> I (fs (fst (unlink_quietly h p s))).
Hypothesis I_rmtree :
  forall target found st, In target aux_targets ->
    strictly_under h game_folder found = true ->
    fnmatch h (path_name found) target = true ->
    I st -> I (rmtree_ignore h found st).

Lemma cleanup_aux_files_invariant s :
  I (fs s) ->
  exists s', cleanup_aux_files h game_folder s = (s', Ret tt) /\ I (fs s').
Proof.
  intros Hs. unfold cleanup_aux_files. unfold bind at 1.
  destruct (for_each_invariant (fun s1 => I (fs s1))
              (fun pat => st <- get_fs ;;
                          for_each (unlink_quietly h) (rglob_pat h [] pat st))
              aux_patterns) with (s := s) as (s1 & -> & H1); [|exact Hs|].
  { intros pat s1 Hpat H1. unfold bind, get_fs.
    apply (for_each_invariant (fun s2 => I (fs s2))); [|exact H1].
    intros p s2 Hp H2. apply (unlink_quietly_step (fun s3 => I (fs s3))).
    apply rglob_pat_in in Hp as [_ Hp]. now apply (I_unlink pat). }
  apply (for_each_invariant (fun s2 => I (fs s2))); [|exact H1].
  intros target s2 Ht H2. unfold bind at 1, get_fs at 1.
  apply (for_each_invariant (fun s3 => I (fs s3))); [|exact H2].
  intros found s3 Hf H3. apply rglob_pat_in in Hf as [Hu Hf].
  apply (rmtree_step (fun s4 => I (fs s4))); [|exact H3].
  intros st Hst. cbn [fs] in *. now apply (I_rmtree target).
Qed.

End Invariant.

Lemma rmtree_other found q st :
  is_prefix h found q = false ->
  lookup h q (rmtree_ignore h found st) = lookup h q st.
Proof.
  intros E. unfold rmtree_ignore. destruct (is_dir h found st); [|reflexivity].
  apply lookup_filter. intros d Hd.
  now rewrite (is_prefix_eqb_r h found _ _ Hd), E.
Qed.

Lemma cleanup_aux_files_sweeps game_folder q e c pat s :
  In pat aux_patterns -> fnmatch h (path_name q) pat = true -> q <> [] ->
  lookup h q (fs s) = Some e -> e_kind e = KFile c -> undeletable h e = false ->
  exists s', cleanup_aux_files h game_folder s = (s', Ret tt)
             /\ lookup h q (fs s') = None.
Proof.
  intros Hpat Hf Hne He Hk Hu.
  set (J := fun s1 : state => lookup h q (fs s1) = Some e
                              \/ lookup h q (fs s1) = None).
  set (N := fun s1 : state => lookup h q (fs s1) = None).
  assert (HJ : forall p s1, J s1 ->
             exists s2, unlink_quietly h p s1 = (s2, Ret tt) /\ J s2).
  { intros p s1 H1. apply (unlink_quietly_step J). now apply unlink_quietly_keeps. }
  assert (HN : forall p s1, N s1 ->
             exists s2, unlink_quietly h p s1 = (s2, Ret tt) /\ N s2).
  { intros p s1 H1. apply (unlink_quietly_step N). now apply unlink_quietly_none. }
  unfold cleanup_aux_files. unfold bind at 1.
  destruct (for_each_hits J N
              (fun pat => st <- get_fs ;;
                          for_each (unlink_quietly h) (rglob_pat h [] pat st))
              aux_patterns pat Hpat) with (s := s) as (s1 & -> & H1).
  - intros y s1 H1. unfold bind, get_fs.
    apply (for_each_invariant J); [|exact H1]. intros p s2 _. apply HJ.
  - intros y s1 H1. unfold bind, get_fs.
    apply (for_each_invariant N); [|exact H1]. intros p s2 _. apply HN.
  - intros s1 H1. unfold bind, get_fs.
    destruct H1 as [H1|H1].
    + assert (Hin : In (e_path e) (rglob_pat h [] pat (fs s1))).
      { pose proof (lookup_path h _ _ _ H1) as Hp.
        apply rglob_pat_root_in.
        - unfold lookup in H1. now apply find_some in H1.
        - intros E. rewrite E in Hp. destruct q; [congruence|discriminate Hp].
        - now rewrite (fnmatch_eqb _ _ pat Hp). }
      apply (for_each_hits J N (unlink_quietly h) _ (e_path e) Hin HJ HN);
        [|now left].
      intros s2 H2. apply (unlink_quietly_step N).
      apply (unlink_quietly_hit _ _ e c); try assumption.
      rewrite path_eqb_sym. exact (lookup_path h _ _ _ H1).
    + apply (for_each_invariant N); [|exact H1]. intros p s2 _. apply HN.
  - now left.
  - apply (for_each_invariant N); [|exact H1].
    intros target s2 _ H2. unfold bind at 1, get_fs at 1.
    apply (for_each_invariant N); [|exact H2].
    intros found s3 _ H3. apply (rmtree_step N); [|exact H3].
    intros st Hst. unfold N in *. cbn [fs] in *. unfold rmtree_ignore.
    destruct (is_dir h found st); [|exact Hst]. now apply lookup_none_filter.
Qed.

End AuxFiles.

(** X19: [cleanup_aux_files] never raises and sweeps the whole tree: a
    removable file whose name matches one of its patterns is gone
    afterwards, wherever it lies below the working directory, the game
    folder included. *)
Theorem cleanup_aux_files_removes_matches h game_folder q e c pat s :
  In pat aux_patterns -> fnmatch h (path_name q) pat = true -> q <> [] ->
  lookup h q (fs s) = Some e -> e_kind e = KFile c -> undeletable h e = false ->
  exists s', cleanup_aux_files h game_folder s = (s', Ret tt)
             /\ exists_ h q (fs s') = false.
Proof.
  intros Hpat Hf Hne He Hk Hu.
  destruct (cleanup_aux_files_sweeps h game_folder q e c pat s
              Hpat Hf Hne He Hk Hu) as (s' & E & H).
  exists s'. split; [exact E|]. unfold exists_, node_kind.
  destruct q; [congruence|]. now rewrite H.
Qed.

Lemma cleanup_aux_files_removes_matches_witness :
  exists s',
    cleanup_aux_files Windows ["Client"]
      (mkState [mkEntry ["Client"] KDir false false false;
                mkEntry ["Client"; "Data"] KDir false false false;
                mkEntry ["Client"; "Data"; "notes.TXT"] (KFile "n") false false false]
         [])
    = (s', Ret tt)
    /\ exists_ Windows ["Client"; "Data"; "notes.TXT"] (fs s') = false.
Proof.
  apply (cleanup_aux_files_removes_matches Windows ["Client"]
           ["Client"; "Data"; "notes.TXT"]
           (mkEntry ["Client"; "Data"; "notes.TXT"] (KFile "n") false false false)
           "n" "*.txt"); try reflexivity.
  - simpl. tauto.
  - discriminate.
Defined.

(** X20: [cleanup_aux_files] leaves alone every path whose name matches
    none of its patterns and that does not lie at or below a directory,
    strictly inside the game folder, bearing one of the names whose
    trees it removes. *)
Theorem cleanup_aux_files_spares h game_folder q s :
  kept_by_cleanup h game_folder q ->
  exists s', cleanup_aux_files h game_folder s = (s', Ret tt)
             /\ lookup h q (fs s') = lookup h q (fs s).
Proof.
  intros [H1 H2].
  apply (cleanup_aux_files_invariant h game_folder
           (fun st => lookup h q st = lookup h q (fs s))); [| |reflexivity].
  - intros pat p s1 Hpat Hp Hs1. rewrite unlink_quietly_other; [exact Hs1|].
    destruct (path_eqb h q p) eqn:E; [|reflexivity].
    rewrite <- (fnmatch_eqb h q p pat E) in Hp. now rewrite (H1 pat Hpat) in Hp.
  - intros target found st Ht Hu Hf Hst. rewrite <- Hst.
    apply rmtree_other.
    destruct (is_prefix h found q) eqn:E; [|reflexivity].
    now rewrite (H2 found target Ht E Hu) in Hf.
Qed.

Lemma cleanup_aux_files_spares_witness :
  exists s',
    cleanup_aux_files Posix ["Client"]
      (mkState [mkEntry ["Client"] KDir false false false;
                mkEntry ["Client"; "a.bin"] (KFile "x") false false false;
                mkEntry ["Client"; "a.log"] (KFile "l") false false false] [])
    = (s', Ret tt)
    /\ lookup Posix ["Client"; "a.bin"] (fs s')
       = Some (mkEntry ["Client"; "a.bin"] (KFile "x") false false false).
Proof.
  apply (cleanup_aux_files_spares Posix ["Client"] ["Client"; "a.bin"]
           (mkState [mkEntry ["Client"] KDir false false false;
                     mkEntry ["Client"; "a.bin"] (KFile "x") false false false;
                     mkEntry ["Client"; "a.log"] (KFile "l") false false false] [])).
  split.
  - intros pat Hpat. unfold aux_patterns in Hpat.
    repeat (destruct Hpat as [<-|Hpat]; [reflexivity|]). destruct Hpat.
  - intros found target Ht Hpre Hu.
    destruct found as [|x [|y [|z found]]]; try discriminate Hu.
    + unfold strictly_under in Hu. cbn [is_prefix path_eqb] in Hu.
      destruct (name_eqb Posix "Client" x); discriminate Hu.
    + cbn [is_prefix] in Hpre. apply andb_true_iff in Hpre as [_ Hpre].
      apply andb_true_iff in Hpre as [Hy _].
      unfold name_eqb, normcase in Hy. apply String.eqb_eq in Hy. subst y.
      unfold aux_targets in Ht.
      repeat (destruct Ht as [<-|Ht]; [reflexivity|]). destruct Ht.
    + cbn [is_prefix] in Hpre. rewrite !andb_false_r in Hpre. discriminate.
Defined.

(** ** The configuration file and the cleanup *)

Section Config.
Variable h : platform.

Lemma lookup_app_none p st l :
  lookup h p st = None -> lookup h p (st ++ l)%list = lookup h p l.
Proof.
  unfold lookup. induction st as [|d st IH]; [reflexivity|].
  cbn [find app]. destruct (path_eqb h (e_path d) p); [discriminate|exact IH].
Qed.

Lemma write_text_lookup p text st st' :
  write_text h p text st = Some st' ->
  exists e', lookup h p st' = Some e' /\ e_kind e' = KFile text.
Proof.
  unfold write_text. destruct (lookup h p st) as [e|] eqn:E.
  - destruct (e_kind e); [|discriminate].
    destruct (e_readonly e) eqn:Hro; [discriminate|]. intros [= <-].
    exists (mkEntry (e_path e) (KFile text) (e_readonly e) (e_locked e) (e_sealed e)).
    split; [|reflexivity]. rewrite lookup_map_update.
    + rewrite E. cbn [option_map]. now rewrite (lookup_path h _ _ _ E).
    + intros e'. now destruct (path_eqb h (e_path e') p).
  - intros [= <-]. exists (mkEntry p (KFile text) false false false).
    split; [|reflexivity]. rewrite lookup_app_none by assumption.
    unfold lookup. cbn [find e_path]. now rewrite path_eqb_refl.
Qed.

Lemma config_name_unmatched pat :
  In pat aux_patterns -> fnmatch h "config.ini" pat = false.
Proof.
  intros Hpat. unfold aux_patterns in Hpat.
  repeat (destruct Hpat as [<-|Hpat]; [destruct h; reflexivity|]).
  destruct Hpat.
Qed.

Lemma config_not_below folder found :
  strictly_under h [folder] found = true ->
  is_prefix h found ["config.ini"] = false.
Proof.
  intros Hu. destruct found as [|x [|y found]].
  - discriminate Hu.
  - unfold strictly_under in Hu. cbn [is_prefix path_eqb] in Hu.
    destruct (name_eqb h folder x); discriminate Hu.
  - cbn [is_prefix]. apply andb_false_r.
Qed.

Lemma cleanup_aux_files_keeps_config folder s :
  exists s', cleanup_aux_files h [folder] s = (s', Ret tt)
             /\ lookup h ["config.ini"] (fs s') = lookup h ["config.ini"] (fs s).
Proof.
  apply (cleanup_aux_files_invariant h [folder]
           (fun st => lookup h ["config.ini"] st
                      = lookup h ["config.ini"] (fs s))); [| |reflexivity].
  - intros pat p s1 Hpat Hp Hs1. rewrite unlink_quietly_other; [exact Hs1|].
    destruct (path_eqb h ["config.ini"] p) eqn:E; [|reflexivity].
    rewrite <- (fnmatch_eqb h ["config.ini"] p pat E) in Hp.
    change (path_name ["config.ini"]) with "config.ini" in Hp.
    now rewrite (config_name_unmatched pat Hpat) in Hp.
  - intros target found st Ht Hu Hf Hst. rewrite <- Hst.
    apply rmtree_other. now apply (config_not_below folder).
Qed.

End Config.

(** X21: the [config.ini] that [main] writes after a patch survives the
    two cleanups that follow it: none of the patterns of
    [cleanup_aux_files] matches its name, it lies in no directory that
    is removed, and [cleanup_empty_dirs] removes no file; its text is
    the one that was written. *)
Theorem config_ini_survives_cleanup h folder v s s1 :
  write_config_ini h (Some v) s = (s1, Ret tt) ->
  exists s2,
    (cleanup_aux_files h [folder] ;;; cleanup_empty_dirs h [folder]) s1
    = (s2, Ret tt)
    /\ read_text h ["config.ini"] (fs s2)
       = Some (universal_newlines (config_ini v)).
Proof.
  unfold write_config_ini, os_call.
  destruct (write_text h ["config.ini"] (config_ini v) (fs s)) as [st1|] eqn:E;
    [|discriminate].
  intros [= <-].
  destruct (write_text_lookup h _ _ _ _ E) as (e1 & He1 & Hk1).
  destruct (cleanup_aux_files_keeps_config h folder (mkState st1 (trace s)))
    as (s2 & E2 & H2).
  unfold bind. rewrite E2. rewrite cleanup_empty_dirs_run.
  eexists. split; [reflexivity|]. cbn [fs]. unfold read_text.
  rewrite (cleanup_loop_keeps_file h _ _ _ e1 (config_ini v)).
  - now rewrite Hk1.
  - rewrite H2. exact He1.
  - exact Hk1.
Qed.

Lemma config_ini_survives_cleanup_witness :
  let s := mkState [mkEntry ["Client"] KDir false false false;
                    mkEntry ["Client"; "empty"] KDir false false false;
                    mkEntry ["7z.exe"] (KFile "") false false false;
                    mkEntry ["readme.txt"] (KFile "r") false false false] [] in
  exists s2,
    (cleanup_aux_files Windows ["Client"] ;;; cleanup_empty_dirs Windows ["Client"])
      (fst (write_config_ini Windows (Some "3.6.0") s))
    = (s2, Ret tt)
    /\ read_text Windows ["config.ini"] (fs s2)
       = Some (universal_newlines (config_ini "3.6.0")).
Proof.
  intros s.
  apply (config_ini_survives_cleanup Windows "Client" "3.6.0" s). reflexivity.
Defined.

(** ** The single archives of [main] *)

(** X22: the single archives that [main] processes are exactly the names
    of the working directory that do not start with a dot, match one of
    [*.zip], [*.7z] and [*.rar] and are no part names; whether the name
    is that of a file or of a directory plays no role. *)
Theorem single_archives_enumeration h st n :
  In n (single_archives h st) <->
  In n (cwd_names st) /\ is_hidden n = false
  /\ (fnmatch h n "*.zip" = true \/ fnmatch h n "*.7z" = true
      \/ fnmatch h n "*.rar" = true)
  /\ is_part_file_name n = false.
Proof.
  unfold single_archives. rewrite filter_In, sorted_in, !in_app_iff.
  unfold glob_cwd. rewrite !filter_In.
  change (is_hidden "*.zip") with false. change (is_hidden "*.7z") with false.
  change (is_hidden "*.rar") with false. cbn [orb].
  rewrite negb_true_iff, !andb_true_iff, !negb_true_iff. tauto.
Qed.

(** ** A failure while a single archive is processed *)

Lemma extract_single_archive_ret h run_7z a s :
  snd (extract_single_archive h run_7z a s) = Ret tt.
Proof.
  unfold extract_single_archive, extract_with_7z.
  unfold bind at 1. unfold try_except, bind, log, emit, get_fs, put_fs, raise.
  cbn [fs trace].
  destruct (run_7z a (fs s)) as [st1 [ | | ]]; cbn [is_Exception];
    now rewrite unlink_quietly_run.
Qed.

(** X23: nothing in [main] catches what [process_logical_archive] raises
    for a single archive: the exception (a failure of the patch tool,
    for one) ends [main] in the state of the failure, after the archive
    has been extracted and unlinked, and the later archives, the
    cleanups and the finished message are not reached. *)
Theorem single_archive_failure_aborts_main
    h run_7z run_hpatchz relocate_audio installed_version
    s folder a rest s2 e :
  find (fun f => is_dir h (Path_of h f) (fs s)) GAME_FOLDERS = Some folder ->
  exists_ h ["7z.exe"] (fs s) = true ->
  exists_ h ["hpatchz.exe"] (fs s) = true ->
  get_multipart_first_parts h (fs s) = [] ->
  single_archives h (fs s) = a :: rest ->
  process_logical_archive h run_hpatchz relocate_audio a (Path_of h folder)
    (fst (extract_single_archive h run_7z a
            (mkState (fs s)
               (Log INFO (Detected_game_folder folder) :: trace s))))
  = (s2, Raise e) ->
  main h run_7z run_hpatchz relocate_audio installed_version s = (s2, Raise e).
Proof.
  intros Hgf H7 Hh Hfirst Hsingle Hraise. unfold main.
  unfold bind at 1. unfold detect_game_folder. unfold bind at 1, get_fs at 1.
  rewrite Hgf. unfold bind at 1, log at 1, emit at 1. unfold ret at 1.
  set (s0 := mkState (fs s) (Log INFO (Detected_game_folder folder) :: trace s))
    in *.
  unfold bind at 1. rewrite (check_tools_pass h s0) by assumption.
  unfold bind at 1. unfold extract_all_multipart_and_process.
  unfold bind at 1, get_fs at 1.
  change (fs s0) with (fs s). rewrite Hfirst. cbn [for_fold]. unfold ret at 1.
  unfold bind at 1, get_fs at 1. change (fs s0) with (fs s). rewrite Hsingle.
  cbn [for_fold]. unfold bind at 1. unfold bind at 1. unfold bind at 1.
  pose proof (extract_single_archive_ret h run_7z a s0) as Hret.
  destruct (extract_single_archive h run_7z a s0) as [s1 r]. cbn [snd] in Hret.
  subst r. cbn [fst] in Hraise. unfold bind at 1. now rewrite Hraise.
Qed.

Lemma single_archive_failure_aborts_main_witness :
  let s := mkState [mkEntry ["Client"] KDir false false false;
                    mkEntry ["7z.exe"] (KFile "") false false false;
                    mkEntry ["hpatchz.exe"] (KFile "") false false false;
                    mkEntry ["update.zip"] (KFile "z") false false false;
                    mkEntry ["a.bin"] (KFile "x") false false false] [] in
  let unpack := fun (_ : string) (st : store) =>
    ((st ++ [mkEntry ["hdifffiles.txt"] (KFile "a.bin") false false false;
             mkEntry ["a.bin.hdiff"] (KFile "d") false false false])%list, Exit0) in
  let r := main Windows unpack (fun _ st => (st, ExitNonZero))
             (fun _ st => (st, None)) (fun _ _ => None) s in
  snd r = Raise CalledProcessError
  /\ exists_ Windows ["update.zip"] (fs (fst r)) = false.
Proof.
  intros s unpack r.
  assert (H : r = (fst r, Raise CalledProcessError)).
  { apply (single_archive_failure_aborts_main Windows unpack
             (fun _ st => (st, ExitNonZero)) (fun _ st => (st, None))
             (fun _ _ => None) s "Client" "update.zip" []); reflexivity. }
  rewrite H. split; reflexivity.
Defined.

(** ** [normalize_version] on every string *)

Lemma split_on_length sep s :
  List.length (split_on sep s) = S (count_char sep s).
Proof.
  induction s as [|a s IH]; [reflexivity|]. cbn [split_on count_char].
  destruct (Ascii.eqb a sep); cbn [List.length]; [now rewrite IH|].
  destruct (split_on sep s) as [|p ps]; [discriminate IH|exact IH].
Qed.

Lemma split_on_join sep s :
  concat (String sep "") (split_on sep s) = s.
Proof.
  induction s as [|a s IH]; [reflexivity|]. cbn [split_on].
  destruct (Ascii.eqb a sep) eqn:E.
  - apply Ascii.eqb_eq in E. subst a.
    destruct (split_on sep s) as [|p ps] eqn:Es.
    + now destruct (split_on_nonempty sep s).
    + change (concat (String sep "") ("" :: p :: ps))
        with (String sep (concat (String sep "") (p :: ps))).
      now rewrite IH.
  - destruct (split_on sep s) as [|p ps] eqn:Es.
    + now destruct (split_on_nonempty sep s).
    + destruct ps as [|q ps].
      * cbn [concat] in *. now rewrite IH.
      * change (concat (String sep "") (String a p :: q :: ps))
          with (String a (concat (String sep "") (p :: q :: ps))).
        now rewrite IH.
Qed.

(** X24: [normalize_version] appends [.0] to exactly the strings that
    hold one dot, whatever stands around it, and returns every other
    string as it is, the empty one and those with two dots or more
    included. *)
Theorem normalize_version_total v :
  normalize_version v
  = if Nat.eqb (count_char "." v) 1 then v ++ ".0" else v.
Proof.
  unfold normalize_version.
  pose proof (split_on_length "." v) as Hl.
  pose proof (split_on_join "." v) as Hj.
  destruct (split_on "." v) as [|p0 [|p1 [|p2 l]]]; cbn [List.length] in Hl.
  - discriminate Hl.
  - injection Hl as Hl. now rewrite <- Hl.
  - injection Hl as Hl. rewrite <- Hl. cbn [Nat.eqb].
    cbn [concat] in Hj. rewrite <- Hj. now rewrite !append_assoc.
  - injection Hl as Hl. now rewrite <- Hl.
Qed.

(** ** A directory that resists its removal *)

Section Resists.
Variable h : platform.

Lemma is_prefix_eqb_l q q' x :
  path_eqb h q q' = true -> is_prefix h q x = is_prefix h q' x.
Proof.
  intros E. apply eq_true_iff_eq. split; intros H.
  - eapply is_prefix_trans; [|exact H]. apply path_eqb_is_prefix.
    now rewrite path_eqb_sym.
  - eapply is_prefix_trans; [|exact H]. now apply path_eqb_is_prefix.
Qed.

Lemma blocked_eqb st q q' :
  path_eqb h q q' = true -> blocked h st q = blocked h st q'.
Proof.
  intros E. unfold blocked. induction st as [|d st IH]; [reflexivity|].
  cbn [existsb]. now rewrite IH, (is_prefix_eqb_l _ _ _ E).
Qed.

Lemma rmtree_keeps_blocked p st :
  blocked h st p = true ->
  lookup h p (rmtree_ignore h p st) = lookup h p st.
Proof.
  intros Hb. unfold rmtree_ignore. destruct (is_dir h p st); [|reflexivity].
  apply lookup_filter. intros d Hd.
  now rewrite (blocked_eqb st _ _ Hd), Hb, orb_true_r.
Qed.

End Resists.

(** X25: on Windows, for a manifest line that names a directory inside
    the tree of the working directory, [delete_files] logs that the tree
    was deleted and never a warning, whatever [shutil.rmtree] could
    remove: when an entry at or below the directory resists (it is locked,
    or read-only with [chmod] refused), the directory is still there
    after the entry that reports its deletion. *)
Theorem directory_deletion_reports_success line s :
  let h := Windows in
  let target := Path_of h (strip line) in
  confined h (strip line) = true ->
  is_dir h target (fs s) = true ->
  exists s',
    delete_entry h line s = (s', Ret tt)
    /\ trace s' = Log INFO (Deleted_directory_tree target) :: trace s
    /\ fs s' = rmtree_ignore h target (make_writable_recursive h target (fs s))
    /\ (resists_below h (fs s) target = true -> is_dir h target (fs s') = true).
Proof.
  intros h target _ Hd. rewrite (delete_entry_dir h line s Hd). cbv zeta.
  fold target. eexists. split; [reflexivity|]. cbn [fs trace].
  split; [reflexivity|]. split; [reflexivity|].
  intros Hb. rewrite <- (blocked_make_writable h _ _ Hd) in Hb.
  unfold is_dir, node_kind in *. destruct target as [|a p];
    [reflexivity|].
  rewrite (rmtree_keeps_blocked h _ _ Hb).
  pose proof (node_kind_make_writable h (a :: p) (a :: p) (fs s)) as Hk.
  unfold node_kind in Hk. now rewrite Hk.
Qed.

Lemma directory_deletion_reports_success_witness :
  let s := mkState [mkEntry ["Client"] KDir false false false;
                    mkEntry ["Client"; "old"] KDir false false false;
                    mkEntry ["Client"; "old"; "in_use.bin"] (KFile "x")
                      false true false;
                    mkEntry ["Client"; "old"; "fixed.bin"] (KFile "y")
                      true false true]
                   [] in
  exists s',
    delete_entry Windows "Client\old" s = (s', Ret tt)
    /\ trace s' = [Log INFO (Deleted_directory_tree ["Client"; "old"])]
    /\ is_dir Windows ["Client"; "old"] (fs s') = true.
Proof.
  intros s.
  destruct (directory_deletion_reports_success "Client\old" s eq_refl eq_refl)
    as (s' & H1 & H2 & _ & H4).
  exists s'. split; [exact H1|]. split; [exact H2|]. apply H4. reflexivity.
Defined.
